(** * mp4ff: WebVTT sample-entry boxes, the null media header and fragments

    A shallow embedding of [mp4/wvtt.go], of the [nmhd] box and of the
    fragment code (the constructors of [Fragment], [AddChild],
    [GetFullSamples], [AddFullSample], [AddFullSampleToTrack], [Encode]),
    with the properties the specification states about them and further
    properties of the code.

    Conventions.
    - Go's fixed-width integers are [Z] values; every conversion and every
      operation that can wrap is written with [uint8], [uint32], [uint64],
      [int32] or [int64].
    - A Go [string] and a [[]byte] are sequences of [byte]; a slice carries
      its backing array, so that its capacity is visible.
    - A function that can panic, return an [error] or return normally yields
      a [result]. *)

From Stdlib Require Import ZArith List Lia.
From Stdlib.Strings Require Import Byte String.
From stdpp Require Import base option list gmap.
Import ListNotations.

Local Open Scope Z_scope.
Set Warnings "-register-all".


(** ** Machine integers *)

Definition uint8 (x : Z) : Z := x mod 2 ^ 8.
Definition uint16 (x : Z) : Z := x mod 2 ^ 16.
Definition uint32 (x : Z) : Z := x mod 2 ^ 32.
Definition uint64 (x : Z) : Z := x mod 2 ^ 64.

(** Two's complement reading of the low [w] bits. *)
Definition signed (w : Z) (x : Z) : Z :=
  let m := x mod 2 ^ w in
  if m <? 2 ^ (w - 1) then m else m - 2 ^ w.

Definition int32 (x : Z) : Z := signed 32 x.
Definition int64 (x : Z) : Z := signed 64 x.

Definition maxUint32 : Z := 4294967295.

(** ** Outcomes of a Go call *)

Inductive error : Type :=
| EOF                (* io.EOF *)
| IOError            (* an error surfaced by the underlying reader *)
| ShortWrite         (* io.ErrShortWrite *)
| MalformedHeader
| MalformedBox
| SizeMismatch
| BadSizeInWvtt      (* errors.New("Bad size in wvtt") *)
| OffsetBeyondMdat   (* errors.New("Offset in mdata beyond size") *)
| NoTrack (trackID : Z) (* fmt.Errorf("No track with trackID=%d", trackID) *)
| OutOfFuel.         (* of the model only: a decoder ran out of fuel *)

Inductive result (A : Type) : Type :=
| Ok (a : A)
| Err (e : error)
| Panic.

Arguments Ok {A} a.
Arguments Err {A} e.
Arguments Panic {A}.

#[global] Instance result_ret : MRet result := fun A a => Ok a.

#[global] Instance result_bind : MBind result := fun A B k r =>
  match r with
  | Ok a => k a
  | Err e => Err e
  | Panic => Panic
  end.

(** ** Bytes *)

Definition byte_to_Z (b : byte) : Z := Z.of_N (Byte.to_N b).

Definition byte_of_Z (z : Z) : byte :=
  match Byte.of_N (Z.to_N (z mod 256)) with
  | Some b => b
  | None => x00
  end.

Definition str (s : string) : list byte := list_byte_of_string s.

Definition len {A : Type} (l : list A) : Z := Z.of_nat (length l).

(** [encoding/binary]: big-endian stores and loads. *)
Definition PutUint16 (v : Z) : list byte :=
  [byte_of_Z (v / 2 ^ 8); byte_of_Z v].

Definition PutUint32 (v : Z) : list byte :=
  [byte_of_Z (v / 2 ^ 24); byte_of_Z (v / 2 ^ 16); byte_of_Z (v / 2 ^ 8); byte_of_Z v].

Definition PutUint64 (v : Z) : list byte :=
  PutUint32 (v / 2 ^ 32) ++ PutUint32 v.

Fixpoint be_value (acc : Z) (bs : list byte) : Z :=
  match bs with
  | [] => acc
  | b :: rest => be_value (acc * 256 + byte_to_Z b) rest
  end.

(** [binary.BigEndian.Uint32(b)] starts with the bounds check [_ = b[3]]. *)
Definition Uint32 (b : list byte) : result Z :=
  if (length b <? 4)%nat then Panic else Ok (be_value 0 (take 4 b)).

Definition Uint16 (b : list byte) : result Z :=
  if (length b <? 2)%nat then Panic else Ok (be_value 0 (take 2 b)).

Definition Uint64 (b : list byte) : result Z :=
  if (length b <? 8)%nat then Panic else Ok (be_value 0 (take 8 b)).

(** ** Slices

    A Go slice is a window on a backing array.  [backing] holds the array
    from the slice's first element on, so the capacity is its length, and
    [slen] is the slice's length.  A slice expression [s[lo:hi]] on a
    slice is in range when [0 <= lo <= hi <= cap(s)]: the bound is the
    capacity, not the length. *)

Record slice : Type := Slice { backing : list byte; slen : nat }.

Definition cap (s : slice) : nat := length (backing s).
Definition bytes (s : slice) : list byte := take (slen s) (backing s).
Definition slice_of (l : list byte) : slice := Slice l (length l).

Definition reslice (s : slice) (lo hi : nat) : result slice :=
  if ((lo <=? hi) && (hi <=? cap s))%nat
  then Ok (Slice (drop lo (backing s)) (hi - lo))
  else Panic.

(** ** Readers and writers

    An [io.Reader] over bytes held in memory: the bytes still to be read and
    the error, if any, that the reader reports once they are used up. *)

Record Reader : Type := MkReader { avail : list byte; fault : option error }.

Definition reader_of (l : list byte) : Reader := MkReader l None.

(** [bytes.MinRead]: the capacity [ioutil.ReadAll] starts its buffer with. *)
Definition MinRead : nat := 512.

(** [ioutil.ReadAll(r)]: drains the reader.  The data comes back in a buffer
    created with capacity [MinRead]; what lies beyond the data is still
    zero.  [ReadAll] reads until the reader ends, so [io.EOF] is the end it
    reads for and is not returned as an error; any other error is. *)
Definition ReadAll (r : Reader) : Reader * slice * option error :=
  (MkReader [] (fault r),
   Slice (avail r ++ repeat x00 (MinRead - length (avail r))) (length (avail r)),
   match fault r with
   | Some EOF => None
   | err => err
   end).

(** An [io.Writer]: what has been written, and how many more bytes it
    accepts ([None]: no limit). *)
Record Writer : Type := MkWriter { written : list byte; room : option nat }.

Definition new_writer : Writer := MkWriter [] None.

Definition Write (w : Writer) (p : list byte) : result Writer :=
  match room w with
  | None => Ok (MkWriter (written w ++ p) None)
  | Some n =>
      if (length p <=? n)%nat
      then Ok (MkWriter (written w ++ p) (Some (n - length p)%nat))
      else Err ShortWrite
  end.

#[global] Instance byte_eq_decision : EqDecision byte := Byte.byte_eq_dec.

(** * The box codec: [wvtt.go] and [nmhd] *)

Module Boxes.

(** ** Bitstream primitives *)

(** Modelled from the spec: [SliceReader], the "fixed-endian integer read
    ... over a byte slice cursor" of component A, is not among the
    sources.  Its methods return no error, so a read outside the slice can
    only panic; reads go through slice expressions, whose bound is the
    capacity. *)
Record SliceReader : Type := MkSliceReader { rslice : slice; rpos : nat }.

Definition NewSliceReader (data : slice) : SliceReader := MkSliceReader data 0.

Definition ReadUint32 (s : SliceReader) : result (Z * SliceReader) :=
  window ← reslice (rslice s) (rpos s) (rpos s + 4);
  v ← Uint32 (bytes window);
  Ok (v, MkSliceReader (rslice s) (rpos s + 4)).

Definition ReadUint16 (s : SliceReader) : result (Z * SliceReader) :=
  window ← reslice (rslice s) (rpos s) (rpos s + 2);
  v ← Uint16 (bytes window);
  Ok (v, MkSliceReader (rslice s) (rpos s + 2)).

Definition SkipBytes (s : SliceReader) (n : nat) : SliceReader :=
  MkSliceReader (rslice s) (rpos s + n).

Definition RemainingBytes (s : SliceReader) : result slice :=
  reslice (rslice s) (rpos s) (slen (rslice s)).

(** Modelled from the spec: [SliceWriter], the "fixed-endian integer ...
    write over a byte slice cursor" with "zero-fill" of component A, is not
    among the sources.  It writes into the buffer it was given, which does
    not grow; a write beyond its end panics. *)
Record SliceWriter : Type := MkSliceWriter { wbuf : list byte; wpos : nat }.

Definition NewSliceWriter (buf : list byte) : SliceWriter := MkSliceWriter buf 0.

(** Store [p] at the cursor; the buffer does not grow. *)
Definition put (s : SliceWriter) (p : list byte) : result SliceWriter :=
  if (wpos s + length p <=? length (wbuf s))%nat
  then Ok (MkSliceWriter
             (take (wpos s) (wbuf s) ++ p ++ drop (wpos s + length p) (wbuf s))
             (wpos s + length p))
  else Panic.

Definition WriteUint32 (s : SliceWriter) (v : Z) : result SliceWriter := put s (PutUint32 v).
Definition WriteUint16 (s : SliceWriter) (v : Z) : result SliceWriter := put s (PutUint16 v).
Definition WriteZeroBytes (s : SliceWriter) (n : nat) : result SliceWriter := put s (repeat x00 n).

(** ** Box headers *)

(** Modelled from the spec: the constant [boxHeaderSize] is declared in a
    source that is not given; it is the size of the "8- ... byte box
    preamble", the 32-bit size and the type. *)
Definition boxHeaderSize : Z := 8.

(** Modelled from the spec: the constant [flagsMask] is declared in a
    source that is not given; a FullBox has "(version:u8, flags:u24)", and
    the mask keeps the 24 bits of the flags. *)
Definition flagsMask : Z := 0x00ffffff.

(** Modelled from the spec: the struct [boxHeader] is declared in a source
    that is not given: "{ size: u64, type: [u8;4], uuid: optional [u8;16] }". *)
Record boxHeader : Type := MkHeader {
  name : list byte;             (* four-byte type *)
  size : Z;                     (* declared size, header included *)
  uuid : option (list byte)
}.

(** Modelled from the spec: the type of a box goes through the
    "fixed-length string I/O" of component A, four bytes whatever the
    string. *)
Definition fourcc (typ : list byte) : list byte := take 4 (typ ++ repeat x00 4).

(** Modelled from the spec: [EncodeHeader] is not among the sources.  It
    "writes the equivalent preamble based on box.size().  Chooses 64-bit
    form when box.size() > 2^32 − 1": "write 32-bit size normally; when the
    logical size exceeds 2^32 − 1, write 1 in the 32-bit field followed by
    a 64-bit largesize", in the order [u32 size; u32 type;
    [u64 largesize if size==1]]. *)
Definition header_bytes (sz : Z) (typ : list byte) : list byte :=
  if sz >? maxUint32
  then PutUint32 1 ++ fourcc typ ++ PutUint64 sz
  else PutUint32 sz ++ fourcc typ.

(** Modelled from the spec: [EncodeHeader(b, w)], called with [b.Size()]
    and [b.Type()], writes the preamble in one [Write]. *)
Definition EncodeHeader (sz : Z) (typ : list byte) (w : Writer) : result Writer :=
  Write w (header_bytes sz typ).

(** ** The boxes of [wvtt.go] and [nmhd]

    One constructor per box struct, with the struct's fields.  The typed
    fields of a container ([VttC], [Vlab], [Vsid], ...) refer to boxes that
    are also in [Children].  [WvttBox] has a [Btrt] field too, whose box
    type is defined elsewhere; no box of this development has that type,
    so the field would stay nil and is left out.

    [UnknownBox] is modelled from the spec: the opaque carrier for a type
    without decoder, which keeps the type and the raw payload. *)

Inductive Box : Type :=
| NmhdBox (Version : Z) (Flags : Z)
| WvttBox (VttC Vlab : option Box) (Children : list Box) (DataReferenceIndex : Z)
| VttCBox (Config : list byte)
| VlabBox (SourceLabel : list byte)
| VtteBox
| VttcBox (Vsid Iden Ctim Sttg Payl : option Box) (Children : list Box)
| VsidBox (SourceID : Z)
| CtimBox (CueCurrentTime : list byte)
| IdenBox (CueID : list byte)
| SttgBox (Settings : list byte)
| PaylBox (CueText : list byte)
| VttaBox (CueAdditionalText : list byte)
| UnknownBox (typ : list byte) (notDecoded : list byte).

(** [Type()] of each box. *)
Definition Type_ (b : Box) : list byte :=
  match b with
  | NmhdBox _ _ => str "nmhd"
  | WvttBox _ _ _ _ => str "wvtt"
  | VttCBox _ => str "vttC"
  | VlabBox _ => str "vlab"
  | VtteBox => str "vtte"
  | VttcBox _ _ _ _ _ _ => str "vttc"
  | VsidBox _ => str "vsid"
  | CtimBox _ => str "ctim"
  | IdenBox _ => str "iden"
  | SttgBox _ => str "sttg"
  | PaylBox _ => str "payl"
  | VttaBox _ => str "vtta"
  | UnknownBox t _ => t
  end.

Definition nrWvttBytesBeforeChildren : Z := 16.

(** [Size()] of each box, a [uint64].  The loop of [WvttBox.Size] adds the
    sizes of the children one by one; [VttcBox.Size] is
    [containerSize(v.Children)], written out here and defined below. *)
Fixpoint Size (b : Box) : Z :=
  match b with
  | NmhdBox _ _ => uint64 (boxHeaderSize + 4)
  | WvttBox _ _ children _ =>
      fold_left (fun totalSize child => uint64 (totalSize + Size child))
                children (uint64 nrWvttBytesBeforeChildren)
  | VttCBox config => uint64 (boxHeaderSize + len config)
  | VlabBox sourceLabel => uint64 (boxHeaderSize + len sourceLabel)
  | VtteBox => uint64 boxHeaderSize
  | VttcBox _ _ _ _ _ children =>
      fold_left (fun totalSize child => uint64 (totalSize + Size child))
                children (uint64 boxHeaderSize)
  | VsidBox _ => uint64 (boxHeaderSize + 4)
  | CtimBox t => uint64 (boxHeaderSize + len t)
  | IdenBox t => uint64 (boxHeaderSize + len t)
  | SttgBox t => uint64 (boxHeaderSize + len t)
  | PaylBox t => uint64 (boxHeaderSize + len t)
  | VttaBox t => uint64 (boxHeaderSize + len t)
  | UnknownBox _ raw => uint64 (boxHeaderSize + len raw)
  end.

(** Modelled from the spec: [containerSize] is not among the sources:
    "[container_size(children)]: [header_size + Σ child.size()]". *)
Definition containerSize (children : list Box) : Z :=
  fold_left (fun totalSize child => uint64 (totalSize + Size child))
            children (uint64 boxHeaderSize).

(** Modelled from the spec: [makebuf] is not among the sources; it
    allocates the zeroed buffer for what follows the header,
    [Size() - boxHeaderSize] bytes. *)
Definition makebuf (b : Box) : list byte :=
  repeat x00 (Z.to_nat (Size b - boxHeaderSize)).

(** [Encode(w)] of each box.  [encodeChildren] is the loop
    [for _, child := range Children { err = child.Encode(w) ... }] of
    [WvttBox.Encode].  [VttcBox.Encode] is [EncodeContainer(v, w)], which is
    not among the sources and is modelled from the spec:
    "[encode_container(box, writer)]: writes header, then each child in
    insertion order". *)
Fixpoint Encode (b : Box) (w : Writer) : result Writer :=
  let encodeChildren :=
    fix encodeChildren (children : list Box) (w : Writer) : result Writer :=
      match children with
      | [] => Ok w
      | child :: rest => w ← Encode child w; encodeChildren rest w
      end in
  let encodeText (text : list byte) : result Writer :=
    w ← EncodeHeader (Size b) (Type_ b) w; Write w text in
  match b with
  | NmhdBox version flags =>
      w ← EncodeHeader (Size b) (Type_ b) w;
      let buf := makebuf b in
      let sw := NewSliceWriter buf in
      let versionAndFlags := uint32 (uint32 (Z.shiftl version 24) + flags) in
      sw ← WriteUint32 sw versionAndFlags;
      Write w (wbuf sw)
  | WvttBox _ _ children dataReferenceIndex =>
      w ← EncodeHeader (Size b) (Type_ b) w;
      let buf := makebuf b in
      let sw := NewSliceWriter buf in
      sw ← WriteZeroBytes sw 6;
      sw ← WriteUint16 sw dataReferenceIndex;
      w ← Write w (take (wpos sw) (wbuf sw));
      encodeChildren children w
  | VttCBox config => encodeText config
  | VlabBox sourceLabel => encodeText sourceLabel
  | VtteBox => EncodeHeader (Size b) (Type_ b) w
  | VttcBox _ _ _ _ _ children =>
      w ← EncodeHeader (Size b) (Type_ b) w;
      encodeChildren children w
  | VsidBox sourceID =>
      w ← EncodeHeader (Size b) (Type_ b) w;
      Write w (PutUint32 sourceID)
  | CtimBox t => encodeText t
  | IdenBox t => encodeText t
  | SttgBox t => encodeText t
  | PaylBox t => encodeText t
  | VttaBox t => encodeText t
  | UnknownBox _ raw => encodeText raw
  end.

Fixpoint encodeChildren (children : list Box) (w : Writer) : result Writer :=
  match children with
  | [] => Ok w
  | child :: rest => w ← Encode child w; encodeChildren rest w
  end.

(** ** Decoders *)

(** [NewWvttBox]: an empty sample entry, with the data reference index 1. *)
Definition NewWvttBox : Box := WvttBox None None [] 1.

(** [AddChild] of [WvttBox] and of [VttcBox], on the fields of the
    receiver: a type switch sets the typed field, and the box is appended
    to [Children] whatever its type. *)
Definition WvttAddChild (vttC vlab : option Box) (children : list Box)
    (dataReferenceIndex : Z) (box : Box) : Box :=
  match box with
  | VttCBox _ => WvttBox (Some box) vlab (children ++ [box]) dataReferenceIndex
  | VlabBox _ => WvttBox vttC (Some box) (children ++ [box]) dataReferenceIndex
  | _ => WvttBox vttC vlab (children ++ [box]) dataReferenceIndex
  end.

Definition VttcAddChild (vsid iden ctim sttg payl : option Box) (children : list Box)
    (box : Box) : Box :=
  match box with
  | VsidBox _ => VttcBox (Some box) iden ctim sttg payl (children ++ [box])
  | IdenBox _ => VttcBox vsid (Some box) ctim sttg payl (children ++ [box])
  | CtimBox _ => VttcBox vsid iden (Some box) sttg payl (children ++ [box])
  | SttgBox _ => VttcBox vsid iden ctim (Some box) payl (children ++ [box])
  | PaylBox _ => VttcBox vsid iden ctim sttg (Some box) (children ++ [box])
  | _ => VttcBox vsid iden ctim sttg payl (children ++ [box])
  end.

Definition AddChild (parent : Box) (box : Box) : Box :=
  match parent with
  | WvttBox vttC vlab children dri => WvttAddChild vttC vlab children dri box
  | VttcBox vsid iden ctim sttg payl children =>
      VttcAddChild vsid iden ctim sttg payl children box
  | _ => parent
  end.

(** A box-specific decoder gets the header, the position of the box and a
    reader limited to the payload; it returns the box and the reader as it
    left it. *)
Definition decoder : Type := boxHeader -> Z -> Reader -> result (Box * Reader).

(** The decoders that keep the whole payload as text:
    [data, err := ioutil.ReadAll(r)] then [string(data)]. *)
Definition decodeText (mk : list byte -> Box) : decoder := fun hdr startPos r =>
  let '(r, data, err) := ReadAll r in
  match err with
  | Some e => Err e
  | None => Ok (mk (bytes data), r)
  end.

Definition DecodeVttC : decoder := decodeText VttCBox.
Definition DecodeVlab : decoder := decodeText VlabBox.
Definition DecodeCtim : decoder := decodeText CtimBox.
Definition DecodeIden : decoder := decodeText IdenBox.
Definition DecodeSttg : decoder := decodeText SttgBox.
Definition DecodePayl : decoder := decodeText PaylBox.
Definition DecodeVtta : decoder := decodeText VttaBox.

Definition DecodeNmhd : decoder := fun hdr startPos r =>
  let '(r, data, err) := ReadAll r in
  match err with
  | Some e => Err e
  | None =>
      let s := NewSliceReader data in
      '(versionAndFlags, s) ← ReadUint32 s;
      Ok (NmhdBox (uint8 (Z.shiftr versionAndFlags 24))
                  (Z.land versionAndFlags flagsMask), r)
  end.

(** [DecodeVtte] does not touch its reader. *)
Definition DecodeVtte : decoder := fun hdr startPos r => Ok (VtteBox, r).

(** [SourceID: binary.BigEndian.Uint32(data[0:4])]: a slice expression
    on the slice that [ReadAll] returned. *)
Definition DecodeVsid : decoder := fun hdr startPos r =>
  let '(r, data, err) := ReadAll r in
  match err with
  | Some e => Err e
  | None =>
      window ← reslice data 0 4;
      sourceID ← Uint32 (bytes window);
      Ok (VsidBox sourceID, r)
  end.

(** Modelled from the spec: [DecodeUnknown], the fallback of the registry,
    "preserving { header, raw_bytes }". *)
Definition DecodeUnknown : decoder := fun hdr startPos r =>
  let '(r, data, err) := ReadAll r in
  match err with
  | Some e => Err e
  | None => Ok (UnknownBox (name hdr) (bytes data), r)
  end.

Section Containers.

(** The decoders of the two containers call back into [DecodeBox]; they
    are written over the box decoder they call. *)
Variable DecodeBox : Z -> Reader -> result (Box * Reader).

(** The loop of [DecodeWvtt]; [n] bounds its iterations. *)
Fixpoint wvttLoop (n : nat) (endPos : Z) (w : Box) (pos : Z) (restReader : Reader)
    : result Box :=
  match n with
  | O => Err OutOfFuel
  | S n =>
      match DecodeBox pos restReader with
      | Err EOF => Ok w
      | Err e => Err e
      | Panic => Panic
      | Ok (box, restReader) =>
          let w := AddChild w box in
          let pos := uint64 (pos + Size box) in
          if pos =? endPos then Ok w
          else if pos >? endPos then Err BadSizeInWvtt
          else wvttLoop n endPos w pos restReader
      end
  end.

Definition DecodeWvtt (n : nat) : decoder := fun hdr startPos r =>
  let '(r, data, err) := ReadAll r in
  match err with
  | Some e => Err e
  | None =>
      let s := NewSliceReader data in
      let s := SkipBytes s 6 in
      '(dataReferenceIndex, s) ← ReadUint16 s;
      remaining ← RemainingBytes s;
      let restReader := reader_of (bytes remaining) in
      let pos := uint64 (startPos + nrWvttBytesBeforeChildren) in
      w ← wvttLoop n (uint64 (startPos + size hdr))
            (WvttBox None None [] dataReferenceIndex) pos restReader;
      Ok (w, r)
  end.

(** Modelled from the spec: [DecodeContainerChildren] "repeatedly decodes
    a child box, advancing a position cursor by the child's declared size,
    until the cursor equals end.  Fails with SizeMismatch if the cursor
    overshoots end."  The declared size of a child is what its decoding
    took from the reader. *)
Fixpoint DecodeContainerChildren (n : nat) (pos endPos : Z) (r : Reader)
    (l : list Box) : result (list Box * Reader) :=
  match n with
  | O => Err OutOfFuel
  | S n =>
      if pos =? endPos then Ok (l, r)
      else if pos >? endPos then Err SizeMismatch
      else
        '(box, r') ← DecodeBox pos r;
        let declared := len (avail r) - len (avail r') in
        DecodeContainerChildren n (uint64 (pos + declared)) endPos r' (l ++ [box])
  end.

Definition DecodeVttc (n : nat) : decoder := fun hdr startPos r =>
  '(l, r) ← DecodeContainerChildren n (uint64 (startPos + 8))
              (uint64 (startPos + size hdr)) r [];
  Ok (fold_left AddChild l (VttcBox None None None None None []), r).

End Containers.

(** Modelled from the spec: the registry, "a static mapping from four-byte
    type to a decoder"; the types are those whose decoders are above, any
    other type goes to the opaque carrier. *)
Definition decoders (decodeBox : Z -> Reader -> result (Box * Reader)) (n : nat)
    (typ : list byte) : decoder :=
  if decide (typ = str "nmhd") then DecodeNmhd
  else if decide (typ = str "wvtt") then DecodeWvtt decodeBox n
  else if decide (typ = str "vttC") then DecodeVttC
  else if decide (typ = str "vlab") then DecodeVlab
  else if decide (typ = str "vtte") then DecodeVtte
  else if decide (typ = str "vttc") then DecodeVttc decodeBox n
  else if decide (typ = str "vsid") then DecodeVsid
  else if decide (typ = str "ctim") then DecodeCtim
  else if decide (typ = str "iden") then DecodeIden
  else if decide (typ = str "sttg") then DecodeSttg
  else if decide (typ = str "payl") then DecodePayl
  else if decide (typ = str "vtta") then DecodeVtta
  else DecodeUnknown.

(** Take [n] bytes from a reader, if it has them. *)
Definition readN (n : nat) (r : Reader) : option (list byte * Reader) :=
  if (n <=? length (avail r))%nat
  then Some (take n (avail r), MkReader (drop n (avail r)) (fault r))
  else None.

(** Modelled from the spec: [decodeHeader] "reads 8 bytes; if the 32-bit
    size is 1, reads 8 more for largesize; if type is uuid, reads 16 more.
    Fails with MalformedHeader on short read or when declared size is
    nonzero and strictly less than the header's own size."  It returns the
    header and the number of bytes of the header.  A reader with nothing
    left reports [io.EOF], which the loop of [DecodeWvtt] tests for. *)
Definition decodeHeader (r : Reader) : result (boxHeader * Z * Reader) :=
  match avail r with
  | [] => Err (default EOF (fault r))
  | _ =>
      match readN 8 r with
      | None => Err MalformedHeader
      | Some (buf, r) =>
          let size32 := be_value 0 (take 4 buf) in
          let typ := drop 4 buf in
          '(sz, hdrlen, r) ←
            (if size32 =? 1
             then match readN 8 r with
                  | None => Err MalformedHeader
                  | Some (buf, r) => Ok (be_value 0 buf, 16, r)
                  end
             else Ok (size32, 8, r));
          '(u, hdrlen, r) ←
            (if decide (typ = str "uuid")
             then match readN 16 r with
                  | None => Err MalformedHeader
                  | Some (buf, r) => Ok (Some buf, hdrlen + 16, r)
                  end
             else Ok (None, hdrlen, r));
          if (negb (sz =? 0) && (sz <? hdrlen))%bool then Err MalformedHeader
          else Ok (MkHeader typ sz u, hdrlen, r)
      end
  end.

(** Modelled from the spec: [DecodeBox] reads the header, finds the decoder
    of the type and hands it "a reader limited to exactly size −
    header_bytes payload bytes; it must consume all of them.  Any mismatch
    is MalformedBox."  Size 0 ("extends to end of file") is accepted for
    the top-level [mdat] only, which is not one of the boxes here. *)
Fixpoint DecodeBox (fuel : nat) (startPos : Z) (r : Reader) : result (Box * Reader) :=
  match fuel with
  | O => Err OutOfFuel
  | S fuel =>
      '(hdr, hdrlen, r) ← decodeHeader r;
      if size hdr =? 0 then Err MalformedHeader
      else
        let remainingLength := Z.to_nat (size hdr - hdrlen) in
        let payload := take remainingLength (avail r) in
        let limited :=
          MkReader payload
                   (if (length (avail r) <? remainingLength)%nat then fault r else None) in
        '(b, limited) ← decoders (DecodeBox fuel) fuel (name hdr) hdr startPos limited;
        if decide (avail limited = [] /\ length payload = remainingLength)
        then Ok (b, MkReader (drop remainingLength (avail r)) (fault r))
        else Err MalformedBox
  end.

(** Decoding the box that starts a byte sequence: every box takes at least
    8 bytes, so the length of the input is fuel enough. *)
Definition decode (input : list byte) : result (Box * Reader) :=
  DecodeBox (S (length input)) 0 (reader_of input).

Definition encode (b : Box) : result (list byte) :=
  w ← Encode b new_writer; Ok (written w).

(** ** Notions for the properties of the codec *)

Definition children (b : Box) : list Box :=
  match b with
  | WvttBox _ _ cs _ => cs
  | VttcBox _ _ _ _ _ cs => cs
  | _ => []
  end.

(** Induction on boxes, through the children of containers. *)
Section BoxInduction.

Variable P : Box -> Prop.
Hypothesis step : forall b, Forall P (children b) -> P b.

Fixpoint Box_children_ind (b : Box) : P b :=
  let fix all (cs : list Box) : Forall P cs :=
    match cs with
    | [] => @List.Forall_nil Box P
    | c :: cs => @List.Forall_cons Box P c cs (Box_children_ind c) (all cs)
    end in
  step b
    (match b return Forall P (children b) with
     | WvttBox _ _ cs _ => all cs
     | VttcBox _ _ _ _ _ cs => all cs
     | _ => @List.Forall_nil Box P
     end).

End BoxInduction.

Fixpoint sum_sizes (cs : list Box) : Z :=
  match cs with
  | [] => 0
  | c :: cs => Size c + sum_sizes cs
  end.

(** The header, then a payload in one [Write]. *)
Definition encodeWith (b : Box) (payload : list byte) (w : Writer) : result Writer :=
  w ← EncodeHeader (Size b) (Type_ b) w; Write w payload.

(** A box is in agreement when a successful [Encode] appends an output
    that, unless it is longer than 2^32 - 1 bytes, has [Size()] bytes. *)
Definition agrees (b : Box) : Prop :=
  forall w w', Encode b w = Ok w' ->
    exists out, written w' = written w ++ out /\
                (len out <= maxUint32 -> len out = Size b).

(** A sample entry with a configuration, a label and a cue, for the
    examples. *)
Definition sampleWvtt : Box :=
  WvttBox None None
    [VttCBox (str "WEBVTT"); VlabBox (str "en");
     VttcBox None None None None None [VsidBox 5; PaylBox (str "hello")];
     VtteBox]
    1.

Definition sampleWritten : Writer :=
  Eval vm_compute in
    match Encode sampleWvtt new_writer with Ok w => w | _ => new_writer end.

(** The text of 2^32 - 8 zero bytes. *)
Definition hugeConfig : list byte := repeat x00 (Z.to_nat 4294967288).

(** A box that is not a container. *)
Definition leaf (b : Box) : bool :=
  match b with
  | WvttBox _ _ _ _ | VttcBox _ _ _ _ _ _ => false
  | _ => true
  end.

(** What [Encode] writes after the header of a leaf box. *)
Definition body (b : Box) : list byte :=
  match b with
  | NmhdBox version flags => PutUint32 (uint32 (uint32 (Z.shiftl version 24) + flags))
  | VsidBox sourceID => PutUint32 sourceID
  | VttCBox t | VlabBox t | CtimBox t | IdenBox t | SttgBox t | PaylBox t | VttaBox t => t
  | UnknownBox _ raw => raw
  | _ => []
  end.

(** An [nmhd] box with version 1 and flags 0x020304. *)
Definition nmhdBytes : list byte :=
  [x00; x00; x00; x0c; x6e; x6d; x68; x64; x01; x02; x03; x04].

(** The same box with one more byte of payload, and 13 for its size. *)
Definition nmhdTrailing : list byte :=
  [x00; x00; x00; x0d; x6e; x6d; x68; x64; x01; x02; x03; x04; xff].

(** An empty [wvtt] whose first reserved byte is 1, and a [vttc] that holds
    [nmhdTrailing] and a [vsid] with a payload of three bytes: both are
    as long as the boxes that they decode to say they are. *)
Definition wvttReserved : list byte :=
  [x00; x00; x00; x10; x77; x76; x74; x74; x01; x00; x00; x00; x00; x00; x00; x01].

Definition vttcMixed : list byte :=
  [x00; x00; x00; x20; x76; x74; x74; x63] ++ nmhdTrailing
    ++ [x00; x00; x00; x0b; x76; x73; x69; x64; xaa; xbb; xcc].

(** The input decodes, and the box it decodes to is encoded otherwise. *)
Definition not_reproduced (input : list byte) (b : Box) : Prop :=
  decode input = Ok (b, MkReader [] None) /\
  exists out, encode b = Ok out /\ out <> input.

(** The types that have a decoder of their own, and the type that makes the
    header longer. *)
Definition registered : list (list byte) :=
  map str ["nmhd"; "wvtt"; "vttC"; "vlab"; "vtte"; "vttc"; "vsid"; "ctim"; "iden";
           "sttg"; "payl"; "vtta"; "uuid"]%string.

(** A box whose fields are values of their Go types, and which, when it is
    an opaque carrier, has a four-byte type without decoder. *)
Fixpoint canonical (b : Box) : bool :=
  match b with
  | NmhdBox version flags =>
      (0 <=? version) && (version <? 256) && (0 <=? flags) && (flags <? 2 ^ 24)
  | VsidBox sourceID => (0 <=? sourceID) && (sourceID <=? maxUint32)
  | WvttBox _ _ cs dri => (0 <=? dri) && (dri <? 65536) && forallb canonical cs
  | VttcBox _ _ _ _ _ cs => forallb canonical cs
  | UnknownBox typ _ => (length typ =? 4)%nat && bool_decide (typ ∉ registered)
  | _ => true
  end.

(** The size of a box, header and payload, as a number without bound. *)
Fixpoint plain_size (b : Box) : Z :=
  match b with
  | WvttBox _ _ cs _ => 16 + fold_right (fun c total => plain_size c + total) 0 cs
  | VttcBox _ _ _ _ _ cs => 8 + fold_right (fun c total => plain_size c + total) 0 cs
  | _ => 8 + len (body b)
  end.

Definition plain_sizes (cs : list Box) : Z :=
  fold_right (fun c total => plain_size c + total) 0 cs.

(** The bytes of a box. *)
Fixpoint enc (b : Box) : list byte :=
  header_bytes (Size b) (Type_ b) ++
  match b with
  | WvttBox _ _ cs dri => repeat x00 6 ++ PutUint16 dri ++ concat (map enc cs)
  | VttcBox _ _ _ _ _ cs => concat (map enc cs)
  | _ => body b
  end.

Definition encs (cs : list Box) : list byte := concat (map enc cs).

(** The box with the typed fields that [AddChild] gives it. *)
Fixpoint norm (b : Box) : Box :=
  match b with
  | WvttBox _ _ cs dri => fold_left AddChild (map norm cs) (WvttBox None None [] dri)
  | VttcBox _ _ _ _ _ cs =>
      fold_left AddChild (map norm cs) (VttcBox None None None None None [])
  | _ => b
  end.

(** With this fuel, [DecodeBox] gives the box back from its bytes,
    whatever follows them in the reader. *)
Definition decodes_back (fuel : nat) (c : Box) : Prop :=
  forall (startPos : Z) (rest : list byte) (flt : option error),
    0 <= startPos -> startPos + plain_size c < 2 ^ 64 ->
    DecodeBox fuel startPos (MkReader (enc c ++ rest) flt) = Ok (norm c, MkReader rest flt).

(** What follows the header in the bytes of a box. *)
Definition payload (b : Box) : list byte :=
  match b with
  | WvttBox _ _ cs dri => repeat x00 6 ++ PutUint16 dri ++ encs cs
  | VttcBox _ _ _ _ _ cs => encs cs
  | _ => body b
  end.

(** The bytes of [sampleWvtt]. *)
Definition sampleBytes : list byte :=
  Eval vm_compute in match encode sampleWvtt with Ok l => l | _ => [] end.

(** The struct of a box, as the type switches of [AddChild] tell them
    apart. *)
Definition isVttC (b : Box) : bool := match b with VttCBox _ => true | _ => false end.
Definition isVlab (b : Box) : bool := match b with VlabBox _ => true | _ => false end.
Definition isVsid (b : Box) : bool := match b with VsidBox _ => true | _ => false end.
Definition isIden (b : Box) : bool := match b with IdenBox _ => true | _ => false end.
Definition isCtim (b : Box) : bool := match b with CtimBox _ => true | _ => false end.
Definition isSttg (b : Box) : bool := match b with SttgBox _ => true | _ => false end.
Definition isPayl (b : Box) : bool := match b with PaylBox _ => true | _ => false end.

(** The last box of [cs] of a given struct, or else [d]. *)
Definition lastOf (ofType : Box -> bool) (cs : list Box) (d : option Box) : option Box :=
  match find ofType (rev cs) with
  | Some c => Some c
  | None => d
  end.

(** The decoders of the boxes that hold a text, each with the struct that
    it fills. *)
Definition textBoxes : list (decoder * (list byte -> Box)) :=
  [(DecodeVttC, VttCBox); (DecodeVlab, VlabBox); (DecodeCtim, CtimBox);
   (DecodeIden, IdenBox); (DecodeSttg, SttgBox); (DecodePayl, PaylBox);
   (DecodeVtta, VttaBox)].

(** [sampleWvtt] as the decoder returns it. *)
Definition sampleDecoded : Box := Eval vm_compute in norm sampleWvtt.

(** The typed fields of a container are the last children of their types,
    and nil where there is no such child. *)
Definition consistent (b : Box) : Prop :=
  match b with
  | WvttBox vttC vlab cs _ =>
      vttC = lastOf isVttC cs None /\ vlab = lastOf isVlab cs None
  | VttcBox vsid iden ctim sttg payl cs =>
      vsid = lastOf isVsid cs None /\ iden = lastOf isIden cs None /\
      ctim = lastOf isCtim cs None /\ sttg = lastOf isSttg cs None /\
      payl = lastOf isPayl cs None
  | _ => True
  end.

End Boxes.

(** * Fragments *)

Module Fragment.

(** ** The store

    The fragment code works on boxes through pointers, and the same box is
    reachable along several paths ([moof.Traf] is also an element of
    [moof.Trafs], [traf.Trun] of [traf.Truns]).  Boxes live in a store; a
    pointer is [None] (nil) or the address of a box. *)

Definition loc : Type := positive.
Definition ptr : Type := option loc.

(** The structs of the boxes inside a fragment are declared in sources
    that are not given.  They are modelled from the data model of the
    spec, with the fields that the fragment code reads and writes; the
    presence bits of [tfhd] and [trun] are booleans named after the methods
    that test them. *)

(** Modelled from the spec: [Sample], the "per-sample ... tuples of
    (duration, size, flags, cts_offset)". *)
Record Sample : Type := MkSample {
  Flags : Z;        (* uint32 *)
  Dur : Z;          (* uint32 *)
  Size : Z;         (* uint32 *)
  Cto : Z           (* int32 *)
}.

(** Modelled from the spec: [FullSample], "{ decode_time: u64, ..., flags:
    u32, size: u32, data: bytes }"; the source reads [s.Sample],
    [s.DecodeTime] and [s.Data]. *)
Record FullSample : Type := MkFullSample {
  sample : Sample;      (* the embedded Sample *)
  DecodeTime : Z;       (* uint64 *)
  Data : list byte
}.

(** Modelled from the spec: [TrexBox], "track extends, the movie-level
    source of fragment defaults". *)
Record TrexBox : Type := MkTrex {
  TrexTrackID : Z;
  TrexDefaultSampleDuration : Z;
  TrexDefaultSampleSize : Z;
  TrexDefaultSampleFlags : Z
}.

(** Modelled from the spec: [MfhdBox], "[sequence_number:u32]". *)
Record MfhdBox : Type := MkMfhd { SequenceNumber : Z }.

(** Modelled from the spec: [TfhdBox], "[track_id: u32], and an
    option-bitmap indicating which of {base_data_offset:u64, ...,
    default_sample_duration:u32, default_sample_size:u32,
    default_sample_flags:u32} are present", and the flag
    "default_base_is_moof". *)
Record TfhdBox : Type := MkTfhd {
  TrackID : Z;                        (* uint32 *)
  HasBaseDataOffset : bool;
  BaseDataOffset : Z;                 (* uint64 *)
  DefaultBaseIfMoof : bool;
  HasDefaultSampleDuration : bool;
  DefaultSampleDuration : Z;
  HasDefaultSampleSize : bool;
  DefaultSampleSize : Z;
  HasDefaultSampleFlags : bool;
  DefaultSampleFlags : Z
}.

(** Modelled from the spec: [TfdtBox], the "base-media decode time". *)
Record TfdtBox : Type := MkTfdt { BaseMediaDecodeTime : Z (* uint64 *) }.

(** Modelled from the spec: [TrunBox], "optional [data_offset: i32],
    optional [first_sample_flags: u32], and per-sample optional tuples";
    "the presence of each of the four per-sample fields is fixed per trun
    by flag bits". *)
Record TrunBox : Type := MkTrun {
  HasDataOffset : bool;
  DataOffset : Z;                     (* int32 *)
  HasFirstSampleFlags : bool;
  FirstSampleFlags : Z;
  HasSampleDuration : bool;
  HasSampleSize : bool;
  HasSampleFlags : bool;
  HasSampleCTO : bool;
  samples : list Sample
}.

(** Modelled from the spec: [TrafBox], "container with exactly one tfhd,
    at most one tfdt ..., and an ordered list of trun runs", with its
    "typed accessors". *)
Record TrafBox : Type := MkTraf {
  Tfhd : ptr;
  Tfdt : ptr;
  Trun : ptr;              (* the first trun *)
  Truns : list ptr
}.

(** Modelled from the spec: [MoofBox], "container holding exactly one mfhd
    ... and one or more traf", which "carries its start_pos"; the source
    comments [moof.Traf] as "The first one". *)
Record MoofBox : Type := MkMoof {
  StartPos : Z;            (* uint64 *)
  Mfhd : ptr;
  Traf : ptr;              (* the first traf *)
  Trafs : list ptr
}.

(** Modelled from the spec: [MdatBox], "opaque byte blob plus its
    payload_absolute_offset"; the source reads the latter through the
    method [PayloadAbsoluteOffset()]. *)
Record MdatBox : Type := MkMdat {
  PayloadAbsoluteOffset : Z;   (* uint64 *)
  MdatData : list byte
}.

Inductive object : Type :=
| OMoof (b : MoofBox)
| OMfhd (b : MfhdBox)
| OTraf (b : TrafBox)
| OTfhd (b : TfhdBox)
| OTfdt (b : TfdtBox)
| OTrun (b : TrunBox)
| OMdat (b : MdatBox).

Abbreviation heap := (gmap loc object).

(** A computation on the store: it panics, or returns a value and the new
    store. *)
Definition M (A : Type) : Type := heap -> result (A * heap).

#[global] Instance M_ret : MRet M := fun A a h => Ok (a, h).

#[global] Instance M_bind : MBind M := fun A B k m h =>
  match m h with
  | Ok (a, h) => k a h
  | Err e => Err e
  | Panic => Panic
  end.

Definition panic {A : Type} : M A := fun _ => Panic.

(** [new(T)]: a fresh address. *)
Definition alloc (o : object) : M loc := fun h =>
  let l := fresh (dom h) in Ok (l, <[l := o]> h).

(** Dereferencing: nil panics. *)
Definition load (p : ptr) : M object := fun h =>
  match p with
  | None => Panic
  | Some l => match h !! l with Some o => Ok (o, h) | None => Panic end
  end.

Definition store (p : ptr) (o : object) : M unit := fun h =>
  match p with
  | None => Panic
  | Some l => Ok (tt, <[l := o]> h)
  end.

Definition load_moof (p : ptr) : M MoofBox :=
  o ← load p; match o with OMoof b => mret b | _ => panic end.
Definition load_traf (p : ptr) : M TrafBox :=
  o ← load p; match o with OTraf b => mret b | _ => panic end.
Definition load_tfhd (p : ptr) : M TfhdBox :=
  o ← load p; match o with OTfhd b => mret b | _ => panic end.
Definition load_tfdt (p : ptr) : M TfdtBox :=
  o ← load p; match o with OTfdt b => mret b | _ => panic end.
Definition load_trun (p : ptr) : M TrunBox :=
  o ← load p; match o with OTrun b => mret b | _ => panic end.
Definition load_mdat (p : ptr) : M MdatBox :=
  o ← load p; match o with OMdat b => mret b | _ => panic end.

(** ** Top-level boxes

    A value of the interface [Box] is a dynamic type and a pointer.  The
    top-level boxes that the fragment knows are [prft], [moof] and [mdat];
    [OtherBox] stands for a box of any other struct, with what its [Type()]
    returns (the opaque carrier returns the type it was read with). *)

Inductive Box : Type :=
| PrftBox (p : ptr)
| MoofBoxRef (p : ptr)
| MdatBoxRef (p : ptr)
| OtherBox (typ : string) (p : ptr).

Definition Type_ (b : Box) : string :=
  match b with
  | PrftBox _ => "prft"
  | MoofBoxRef _ => "moof"
  | MdatBoxRef _ => "mdat"
  | OtherBox typ _ => typ
  end.

Record Fragment : Type := MkFragment {
  Prft : ptr;
  Moof : ptr;
  Mdat : ptr;
  Children : list Box
}.

Definition NewFragment : Fragment := MkFragment None None None [].

(** [AddChild]: a switch on [b.Type()], with a type assertion in each case
    (which panics when the dynamic type is another one), then the append. *)
Definition AddChild (f : Fragment) (b : Box) : result Fragment :=
  f ← (if String.eqb (Type_ b) "prft" then
         match b with
         | PrftBox p => Ok (MkFragment p (Moof f) (Mdat f) (Children f))
         | _ => Panic
         end
       else if String.eqb (Type_ b) "moof" then
         match b with
         | MoofBoxRef p => Ok (MkFragment (Prft f) p (Mdat f) (Children f))
         | _ => Panic
         end
       else if String.eqb (Type_ b) "mdat" then
         match b with
         | MdatBoxRef p => Ok (MkFragment (Prft f) (Moof f) p (Children f))
         | _ => Panic
         end
       else Ok f);
  Ok (MkFragment (Prft f) (Moof f) (Mdat f) (Children f ++ [b])).

(** A sequence of [AddChild] calls. *)
Fixpoint AddChildren (f : Fragment) (bs : list Box) : result Fragment :=
  match bs with
  | [] => Ok f
  | b :: bs => f ← AddChild f b; AddChildren f bs
  end.

(** ** Building a fragment *)

Definition lift {A : Type} (r : result A) : M A := fun h =>
  match r with
  | Ok a => Ok (a, h)
  | Err e => Err e
  | Panic => Panic
  end.

(** The boxes inside a [moof], as values of the interface [Box]. *)
Inductive child : Type :=
| MfhdRef (p : ptr)
| TrafRef (p : ptr)
| TfhdRef (p : ptr)
| TfdtRef (p : ptr)
| TrunRef (p : ptr).

(** Modelled from the spec: [MoofBox.AddChild] is not among the sources:
    "children are appended in parse order and fast accessors updated by a
    type-based dispatch"; [Traf] is the first [traf]. *)
Definition MoofAddChild (moof : ptr) (b : child) : M unit :=
  m ← load_moof moof;
  match b with
  | MfhdRef p => store moof (OMoof (MkMoof (StartPos m) p (Traf m) (Trafs m)))
  | TrafRef p =>
      store moof (OMoof (MkMoof (StartPos m) (Mfhd m)
                                (if Traf m is None then p else Traf m)
                                (Trafs m ++ [p])))
  | _ => mret tt
  end.

(** Modelled from the spec: [TrafBox.AddChild] is not among the sources;
    it is the same dispatch, on [tfhd], [tfdt] and [trun], and [Trun] is the
    first [trun]. *)
Definition TrafAddChild (traf : ptr) (b : child) : M unit :=
  t ← load_traf traf;
  match b with
  | TfhdRef p => store traf (OTraf (MkTraf p (Tfdt t) (Trun t) (Truns t)))
  | TfdtRef p => store traf (OTraf (MkTraf (Tfhd t) p (Trun t) (Truns t)))
  | TrunRef p =>
      store traf (OTraf (MkTraf (Tfhd t) (Tfdt t)
                                (if Trun t is None then p else Trun t)
                                (Truns t ++ [p])))
  | _ => mret tt
  end.

(** Modelled from the spec: [CreateMfhd] is not among the sources; it
    gives "an [mfhd(seq)]". *)
Definition CreateMfhd (seqNumber : Z) : M loc := alloc (OMfhd (MkMfhd seqNumber)).

(** Modelled from the spec: [CreateTfhd] is not among the sources; it
    gives a "[tfhd(track_id)]", with no optional field. *)
Definition CreateTfhd (trackID : Z) : M loc :=
  alloc (OTfhd (MkTfhd trackID false 0 false false 0 false 0 false 0)).

(** Modelled from the spec: [CreateTrun] is not among the sources; it
    gives an "empty [trun]".  The run has the data offset and the four
    per-sample fields, which the optimizer of 4.H later sets and clears. *)
Definition emptyTrun : TrunBox := MkTrun true 0 false 0 true true true true [].

Definition CreateTrun : M loc := alloc (OTrun emptyTrun).

(** The [traf] of one track, as both constructors build it. *)
Definition addTrack (moof : loc) (trackID : Z) : M unit :=
  traf ← alloc (OTraf (MkTraf None None None []));
  MoofAddChild (Some moof) (TrafRef (Some traf));;
  tfhd ← CreateTfhd trackID;
  TrafAddChild (Some traf) (TfhdRef (Some tfhd));;
  tfdt ← alloc (OTfdt (MkTfdt 0));
  TrafAddChild (Some traf) (TfdtRef (Some tfdt));;
  trun ← CreateTrun;
  TrafAddChild (Some traf) (TrunRef (Some trun)).

Fixpoint addTracks (moof : loc) (trackIDs : list Z) : M unit :=
  match trackIDs with
  | [] => mret tt
  | trackID :: rest => addTrack moof trackID;; addTracks moof rest
  end.

Definition CreateFragment (seqNumber trackID : Z) : M Fragment :=
  let f := NewFragment in
  moof ← alloc (OMoof (MkMoof 0 None None []));
  f ← lift (AddChild f (MoofBoxRef (Some moof)));
  mfhd ← CreateMfhd seqNumber;
  MoofAddChild (Some moof) (MfhdRef (Some mfhd));;
  addTrack moof trackID;;
  mdat ← alloc (OMdat (MkMdat 0 []));
  f ← lift (AddChild f (MdatBoxRef (Some mdat)));
  mret f.

Definition CreateMultiTrackFragment (seqNumber : Z) (trackIDs : list Z) : M Fragment :=
  let f := NewFragment in
  moof ← alloc (OMoof (MkMoof 0 None None []));
  f ← lift (AddChild f (MoofBoxRef (Some moof)));
  mfhd ← CreateMfhd seqNumber;
  MoofAddChild (Some moof) (MfhdRef (Some mfhd));;
  addTracks moof trackIDs;;
  mdat ← alloc (OMdat (MkMdat 0 []));
  f ← lift (AddChild f (MdatBoxRef (Some mdat)));
  mret f.

(** ** The sample resolver *)

(** Lines 105-113 of [GetFullSamples]: the base offset of a run. *)
Definition runBaseOffset (tfhd : TfhdBox) (moofStartPos : Z) (trun : TrunBox) : Z :=
  let baseOffset := 0 in
  let baseOffset :=
    if HasBaseDataOffset tfhd then BaseDataOffset tfhd
    else if DefaultBaseIfMoof tfhd then moofStartPos
    else baseOffset in
  if HasDataOffset trun
  then uint64 (int64 (int64 (DataOffset trun) + int64 baseOffset))
  else baseOffset.

(** The base offset as the specification words it: "Start with 0.  If
    tfhd.has_base_data_offset, set to tfhd.base_data_offset.  Else if
    tfhd.default_base_is_moof, set to moof.start_pos.  If
    trun.has_data_offset, add trun.data_offset (signed)." *)
Definition spec_base_offset (tfhd : TfhdBox) (moof_start_pos : Z) (trun : TrunBox) : Z :=
  let base := 0 in
  let base :=
    if HasBaseDataOffset tfhd then BaseDataOffset tfhd
    else if DefaultBaseIfMoof tfhd then moof_start_pos
    else base in
  let base := if HasDataOffset trun then base + DataOffset trun else base in
  base.

Section Resolver.

(** [TrunBox.AddSampleDefaultValues] and [TrunBox.GetFullSamples] are
    methods of a box defined elsewhere; the resolver is written over
    them.  The first fills in the samples of the run and returns their
    total duration, the second cuts the samples out of the [mdat]. *)
Variable AddSampleDefaultValues : TrunBox -> TfhdBox -> option TrexBox -> TrunBox * Z.
Variable TrunGetFullSamples : TrunBox -> Z -> Z -> MdatBox -> result (list FullSample).

(** The loop [for _, traf = range moof.Trafs] of [GetFullSamples], with
    its flag [foundTrak]: the matching [traf], if there is one. *)
Fixpoint findTraf (trafs : list ptr) (trackID : Z) : M (option ptr) :=
  match trafs with
  | [] => mret None
  | traf :: rest =>
      t ← load_traf traf;
      tfhd ← load_tfhd (Tfhd t);
      if TrackID tfhd =? trackID then mret (Some traf) else findTraf rest trackID
  end.

(** The loop [for _, trun := range traf.Truns]. *)
Fixpoint trunLoop (tfhd mdat : ptr) (trex : option TrexBox) (moofStartPos : Z)
    (truns : list ptr) (baseTime : Z) (samples : list FullSample)
    : M (list FullSample * option error) :=
  match truns with
  | [] => mret (samples, None)
  | trun :: rest =>
      t ← load_trun trun;
      th ← load_tfhd tfhd;
      let '(t, totalDur) := AddSampleDefaultValues t th trex in
      store trun (OTrun t);;
      let baseOffset := runBaseOffset th moofStartPos t in
      m ← load_mdat mdat;
      let mdatDataLength := uint64 (len (MdatData m)) in
      let offsetInMdat := uint64 (baseOffset - PayloadAbsoluteOffset m) in
      if offsetInMdat >? mdatDataLength
      then mret ([], Some OffsetBeyondMdat)
      else
        more ← lift (TrunGetFullSamples t (uint32 offsetInMdat) baseTime m);
        trunLoop tfhd mdat trex moofStartPos rest
                 (uint64 (baseTime + totalDur)) (samples ++ more)
  end.

(** [GetFullSamples] returns the samples and the error. *)
Definition GetFullSamples (f : Fragment) (trex : option TrexBox)
    : M (list FullSample * option error) :=
  let moof := Moof f in
  let mdat := Mdat f in
  m ← load_moof moof;
  found ← match trex with
          | Some tx => findTraf (Trafs m) (TrexTrackID tx)
          | None => mret (Some (Traf m))
          end;
  match found with
  | None => mret ([], None)
  | Some traf =>
      t ← load_traf traf;
      let tfhd := Tfhd t in
      tfdt ← load_tfdt (Tfdt t);
      let baseTime := BaseMediaDecodeTime tfdt in
      let moofStartPos := StartPos m in
      trunLoop tfhd mdat trex moofStartPos (Truns t) baseTime []
  end.

End Resolver.

(** ** Adding samples *)

(** Modelled from the spec: [TrunBox.SampleCount] is not among the
    sources; "[sample_count: u32]" is the number of samples of the run. *)
Definition SampleCount (t : TrunBox) : Z := uint32 (len (samples t)).

(** Modelled from the spec: [TrunBox.AddSample] is not among the sources;
    the sample is appended to the run ("append to its (current) trun"). *)
Definition AddSample (t : TrunBox) (s : Sample) : TrunBox :=
  MkTrun (HasDataOffset t) (DataOffset t) (HasFirstSampleFlags t) (FirstSampleFlags t)
         (HasSampleDuration t) (HasSampleSize t) (HasSampleFlags t) (HasSampleCTO t)
         (samples t ++ [s]).

(** Modelled from the spec: [TfdtBox.SetBaseMediaDecodeTime] is not among
    the sources; "set [tfdt.base_media_decode_time = sample.decode_time]". *)
Definition SetBaseMediaDecodeTime (t : TfdtBox) (bTime : Z) : TfdtBox := MkTfdt bTime.

(** Modelled from the spec: [MdatBox.AddSampleData] is not among the
    sources; "append [sample.data] to [mdat.data]". *)
Definition AddSampleData (m : MdatBox) (s : list byte) : MdatBox :=
  MkMdat (PayloadAbsoluteOffset m) (MdatData m ++ s).

Definition AddFullSample (f : Fragment) (s : FullSample) : M unit :=
  m ← load_moof (Moof f);
  tr ← load_traf (Traf m);
  let trun := Trun tr in
  t ← load_trun trun;
  (if SampleCount t =? 0 then
     let tfdt := Tfdt tr in
     td ← load_tfdt tfdt;
     store tfdt (OTfdt (SetBaseMediaDecodeTime td (DecodeTime s)))
   else mret tt);;
  t ← load_trun trun;
  store trun (OTrun (AddSample t (sample s)));;
  let mdat := Mdat f in
  md ← load_mdat mdat;
  store mdat (OMdat (AddSampleData md (Data s))).

(** The loop of [AddFullSampleToTrack]: the variable [traf], declared
    outside the loop, is assigned every element in turn; [break] leaves it
    on the match. *)
Fixpoint rangeTrafs (trafs : list ptr) (trackID : Z) (traf : ptr) : M ptr :=
  match trafs with
  | [] => mret traf
  | next :: rest =>
      let traf := next in
      t ← load_traf traf;
      tfhd ← load_tfhd (Tfhd t);
      if TrackID tfhd =? trackID then mret traf else rangeTrafs rest trackID traf
  end.

(** [AddFullSampleToTrack] returns its error. *)
Definition AddFullSampleToTrack (f : Fragment) (s : FullSample) (trackID : Z)
    : M (option error) :=
  m ← load_moof (Moof f);
  traf ← rangeTrafs (Trafs m) trackID None;
  if traf is None then mret (Some (NoTrack trackID))
  else
    (* TODO. Add samples and create truns if necessary *)
    mret None.

(** ** Writing a fragment *)

Section Encoding.

(** [TrafBox.OptimizeTfhdTrun] and the [Encode] methods of the boxes of a
    fragment are defined elsewhere; [Encode] is written over them.  Both
    work on the store, and return their error; the second also returns the
    writer as it left it. *)
Variable OptimizeTfhdTrun : ptr -> M (option error).
Variable EncodeBox : Box -> Writer -> M (Writer * option error).

(** The loop [for _, b := range f.Children]. *)
Fixpoint encodeChildren (children : list Box) (w : Writer) : M (Writer * option error) :=
  match children with
  | [] => mret (w, None)
  | b :: rest =>
      '(w, err) ← EncodeBox b w;
      match err with
      | Some e => mret (w, Some e)
      | None => encodeChildren rest w
      end
  end.

(** [Encode] returns the writer and the error. *)
Definition Encode (f : Fragment) (w : Writer) : M (Writer * option error) :=
  m ← load_moof (Moof f);
  let traf := Traf m in
  err ← OptimizeTfhdTrun traf;
  match err with
  | Some e => mret (w, Some e)
  | None => encodeChildren (Children f) w
  end.

End Encoding.

(** [GetChildren]: the top-level boxes, in order. *)
Definition GetChildren (f : Fragment) : list Box := Children f.

(** ** The methods of [trun] that the resolver calls *)

(** Modelled from the spec: the values of one sample, for
    [TrunBox.AddSampleDefaultValues], which is not among the sources:
    "Resolve each sample's (duration, size, flags, cts_offset) from the
    first present source in this precedence: per-sample fields in this trun
    → tfhd defaults → trex defaults → zero.  For the very first sample,
    first_sample_flags (if present in trun) overrides the flags source";
    scenario S4 has the per-sample flags win over [first_sample_flags]. *)
Definition resolveSample (t : TrunBox) (tfhd : TfhdBox) (trex : option TrexBox)
    (first : bool) (s : Sample) : Sample :=
  let dur :=
    if HasSampleDuration t then Dur s
    else if HasDefaultSampleDuration tfhd then DefaultSampleDuration tfhd
    else from_option TrexDefaultSampleDuration 0 trex in
  let sz :=
    if HasSampleSize t then Size s
    else if HasDefaultSampleSize tfhd then DefaultSampleSize tfhd
    else from_option TrexDefaultSampleSize 0 trex in
  let flags :=
    if HasSampleFlags t then Flags s
    else if (first && HasFirstSampleFlags t)%bool then FirstSampleFlags t
    else if HasDefaultSampleFlags tfhd then DefaultSampleFlags tfhd
    else from_option TrexDefaultSampleFlags 0 trex in
  let cto := if HasSampleCTO t then Cto s else 0 in
  MkSample flags dur sz cto.

(** Modelled from the spec: the values of all the samples of a run, the
    first one apart. *)
Definition resolveSamples (t : TrunBox) (tfhd : TfhdBox) (trex : option TrexBox)
    (ss : list Sample) : list Sample :=
  match ss with
  | [] => []
  | s :: rest =>
      resolveSample t tfhd trex true s :: map (resolveSample t tfhd trex false) rest
  end.

(** Modelled from the spec: [TrunBox.AddSampleDefaultValues] is not among
    the sources; it resolves the samples of the run and returns the total
    duration: "Accumulate [total_duration = Σ duration] for this trun". *)
Definition TrunAddSampleDefaultValues (t : TrunBox) (tfhd : TfhdBox) (trex : option TrexBox)
    : TrunBox * Z :=
  let ss := resolveSamples t tfhd trex (samples t) in
  (MkTrun (HasDataOffset t) (DataOffset t) (HasFirstSampleFlags t) (FirstSampleFlags t)
          (HasSampleDuration t) (HasSampleSize t) (HasSampleFlags t) (HasSampleCTO t) ss,
   fold_left (fun total s => uint64 (total + Dur s)) ss 0).

(** Modelled from the spec: "Produce sample_count FullSamples by walking
    mdat.data starting at offset_in_mdat, consuming size bytes per sample,
    and emitting decode_time = running_base_time, cts_offset attached,
    then advancing running_base_time += duration."  A sample that reaches
    beyond the data is a slice out of range. *)
Fixpoint walkSamples (ss : list Sample) (offset baseTime : Z) (data : list byte)
    : result (list FullSample) :=
  match ss with
  | [] => Ok []
  | s :: rest =>
      if offset + Size s <=? len data then
        more ← walkSamples rest (uint32 (offset + Size s)) (uint64 (baseTime + Dur s)) data;
        Ok (MkFullSample s baseTime
                         (take (Z.to_nat (Size s)) (drop (Z.to_nat offset) data))
              :: more)
      else Panic
  end.

(** Modelled from the spec: [TrunBox.GetFullSamples] is not among the
    sources; it walks the data of the [mdat] from the offset of the run. *)
Definition TrunGetFullSamples (t : TrunBox) (offsetInMdat baseTime : Z) (mdat : MdatBox)
    : result (list FullSample) :=
  walkSamples (samples t) offsetInMdat baseTime (MdatData mdat).

(** ** Notions for the properties of fragments *)

(** Each fast accessor is nil or is the pointer of a box in [Children]. *)
Definition accessors_in_children (f : Fragment) : Prop :=
  (Prft f = None \/ In (PrftBox (Prft f)) (Children f)) /\
  (Moof f = None \/ In (MoofBoxRef (Moof f)) (Children f)) /\
  (Mdat f = None \/ In (MdatBoxRef (Mdat f)) (Children f)).

(** A box whose [Type()] goes with its struct: the opaque carrier of a type
    that has a struct of its own would fail the type assertion. *)
Definition well_typed (b : Box) : Prop :=
  match b with
  | OtherBox typ _ => typ <> "prft"%string /\ typ <> "moof"%string /\ typ <> "mdat"%string
  | _ => True
  end.

(** A pointer to a box of a given kind. *)
Definition points_to (h : heap) (p : ptr) (o : object) : Prop :=
  exists l, p = Some l /\ h !! l = Some o.

(** The fragment that [CreateFragment(7, 1)] builds in an empty store, and
    its boxes. *)
Definition fragment1 : Fragment * heap :=
  Eval vm_compute in
    match CreateFragment 7 1 ∅ with Ok p => p | _ => (NewFragment, ∅) end.

Definition moof1 : MoofBox := MkMoof 0 (Some 2%positive) (Some 3%positive) [Some 3%positive].
Definition traf1 : TrafBox :=
  MkTraf (Some 4%positive) (Some 5%positive) (Some 6%positive) [Some 6%positive].

(** The sample of scenario S2. *)
Definition sample1 : FullSample :=
  MkFullSample (MkSample 0x02000000 0 4 0) 1000 [xde; xad; xbe; xef].

(** Scenario S5: the default base is the [moof], which starts at 0, and the
    run has the data offset 120. *)
Definition tfhdS5 : TfhdBox := MkTfhd 1 false 0 true false 0 false 0 false 0.
Definition trunS5 : TrunBox := MkTrun true 120 false 0 false false false false [].

(** The offset of a run in the data of the [mdat]: the base offset minus
    the absolute offset of the payload. *)
Definition offsetInMdat (th : TfhdBox) (moofStartPos : Z) (t : TrunBox) (m : MdatBox) : Z :=
  uint64 (runBaseOffset th moofStartPos t - PayloadAbsoluteOffset m).

(** No [traf] of the list is of the track. *)
Definition no_traf_of (h : heap) (trackID : Z) (trafs : list ptr) : Prop :=
  Forall (fun traf => exists t th,
            points_to h traf (OTraf t) /\ points_to h (Tfhd t) (OTfhd th) /\
            TrackID th <> trackID) trafs.

(** The loop has come to the run [truns'], with the base time [bt'] and
    the samples [acc'], in the store [h']: every run before it was within
    the data of the [mdat] and gave its samples. *)
Inductive visits
    (AddSampleDefaultValues : TrunBox -> TfhdBox -> option TrexBox -> TrunBox * Z)
    (TrunGetFullSamples : TrunBox -> Z -> Z -> MdatBox -> result (list FullSample))
    (tfhd mdat : ptr) (trex : option TrexBox) (moofStartPos : Z)
  : list ptr -> Z -> list FullSample -> heap ->
    list ptr -> Z -> list FullSample -> heap -> Prop :=
| visits_here (truns : list ptr) (bt : Z) (acc : list FullSample) (h : heap) :
    visits AddSampleDefaultValues TrunGetFullSamples tfhd mdat trex moofStartPos
           truns bt acc h truns bt acc h
| visits_next (l : loc) (rest : list ptr) (bt : Z) (acc : list FullSample) (h : heap)
    (t0 t : TrunBox) (th : TfhdBox) (totalDur : Z) (m : MdatBox) (more : list FullSample)
    (truns' : list ptr) (bt' : Z) (acc' : list FullSample) (h' : heap) :
    points_to h (Some l) (OTrun t0) ->
    points_to h tfhd (OTfhd th) ->
    AddSampleDefaultValues t0 th trex = (t, totalDur) ->
    points_to h mdat (OMdat m) ->
    offsetInMdat th moofStartPos t m <= uint64 (len (MdatData m)) ->
    TrunGetFullSamples t (uint32 (offsetInMdat th moofStartPos t m)) bt m = Ok more ->
    visits AddSampleDefaultValues TrunGetFullSamples tfhd mdat trex moofStartPos
           rest (uint64 (bt + totalDur)) (acc ++ more) (<[l := OTrun t]> h)
           truns' bt' acc' h' ->
    visits AddSampleDefaultValues TrunGetFullSamples tfhd mdat trex moofStartPos
           (Some l :: rest) bt acc h truns' bt' acc' h'.

(** The [traf] that lines 86-98 of [GetFullSamples] select. *)
Definition selected (h : heap) (m : MoofBox) (trex : option TrexBox) (traf : ptr) : Prop :=
  match trex with
  | Some tx => findTraf (Trafs m) (TrexTrackID tx) h = Ok (Some traf, h)
  | None => traf = Traf m
  end.

(** The fragment that [CreateMultiTrackFragment(7, [1, 2])] builds in an
    empty store: two tracks, with IDs 1 and 2. *)
Definition fragment2 : Fragment * heap :=
  Eval vm_compute in
    match CreateMultiTrackFragment 7 [1; 2] ∅ with Ok p => p | _ => (NewFragment, ∅) end.

Definition moof2 : MoofBox :=
  MkMoof 0 (Some 2%positive) (Some 3%positive) [Some 3%positive; Some 7%positive].

(** The fragment of [CreateFragment(7, 1)] with, for its run, the run of
    scenario S5: the data offset is 120 and the [mdat] has no data. *)
Definition heapBeyond : heap :=
  Eval vm_compute in <[6%positive := OTrun trunS5]> fragment1.2.

Definition twoSamples (d1 d2 f1 f2 : Z) : list Sample :=
  [MkSample f1 d1 0 0; MkSample f2 d2 0 0].

(** S6: two runs of two samples, with durations 10, 10, 20, 20, and the
    base time 500. *)
Definition heapS6 : heap :=
  Eval vm_compute in
    <[5%positive := OTfdt (MkTfdt 500)]>
      (<[3%positive := OTraf (MkTraf (Some 4%positive) (Some 5%positive) (Some 6%positive)
                                     [Some 6%positive; Some 8%positive])]>
         (<[6%positive := OTrun (MkTrun false 0 false 0 true false false false
                                        (twoSamples 10 10 0 0))]>
            (<[8%positive := OTrun (MkTrun false 0 false 0 true false false false
                                           (twoSamples 20 20 0 0))]>
               fragment1.2))).

(** The struct of a top-level box. *)
Definition isPrft (b : Box) : bool := match b with PrftBox _ => true | _ => false end.
Definition isMoof (b : Box) : bool := match b with MoofBoxRef _ => true | _ => false end.
Definition isMdat (b : Box) : bool := match b with MdatBoxRef _ => true | _ => false end.

(** The pointer of a box. *)
Definition pointer (b : Box) : ptr :=
  match b with
  | PrftBox p | MoofBoxRef p | MdatBoxRef p | OtherBox _ p => p
  end.

(** The pointer of the last box of [bs] of a given struct, or else [d]. *)
Definition lastPointer (ofType : Box -> bool) (bs : list Box) (d : ptr) : ptr :=
  match find ofType (rev bs) with
  | Some b => pointer b
  | None => d
  end.

(** The [traf] has its [tfhd]. *)
Definition traf_with_tfhd (h : heap) (traf : ptr) : Prop :=
  exists t th, points_to h traf (OTraf t) /\ points_to h (Tfhd t) (OTfhd th).

(** The address of a run. *)
Definition is_trun (h : heap) (l : loc) : Prop := exists t, h !! l = Some (OTrun t).

(** The fragment of [CreateFragment(7, 1)] whose [traf] has no run. *)
Definition heapNoRun : heap :=
  Eval vm_compute in
    <[3%positive := OTraf (MkTraf (Some 4%positive) (Some 5%positive) None [])]> fragment1.2.

(** The fragment of [CreateFragment(7, 1)] with the payload of its [mdat]
    at the offset 8. *)
Definition heapBefore : heap :=
  Eval vm_compute in <[7%positive := OMdat (MkMdat 8 [])]> fragment1.2.

(** What [GetFullSamples] leaves of [heapS6]. *)
Definition heapS6after : heap :=
  Eval vm_compute in
    match GetFullSamples TrunAddSampleDefaultValues TrunGetFullSamples
                         fragment1.1 None heapS6 with
    | Ok (_, h) => h
    | _ => ∅
    end.

Definition resultS6 : list FullSample * option error :=
  Eval vm_compute in
    match GetFullSamples TrunAddSampleDefaultValues TrunGetFullSamples
                         fragment1.1 None heapS6 with
    | Ok (r, _) => r
    | _ => ([], None)
    end.

(** The [traf] of a track as the constructors build it: a [tfhd] with the
    track ID and nothing else, a [tfdt] at 0, and one run, empty. *)
Definition track (h : heap) (traf : ptr) (trackID : Z) : Prop :=
  exists tfhd tfdt trun : loc,
    points_to h traf (OTraf (MkTraf (Some tfhd) (Some tfdt) (Some trun) [Some trun])) /\
    h !! tfhd = Some (OTfhd (MkTfhd trackID false 0 false false 0 false 0 false 0)) /\
    h !! tfdt = Some (OTfdt (MkTfdt 0)) /\
    h !! trun = Some (OTrun emptyTrun).

(** The [traf] of a track, for a user: it has a [tfhd] with the track ID,
    a [tfdt] at 0 and one run, which has no sample. *)
Definition has_track (h : heap) (traf : ptr) (trackID : Z) : Prop :=
  exists (tr : TrafBox) (th : TfhdBox) (t : TrunBox),
    points_to h traf (OTraf tr) /\
    points_to h (Tfhd tr) (OTfhd th) /\ TrackID th = trackID /\
    points_to h (Tfdt tr) (OTfdt (MkTfdt 0)) /\
    points_to h (Trun tr) (OTrun t) /\ Truns tr = [Trun tr] /\ samples t = [].

(** A sequence of [AddFullSample] calls. *)
Fixpoint AddFullSamples (f : Fragment) (ss : list FullSample) : M unit :=
  match ss with
  | [] => mret tt
  | s :: rest => AddFullSample f s;; AddFullSamples f rest
  end.

(** A run with other samples. *)
Definition withSamples (t : TrunBox) (ss : list Sample) : TrunBox :=
  MkTrun (HasDataOffset t) (DataOffset t) (HasFirstSampleFlags t) (FirstSampleFlags t)
         (HasSampleDuration t) (HasSampleSize t) (HasSampleFlags t) (HasSampleCTO t) ss.

(** The boxes of [h] are in [h'] as they are, but for the one at [lm]. *)
Definition extends (lm : loc) (h h' : heap) : Prop :=
  forall (l : loc) (o : object), l <> lm -> h !! l = Some o -> h' !! l = Some o.

(** [moof.Traf] once the [traf]s [trafs] have been added: the first one
    added stays. *)
Definition firstTraf (first : ptr) (trafs : list ptr) : ptr :=
  match first, trafs with
  | None, p :: _ => p
  | _, _ => first
  end.

(** The samples follow one another from the time [bt]: each one is decoded
    when the one before it ends. *)
Fixpoint chain (bt : Z) (ss : list FullSample) : Prop :=
  match ss with
  | [] => True
  | s :: rest => DecodeTime s = bt /\ chain (uint64 (bt + Dur (sample s))) rest
  end.

Definition consecutive (ss : list FullSample) : Prop :=
  match ss with
  | [] => True
  | s :: _ => chain (DecodeTime s) ss
  end.

(** The time at which the last of the samples ends, from [bt] on. *)
Definition endTime (bt : Z) (ss : list FullSample) : Z :=
  fold_left (fun t s => uint64 (t + Dur (sample s))) ss bt.

(** A sequence of [AddChild] calls on a [moof]. *)
Fixpoint MoofAddChildren (moof : ptr) (bs : list child) : M unit :=
  match bs with
  | [] => mret tt
  | b :: rest => MoofAddChild moof b;; MoofAddChildren moof rest
  end.

(** A [moof] box as [AddChild] calls fill it: a new [MoofBox], whatever
    its start position, to which boxes were added. *)
Definition filled (m : MoofBox) : Prop :=
  exists (lm : loc) (sp : Z) (bs : list child) (h0 h1 : heap),
    h0 !! lm = Some (OMoof (MkMoof sp None None [])) /\
    MoofAddChildren (Some lm) bs h0 = Ok (tt, h1) /\
    h1 !! lm = Some (OMoof m).

(** The first pointer of a list that is not nil, and nil when there is
    none. *)
Fixpoint firstNonNil (ps : list ptr) : ptr :=
  match ps with
  | [] => None
  | Some l :: _ => Some l
  | None :: rest => firstNonNil rest
  end.

(** The fragment of [CreateMultiTrackFragment(7, [1, 2])] with one sample
    of two bytes in the run of track 1, one sample of one byte in the run
    of track 2, which starts at the offset 2, and their three bytes in the
    [mdat]. *)
Definition heapTracks : heap :=
  Eval vm_compute in
    <[6%positive := OTrun (withSamples emptyTrun [MkSample 0 10 2 0])]>
      (<[10%positive := OTrun (MkTrun true 2 false 0 true true true true [MkSample 0 20 1 0])]>
         (<[11%positive := OMdat (MkMdat 0 [x01; x02; x03])]> fragment2.2)).

End Fragment.

(** * Properties *)

(** ** Bytes and machine integers *)

Lemma byte_to_Z_range (b : byte) : 0 <= byte_to_Z b < 256.
Proof.
  unfold byte_to_Z. pose proof (Byte.to_N_bounded b). lia.
Qed.

Lemma byte_of_to_Z (b : byte) : byte_of_Z (byte_to_Z b) = b.
Proof.
  unfold byte_of_Z. rewrite Z.mod_small by apply byte_to_Z_range.
  unfold byte_to_Z. rewrite N2Z.id, Byte.of_to_N. reflexivity.
Qed.

Lemma byte_of_Z_mod (z : Z) : byte_of_Z (z mod 256) = byte_of_Z z.
Proof. unfold byte_of_Z. rewrite Z.mod_mod by lia. reflexivity. Qed.

Lemma be_value_4 (a b c d : byte) :
  be_value 0 [a; b; c; d] =
  ((byte_to_Z a * 256 + byte_to_Z b) * 256 + byte_to_Z c) * 256 + byte_to_Z d.
Proof. reflexivity. Qed.

Lemma be_value_4_range (a b c d : byte) : 0 <= be_value 0 [a; b; c; d] <= maxUint32.
Proof.
  rewrite be_value_4. unfold maxUint32.
  pose proof (byte_to_Z_range a). pose proof (byte_to_Z_range b).
  pose proof (byte_to_Z_range c). pose proof (byte_to_Z_range d). lia.
Qed.

(** Storing what was loaded gives the four bytes back. *)
Lemma PutUint32_be_value (a b c d : byte) :
  PutUint32 (be_value 0 [a; b; c; d]) = [a; b; c; d].
Proof.
  rewrite be_value_4. unfold PutUint32.
  pose proof (byte_to_Z_range a) as Ha. pose proof (byte_to_Z_range b) as Hb.
  pose proof (byte_to_Z_range c) as Hc. pose proof (byte_to_Z_range d) as Hd.
  set (A := byte_to_Z a) in *. set (B := byte_to_Z b) in *.
  set (C := byte_to_Z c) in *. set (D := byte_to_Z d) in *.
  change (2 ^ 24) with 16777216. change (2 ^ 16) with 65536. change (2 ^ 8) with 256.
  rewrite <- (byte_of_to_Z a), <- (byte_of_to_Z b), <- (byte_of_to_Z c), <- (byte_of_to_Z d).
  fold A B C D.
  rewrite <- (byte_of_Z_mod (_ / 16777216)), <- (byte_of_Z_mod (_ / 65536)),
          <- (byte_of_Z_mod (_ / 256)), <- (byte_of_Z_mod (((A * 256 + B) * 256 + C) * 256 + D)).
  repeat f_equal; Z.div_mod_to_equations; lia.
Qed.

Lemma length_PutUint32 (v : Z) : length (PutUint32 v) = 4%nat.
Proof. reflexivity. Qed.

Lemma length_PutUint64 (v : Z) : length (PutUint64 v) = 8%nat.
Proof. reflexivity. Qed.

Lemma uint64_add_l (a b : Z) : uint64 (uint64 a + b) = uint64 (a + b).
Proof. unfold uint64. apply Zplus_mod_idemp_l. Qed.

Lemma uint64_small (a : Z) : 0 <= a < 2 ^ 64 -> uint64 a = a.
Proof. intros H. unfold uint64. apply Z.mod_small. exact H. Qed.

Lemma uint64_range (a : Z) : 0 <= uint64 a < 2 ^ 64.
Proof. unfold uint64. apply Z.mod_pos_bound. lia. Qed.

Lemma uint64_le (a : Z) : 0 <= a -> uint64 a <= a.
Proof. intros H. unfold uint64. apply Z.mod_le; lia. Qed.

Lemma len_app {A : Type} (l k : list A) : len (l ++ k) = len l + len k.
Proof. unfold len. rewrite length_app. lia. Qed.

Lemma len_nonneg {A : Type} (l : list A) : 0 <= len l.
Proof. unfold len. lia. Qed.

(** Taking a monadic step apart. *)
Ltac inv_bind H :=
  match type of H with
  | mbind _ ?m = Ok _ =>
      let E := fresh "E" in
      destruct m eqn:E;
      [ cbn [mbind result_bind] in H
      | cbn [mbind result_bind] in H; discriminate H
      | cbn [mbind result_bind] in H; discriminate H ]
  end.

(** ** The box codec *)

Module BoxFacts.
Import Boxes.

(** *** What the writers do *)

Lemma Write_written (w w' : Writer) (p : list byte) :
  Write w p = Ok w' -> written w' = written w ++ p.
Proof.
  unfold Write. destruct (room w) as [n|].
  - destruct (length p <=? n)%nat; [|discriminate]. intros [= <-]. reflexivity.
  - intros [= <-]. reflexivity.
Qed.

Lemma Write_unlimited (w : Writer) (p : list byte) :
  room w = None -> Write w p = Ok (MkWriter (written w ++ p) None).
Proof. unfold Write. intros ->. reflexivity. Qed.

Lemma length_fourcc (typ : list byte) : length (fourcc typ) = 4%nat.
Proof.
  unfold fourcc. rewrite length_take, length_app, repeat_length. lia.
Qed.

Lemma len_header_bytes (sz : Z) (typ : list byte) :
  len (header_bytes sz typ) = if sz >? maxUint32 then 16 else 8.
Proof.
  unfold header_bytes, len. destruct (sz >? maxUint32);
    rewrite ?length_app, ?length_fourcc, ?length_PutUint32, ?length_PutUint64; reflexivity.
Qed.

Lemma put_ok (s s' : SliceWriter) (p : list byte) :
  put s p = Ok s' ->
  wpos s' = (wpos s + length p)%nat /\
  length (wbuf s') = length (wbuf s) /\
  (wpos s' <= length (wbuf s'))%nat.
Proof.
  unfold put. destruct (wpos s + length p <=? length (wbuf s))%nat eqn:E; [|discriminate].
  apply Nat.leb_le in E. intros [= <-]. cbn [wpos wbuf].
  rewrite !length_app, length_take, length_drop. lia.
Qed.

(** *** Sizes *)

Lemma fold_sizes_range (cs : list Box) (a : Z) :
  0 <= a < 2 ^ 64 ->
  0 <= fold_left (fun totalSize child => uint64 (totalSize + Size child)) cs a < 2 ^ 64.
Proof.
  revert a. induction cs as [|c cs IH]; intros a Ha; cbn [fold_left]; [exact Ha|].
  apply IH, uint64_range.
Qed.

Lemma Size_range (b : Box) : 0 <= Size b < 2 ^ 64.
Proof.
  destruct b; cbn [Size]; try apply uint64_range; apply fold_sizes_range, uint64_range.
Qed.

Lemma sum_sizes_nonneg (cs : list Box) : 0 <= sum_sizes cs.
Proof.
  induction cs as [|c cs IH]; cbn [sum_sizes]; [lia|].
  pose proof (Size_range c). lia.
Qed.

Lemma fold_sizes (cs : list Box) (a : Z) :
  fold_left (fun totalSize child => uint64 (totalSize + Size child)) cs (uint64 a)
  = uint64 (a + sum_sizes cs).
Proof.
  revert a. induction cs as [|c cs IH]; intros a; cbn [fold_left sum_sizes].
  - f_equal. lia.
  - rewrite uint64_add_l, IH. f_equal. lia.
Qed.

Lemma Size_Wvtt (vttC vlab : option Box) (cs : list Box) (dri : Z) :
  Size (WvttBox vttC vlab cs dri) = uint64 (nrWvttBytesBeforeChildren + sum_sizes cs).
Proof. cbn [Size]. apply fold_sizes. Qed.

Lemma Size_Vttc (vsid iden ctim sttg payl : option Box) (cs : list Box) :
  Size (VttcBox vsid iden ctim sttg payl cs) = uint64 (boxHeaderSize + sum_sizes cs).
Proof. cbn [Size]. apply fold_sizes. Qed.

(** *** What [Encode] writes *)

Lemma Encode_Wvtt (vttC vlab : option Box) (cs : list Box) (dri : Z) (w : Writer) :
  Encode (WvttBox vttC vlab cs dri) w =
  let b := WvttBox vttC vlab cs dri in
  w ← EncodeHeader (Size b) (Type_ b) w;
  sw ← WriteZeroBytes (NewSliceWriter (makebuf b)) 6;
  sw ← WriteUint16 sw dri;
  w ← Write w (take (wpos sw) (wbuf sw));
  encodeChildren cs w.
Proof. reflexivity. Qed.

Lemma Encode_Vttc (vsid iden ctim sttg payl : option Box) (cs : list Box) (w : Writer) :
  Encode (VttcBox vsid iden ctim sttg payl cs) w =
  let b := VttcBox vsid iden ctim sttg payl cs in
  w ← EncodeHeader (Size b) (Type_ b) w; encodeChildren cs w.
Proof. reflexivity. Qed.

Lemma Encode_Nmhd (version flags : Z) (w : Writer) :
  Encode (NmhdBox version flags) w =
  let b := NmhdBox version flags in
  w ← EncodeHeader (Size b) (Type_ b) w;
  sw ← WriteUint32 (NewSliceWriter (makebuf b))
        (uint32 (uint32 (Z.shiftl version 24) + flags));
  Write w (wbuf sw).
Proof. reflexivity. Qed.

Lemma EncodeHeader_written (sz : Z) (typ : list byte) (w w' : Writer) :
  EncodeHeader sz typ w = Ok w' -> written w' = written w ++ header_bytes sz typ.
Proof. apply Write_written. Qed.

Lemma encodeWith_agrees (b : Box) (payload : list byte) (w w' : Writer) :
  Size b = uint64 (boxHeaderSize + len payload) ->
  encodeWith b payload w = Ok w' ->
  exists out, written w' = written w ++ out /\
              (len out <= maxUint32 -> len out = Size b).
Proof.
  intros HS H. unfold encodeWith in H. inv_bind H.
  apply EncodeHeader_written in E. apply Write_written in H.
  exists (header_bytes (Size b) (Type_ b) ++ payload). split.
  - rewrite H, E, <- app_assoc. reflexivity.
  - rewrite len_app, len_header_bytes. intros Hle.
    pose proof (len_nonneg payload) as Hp. unfold boxHeaderSize, maxUint32 in *.
    assert (Hsmall : Size b = 8 + len payload).
    { rewrite HS. apply uint64_small. destruct (Size b >? 4294967295); lia. }
    destruct (Size b >? 4294967295) eqn:Hbig; lia.
Qed.

Lemma encodeChildren_out (cs : list Box) :
  Forall agrees cs ->
  forall w w', encodeChildren cs w = Ok w' ->
    exists out, written w' = written w ++ out /\
                (len out <= maxUint32 -> len out = sum_sizes cs).
Proof.
  induction 1 as [|c cs Hc _ IH]; intros w w' H; cbn [encodeChildren] in H.
  - injection H as <-. exists []. split; [by rewrite app_nil_r | reflexivity].
  - inv_bind H. destruct (Hc _ _ E) as (o1 & E1 & L1).
    destruct (IH _ _ H) as (o2 & E2 & L2).
    exists (o1 ++ o2). split.
    + rewrite E2, E1, <- app_assoc. reflexivity.
    + rewrite len_app. intros Hle. cbn [sum_sizes].
      pose proof (len_nonneg o1). pose proof (len_nonneg o2).
      rewrite L1, L2 by lia. reflexivity.
Qed.

Lemma agrees_all (b : Box) : agrees b.
Proof.
  induction b as [b IH] using Box_children_ind. unfold agrees. intros w w' H.
  destruct b; cbn [children] in IH;
    try match type of H with
        | Encode (UnknownBox ?n ?t) _ = _ =>
            exact (encodeWith_agrees (UnknownBox n t) t w w' eq_refl H)
        | Encode (?c ?t) _ = _ => exact (encodeWith_agrees (c t) t w w' eq_refl H)
        end.
  - (* nmhd *)
    rewrite Encode_Nmhd in H. cbv zeta in H. inv_bind H. inv_bind H.
    apply EncodeHeader_written in E. apply Write_written in H.
    apply put_ok in E0 as (_ & Hlen & _).
    exists (header_bytes (Size (NmhdBox Version Flags)) (Type_ (NmhdBox Version Flags))
              ++ wbuf a0). split.
    + rewrite H, E, <- app_assoc. reflexivity.
    + intros _. rewrite len_app, len_header_bytes. unfold len. rewrite Hlen. reflexivity.
  - (* wvtt *)
    rewrite Encode_Wvtt in H. cbv zeta in H.
    set (b := WvttBox VttC Vlab Children DataReferenceIndex) in *.
    inv_bind H. inv_bind H. inv_bind H. inv_bind H.
    apply EncodeHeader_written in E. apply Write_written in E2.
    apply put_ok in E0 as (P0 & L0 & _). apply put_ok in E1 as (P1 & L1 & B1).
    destruct (encodeChildren_out _ IH _ _ H) as (outs & Eo & Lo).
    exists (header_bytes (Size b) (Type_ b) ++ take (wpos a1) (wbuf a1) ++ outs). split.
    + rewrite Eo, E2, E, <- !app_assoc. reflexivity.
    + assert (H8 : len (take (wpos a1) (wbuf a1)) = 8).
      { unfold len. rewrite length_take. rewrite P1, P0 in *.
        cbn [NewSliceWriter wpos PutUint16 length repeat] in *. lia. }
      rewrite !len_app, len_header_bytes, H8.
      intros Hle. pose proof (len_nonneg outs) as Hn.
      pose proof (sum_sizes_nonneg Children) as Hs.
      unfold b in *. rewrite Size_Wvtt in *.
      unfold nrWvttBytesBeforeChildren, maxUint32 in *.
      assert (Hl : len outs = sum_sizes Children).
      { apply Lo. destruct (uint64 (16 + sum_sizes Children) >? 4294967295); lia. }
      assert (Hsmall : uint64 (16 + sum_sizes Children) = 16 + sum_sizes Children).
      { apply uint64_small. destruct (uint64 (16 + sum_sizes Children) >? 4294967295); lia. }
      rewrite Hsmall in *.
      destruct (16 + sum_sizes Children >? 4294967295) eqn:Hbig; lia.
  - (* vtte *)
    apply EncodeHeader_written in H.
    exists (header_bytes (Size VtteBox) (Type_ VtteBox)). split; [exact H|].
    intros _. rewrite len_header_bytes. reflexivity.
  - (* vttc *)
    rewrite Encode_Vttc in H. cbv zeta in H.
    set (b := VttcBox Vsid Iden Ctim Sttg Payl Children) in *.
    inv_bind H. apply EncodeHeader_written in E.
    destruct (encodeChildren_out _ IH _ _ H) as (outs & Eo & Lo).
    exists (header_bytes (Size b) (Type_ b) ++ outs). split.
    + rewrite Eo, E, <- !app_assoc. reflexivity.
    + rewrite !len_app, len_header_bytes.
      intros Hle. pose proof (len_nonneg outs) as Hn.
      pose proof (sum_sizes_nonneg Children) as Hs.
      unfold b in *. rewrite Size_Vttc in *.
      unfold boxHeaderSize, maxUint32 in *.
      assert (Hl : len outs = sum_sizes Children).
      { apply Lo. destruct (uint64 (8 + sum_sizes Children) >? 4294967295); lia. }
      assert (Hsmall : uint64 (8 + sum_sizes Children) = 8 + sum_sizes Children).
      { apply uint64_small. destruct (uint64 (8 + sum_sizes Children) >? 4294967295); lia. }
      rewrite Hsmall in *.
      destruct (8 + sum_sizes Children >? 4294967295) eqn:Hbig; lia.
  - (* vsid *)
    exact (encodeWith_agrees (VsidBox SourceID) (PutUint32 SourceID) w w' eq_refl H).
Qed.

Lemma Encode_text (b : Box) (payload : list byte) (w : Writer) :
  room w = None ->
  encodeWith b payload w =
  Ok (MkWriter (written w ++ header_bytes (Size b) (Type_ b) ++ payload) None).
Proof.
  intros Hroom. unfold encodeWith, EncodeHeader. rewrite (Write_unlimited _ _ Hroom).
  cbn [mbind result_bind]. rewrite Write_unlimited by reflexivity.
  cbn [written]. rewrite <- app_assoc. reflexivity.
Qed.

(** A text box whose text takes the size past 2^32 - 1: the header is the
    16-byte one, and [Size()] still counts 8 bytes for it. *)
Lemma Encode_large_text (config : list byte) :
  len config = 4294967288 ->
  exists w', Encode (VttCBox config) new_writer = Ok w' /\
             len (written w') = 4294967304 /\
             Size (VttCBox config) = 4294967296 /\
             take 16 (written w') = PutUint32 1 ++ str "vttC" ++ PutUint64 4294967296.
Proof.
  intros Hlen.
  assert (HS : Size (VttCBox config) = 4294967296).
  { cbn [Size]. rewrite Hlen. reflexivity. }
  eexists. split; [|split; [|split; [exact HS|]]].
  - change (Encode (VttCBox config) new_writer)
      with (encodeWith (VttCBox config) config new_writer).
    apply Encode_text. reflexivity.
  - cbn [written]. rewrite !len_app, len_header_bytes, HS, Hlen. reflexivity.
  - cbn [written new_writer app]. rewrite HS. reflexivity.
Qed.

(** X26.  A successful [Encode] appends its output to what the writer
    holds, and whenever that output is at most 2^32 - 1 bytes long it is
    exactly [Size()] bytes long.  This holds for every box of [wvtt.go],
    for [nmhd] and for the opaque carrier, containers with any children
    included. *)
Theorem Encode_writes_Size (b : Box) (w w' : Writer) :
  Encode b w = Ok w' ->
  exists out, written w' = written w ++ out /\
              (len out <= maxUint32 -> len out = Size b).
Proof. apply agrees_all. Qed.

Lemma Encode_writes_Size_witness :
  exists out, written sampleWritten = written new_writer ++ out /\
              (len out <= maxUint32 -> len out = Size sampleWvtt).
Proof.
  apply (Encode_writes_Size sampleWvtt new_writer sampleWritten). vm_compute. reflexivity.
Defined.

Lemma len_hugeConfig : len hugeConfig = 4294967288.
Proof. unfold hugeConfig, len. rewrite repeat_length. apply Z2Nat.id. lia. Qed.


(** *** [DecodeVsid] on a short payload *)

(** The buffer of [ReadAll] has room for four bytes whatever the reader
    held: the slice expression [data[0:4]] is in range. *)
Lemma ReadAll_window (r : Reader) :
  reslice (ReadAll r).1.2 0 4 =
  Ok (Slice (avail r ++ repeat x00 (MinRead - length (avail r))) 4).
Proof.
  unfold ReadAll, reslice, cap. cbn [fst snd backing drop].
  assert (H : ((0 <=? 4) &&
               (4 <=? length (avail r ++ repeat x00 (MinRead - length (avail r)))))%nat
              = true).
  { apply andb_true_iff. split; apply Nat.leb_le; [lia|].
    rewrite length_app, repeat_length. unfold MinRead. lia. }
  rewrite H. reflexivity.
Qed.

Lemma take4_padded (l : list byte) (n : nat) :
  (4 <= length l + n)%nat -> length (take 4 (l ++ repeat x00 n)) = 4%nat.
Proof. intros H. rewrite length_take, length_app, repeat_length. lia. Qed.

Lemma take4_short (l : list byte) (n : nat) :
  (4 <= n)%nat -> take 4 (l ++ repeat x00 n) = take 4 (l ++ repeat x00 4).
Proof.
  intros H. replace n with (4 + (n - 4))%nat by lia.
  rewrite repeat_app, app_assoc.
  rewrite (take_app_le (l ++ repeat x00 4)); [reflexivity|].
  rewrite length_app, repeat_length. lia.
Qed.

(** C9 (as amended).  Whatever the payload, and so for a payload shorter
    than 4 bytes, [DecodeVsid] on a reader without fault returns a box: no
    panic and no error.  [data[0:4]] reaches into the spare capacity of
    the buffer that [ReadAll] returned, and [SourceID] is read from the
    payload followed by the zero bytes of that buffer. *)
Theorem DecodeVsid_short_payload (hdr : boxHeader) (startPos : Z) (r : Reader) :
  (length (avail r) < 4)%nat ->
  fault r = None ->
  DecodeVsid hdr startPos r =
  Ok (VsidBox (be_value 0 (take 4 (avail r ++ repeat x00 4))), MkReader [] None).
Proof.
  intros Hshort Hfault. unfold DecodeVsid.
  pose proof (ReadAll_window r) as Hw. unfold ReadAll in *. cbn [fst snd] in Hw.
  rewrite Hfault. rewrite Hw. cbn [mbind result_bind]. unfold Uint32, bytes.
  cbn [slen backing].
  assert (H4 : (4 <= length (avail r) + (MinRead - length (avail r)))%nat)
    by (unfold MinRead; lia).
  rewrite (take4_padded _ _ H4). cbn [Nat.ltb Nat.leb mbind result_bind].
  rewrite take_take, Nat.min_id.
  rewrite take4_short by (unfold MinRead; lia). reflexivity.
Qed.

Lemma DecodeVsid_short_payload_witness :
  DecodeVsid (MkHeader (str "vsid") 10 None) 0 (reader_of [xaa; xbb]) =
  Ok (VsidBox (be_value 0 (take 4 (avail (reader_of [xaa; xbb]) ++ repeat x00 4))),
      MkReader [] None).
Proof.
  apply (DecodeVsid_short_payload (MkHeader (str "vsid") 10 None) 0 (reader_of [xaa; xbb])).
  - simpl. lia.
  - reflexivity.
Defined.

(** C9, as stated, fails: on the two-byte payload [aa bb], [DecodeVsid]
    returns the box with [SourceID] 0xaabb0000 instead of panicking. *)
Lemma DecodeVsid_counterexample :
  DecodeVsid (MkHeader (str "vsid") 10 None) 0 (reader_of [xaa; xbb]) =
    Ok (VsidBox 0xaabb0000, MkReader [] None) /\
  DecodeVsid (MkHeader (str "vsid") 10 None) 0 (reader_of [xaa; xbb]) <> Panic.
Proof. split; [vm_compute; reflexivity | vm_compute; discriminate]. Qed.

(** *** Decoding then encoding a leaf box *)

Lemma Encode_leaf (b : Box) (w : Writer) :
  leaf b = true -> room w = None ->
  Encode b w = Ok (MkWriter (written w ++ header_bytes (Size b) (Type_ b) ++ body b) None).
Proof.
  intros Hleaf Hroom.
  destruct b; try discriminate Hleaf;
    try match goal with
        | |- Encode (UnknownBox ?n ?t) _ = _ =>
            exact (Encode_text (UnknownBox n t) t w Hroom)
        | |- Encode (?c ?t) _ = _ => exact (Encode_text (c t) t w Hroom)
        end.
  - (* nmhd *)
    rewrite Encode_Nmhd. cbv zeta. unfold EncodeHeader.
    rewrite (Write_unlimited _ _ Hroom). cbn [mbind result_bind].
    change (WriteUint32 (NewSliceWriter (makebuf (NmhdBox Version Flags)))
              (uint32 (uint32 (Z.shiftl Version 24) + Flags)))
      with (Ok (MkSliceWriter (body (NmhdBox Version Flags)) 4)).
    cbn [mbind result_bind wbuf]. rewrite Write_unlimited by reflexivity.
    cbn [written]. rewrite <- app_assoc. reflexivity.
  - (* vtte *)
    cbn [Encode body]. unfold EncodeHeader. rewrite (Write_unlimited _ _ Hroom).
    rewrite app_nil_r. reflexivity.
  - (* vsid *)
    exact (Encode_text (VsidBox SourceID) (PutUint32 SourceID) w Hroom).
Qed.

Lemma encode_leaf (b : Box) :
  leaf b = true -> encode b = Ok (header_bytes (Size b) (Type_ b) ++ body b).
Proof.
  intros Hleaf. unfold encode. rewrite (Encode_leaf b new_writer Hleaf eq_refl).
  reflexivity.
Qed.

(** The version and the flags of an [nmhd], put together again. *)
Lemma nmhd_word (v : Z) :
  0 <= v <= maxUint32 ->
  uint32 (uint32 (Z.shiftl (uint8 (Z.shiftr v 24)) 24) + Z.land v flagsMask) = v.
Proof.
  intros Hv. unfold maxUint32 in Hv.
  rewrite Z.shiftr_div_pow2, Z.shiftl_mul_pow2 by lia.
  change flagsMask with (Z.ones 24). rewrite Z.land_ones by lia.
  unfold uint32, uint8.
  change (2 ^ 24) with 16777216. change (2 ^ 8) with 256. change (2 ^ 32) with 4294967296.
  Z.div_mod_to_equations. lia.
Qed.

Lemma readN_ok (n : nat) (r r' : Reader) (buf : list byte) :
  readN n r = Some (buf, r') ->
  avail r = buf ++ avail r' /\ length buf = n /\ fault r' = fault r.
Proof.
  unfold readN. destruct (n <=? length (avail r))%nat eqn:E; [|discriminate].
  apply Nat.leb_le in E. intros [= <- <-]. cbn [avail fault].
  rewrite take_drop, length_take. repeat split; lia.
Qed.

(** What a successful [decodeHeader] took from the reader. *)
Lemma decodeHeader_ok (r r' : Reader) (hdr : boxHeader) (hl : Z) :
  decodeHeader r = Ok (hdr, hl, r') ->
  len (avail r) = hl + len (avail r') /\
  fault r' = fault r /\
  length (name hdr) = 4%nat /\
  (size hdr = 0 \/ hl <= size hdr) /\
  ((hl = 8 /\ avail r = PutUint32 (size hdr) ++ name hdr ++ avail r' /\
    0 <= size hdr <= maxUint32) \/ 16 <= hl).
Proof.
  unfold decodeHeader. destruct (avail r) eqn:Ha; [discriminate|]. rewrite <- Ha. clear Ha.
  destruct (readN 8 r) as [[buf r1]|] eqn:E1; [|discriminate].
  apply readN_ok in E1 as (A1 & L1 & F1).
  destruct buf as [|s0 [|s1 [|s2 [|s3 [|t0 [|t1 [|t2 [|t3 [|? ?]]]]]]]]];
    try discriminate L1. clear L1.
  cbn [take drop]. intros H. inv_bind H. destruct a as [[sz hl1] r2].
  inv_bind H. destruct a as [[u hl2] r3].
  destruct (negb (sz =? 0) && (sz <? hl2))%bool eqn:Hchk; [discriminate|].
  injection H as <- <- <-. cbn [name size].
  assert (Hchk' : sz = 0 \/ hl2 <= sz).
  { destruct (sz =? 0) eqn:Hz; [left; lia | right].
    cbn [negb andb] in Hchk. lia. }
  clear Hchk.
  assert (Hfirst :
    (sz = be_value 0 [s0; s1; s2; s3] /\ hl1 = 8 /\ r2 = r1) \/
    (hl1 = 16 /\ len (avail r1) = 8 + len (avail r2) /\ fault r2 = fault r1)).
  { revert E. destruct (be_value 0 [s0; s1; s2; s3] =? 1); intros E.
    - right. destruct (readN 8 r1) as [[buf2 r2']|] eqn:E2; [|discriminate].
      apply readN_ok in E2 as (A2 & L2 & F2). injection E as <- <- <-.
      rewrite A2, len_app. unfold len. rewrite L2. auto.
    - left. injection E as <- <- <-. auto. }
  assert (Hsecond :
    (hl2 = hl1 /\ r3 = r2) \/
    (hl2 = hl1 + 16 /\ len (avail r2) = 16 + len (avail r3) /\ fault r3 = fault r2)).
  { revert E0. destruct (decide ([t0; t1; t2; t3] = str "uuid")); intros E0.
    - right. destruct (readN 16 r2) as [[buf3 r3']|] eqn:E3; [|discriminate].
      apply readN_ok in E3 as (A3 & L3 & F3). injection E0 as <- <- <-.
      rewrite A3, len_app. unfold len. rewrite L3. auto.
    - left. injection E0 as <- <- <-. auto. }
  clear E E0.
  assert (Hlen1 : len (avail r) = 8 + len (avail r1)).
  { rewrite A1, len_app. reflexivity. }
  pose proof (be_value_4_range s0 s1 s2 s3) as Hrange.
  destruct Hfirst as [(-> & -> & ->) | (-> & Hl2 & Hf2)];
    destruct Hsecond as [(-> & ->) | (-> & Hl3 & Hf3)];
    (split; [lia|]); (split; [congruence|]); (split; [reflexivity|]);
    (split; [exact Hchk'|]); try (right; lia).
  left. split; [reflexivity|]. split; [|exact Hrange].
  rewrite A1, PutUint32_be_value. reflexivity.
Qed.

Lemma fourcc_id (t : list byte) : length t = 4%nat -> fourcc t = t.
Proof.
  intros H. unfold fourcc. rewrite take_app_le by lia. apply take_ge. lia.
Qed.

Lemma bytes_ReadAll (r : Reader) : bytes (ReadAll r).1.2 = avail r.
Proof.
  unfold ReadAll, bytes. cbn [fst snd slen backing]. apply take_app_length.
Qed.

Lemma decodeText_ok (mk : list byte -> Box) (hdr : boxHeader) (startPos : Z)
    (payload : list byte) :
  decodeText mk hdr startPos (MkReader payload None) = Ok (mk payload, MkReader [] None).
Proof.
  unfold decodeText. pose proof (bytes_ReadAll (MkReader payload None)) as Hb.
  unfold ReadAll in *. cbn [fst snd avail fault] in *. rewrite Hb. reflexivity.
Qed.

Lemma DecodeUnknown_ok (hdr : boxHeader) (startPos : Z) (payload : list byte) :
  DecodeUnknown hdr startPos (MkReader payload None)
  = Ok (UnknownBox (name hdr) payload, MkReader [] None).
Proof.
  unfold DecodeUnknown. pose proof (bytes_ReadAll (MkReader payload None)) as Hb.
  unfold ReadAll in *. cbn [fst snd avail fault] in *. rewrite Hb. reflexivity.
Qed.

Lemma DecodeNmhd_shape (hdr : boxHeader) (startPos : Z) (r r' : Reader) (b : Box) :
  DecodeNmhd hdr startPos r = Ok (b, r') -> exists version flags, b = NmhdBox version flags.
Proof.
  unfold DecodeNmhd, ReadAll. intros H.
  destruct (fault r) as [[]|]; try discriminate H.
  all: inv_bind H; destruct a as [v s]; injection H as <- _; eauto.
Qed.

Lemma DecodeNmhd_4 (hdr : boxHeader) (startPos : Z) (a b c d : byte) :
  DecodeNmhd hdr startPos (MkReader [a; b; c; d] None) =
  Ok (NmhdBox (uint8 (Z.shiftr (be_value 0 [a; b; c; d]) 24))
              (Z.land (be_value 0 [a; b; c; d]) flagsMask),
      MkReader [] None).
Proof. reflexivity. Qed.

Lemma DecodeVsid_shape (hdr : boxHeader) (startPos : Z) (r r' : Reader) (b : Box) :
  DecodeVsid hdr startPos r = Ok (b, r') -> exists sourceID, b = VsidBox sourceID.
Proof.
  unfold DecodeVsid, ReadAll. intros H.
  destruct (fault r) as [[]|]; try discriminate H.
  all: inv_bind H; inv_bind H; injection H as <- _; eauto.
Qed.

Lemma DecodeVsid_4 (hdr : boxHeader) (startPos : Z) (a b c d : byte) :
  DecodeVsid hdr startPos (MkReader [a; b; c; d] None) =
  Ok (VsidBox (be_value 0 [a; b; c; d]), MkReader [] None).
Proof. reflexivity. Qed.

(** The decoders of the containers return containers. *)
Lemma AddChild_container (w box : Box) : leaf w = false -> leaf (AddChild w box) = false.
Proof. destruct w; try discriminate; intros _; destruct box; reflexivity. Qed.

Lemma wvttLoop_container (decodeBox : Z -> Reader -> result (Box * Reader)) (n : nat) :
  forall (endPos : Z) (w : Box) (pos : Z) (rest : Reader) (b : Box),
    leaf w = false ->
    wvttLoop decodeBox n endPos w pos rest = Ok b -> leaf b = false.
Proof.
  induction n as [|n IH]; intros endPos w pos rest b Hw H; cbn [wvttLoop] in H;
    [discriminate|].
  destruct (decodeBox pos rest) as [[box rest']|e|]; [| |discriminate].
  - pose proof (AddChild_container w box Hw) as Hw'.
    destruct (uint64 (pos + Size box) =? endPos); [injection H as <-; exact Hw'|].
    destruct (uint64 (pos + Size box) >? endPos); [discriminate|].
    exact (IH _ _ _ _ _ Hw' H).
  - destruct e; try discriminate. injection H as <-. exact Hw.
Qed.

Lemma DecodeWvtt_container (decodeBox : Z -> Reader -> result (Box * Reader)) (n : nat)
    (hdr : boxHeader) (startPos : Z) (r r' : Reader) (b : Box) :
  DecodeWvtt decodeBox n hdr startPos r = Ok (b, r') -> leaf b = false.
Proof.
  unfold DecodeWvtt, ReadAll. intros H.
  destruct (fault r) as [[]|]; try discriminate H.
  all: inv_bind H; destruct a as [dri s]; inv_bind H; inv_bind H; injection H as <- _.
  all: exact (wvttLoop_container _ _ _ (WvttBox None None [] dri) _ _ _ eq_refl E1).
Qed.

Lemma fold_AddChild_container (l : list Box) (w : Box) :
  leaf w = false -> leaf (fold_left AddChild l w) = false.
Proof.
  revert w. induction l as [|c l IH]; intros w Hw; cbn [fold_left]; [exact Hw|].
  apply IH, AddChild_container, Hw.
Qed.

Lemma DecodeVttc_container (decodeBox : Z -> Reader -> result (Box * Reader)) (n : nat)
    (hdr : boxHeader) (startPos : Z) (r r' : Reader) (b : Box) :
  DecodeVttc decodeBox n hdr startPos r = Ok (b, r') -> leaf b = false.
Proof.
  unfold DecodeVttc. intros H. inv_bind H. destruct a as [l r1].
  injection H as <- _. apply fold_AddChild_container. reflexivity.
Qed.

(** What a leaf decoder made of a payload, when the header and the payload
    together are as long as the box says it is. *)
Lemma leaf_decoded (decodeBox : Z -> Reader -> result (Box * Reader)) (n : nat)
    (hdr : boxHeader) (startPos : Z) (payload : list byte) (b : Box) (limited : Reader)
    (hl : Z) :
  decoders decodeBox n (name hdr) hdr startPos (MkReader payload None) = Ok (b, limited) ->
  leaf b = true ->
  avail limited = [] ->
  length (name hdr) = 4%nat ->
  hl = 8 \/ 16 <= hl ->
  hl + len payload = Size b ->
  hl = 8 /\ body b = payload /\ fourcc (Type_ b) = name hdr /\ Size b = 8 + len payload.
Proof.
  intros H Hleaf Hdrained Hname Hhl Hsize.
  pose proof (len_nonneg payload) as Hp.
  assert (Htext : forall mk : list byte -> Box,
            Size (mk payload) = uint64 (boxHeaderSize + len payload) ->
            hl + len payload = Size (mk payload) ->
            hl = 8 /\ Size (mk payload) = 8 + len payload).
  { intros mk HS Heq. rewrite HS in *. unfold boxHeaderSize in *.
    pose proof (uint64_le (8 + len payload)). lia. }
  unfold decoders in H.
  repeat match type of H with
         | (if decide (?x = ?y) then _ else _) _ _ _ = _ =>
             destruct (decide (x = y)) as [Hty|_]
         end;
    unfold DecodeVttC, DecodeVlab, DecodeCtim, DecodeIden, DecodeSttg, DecodePayl,
      DecodeVtta in H;
    try rewrite decodeText_ok in H; try rewrite DecodeUnknown_ok in H;
    try (injection H as <- <-;
         match goal with
         | |- _ /\ body (?mk payload) = _ /\ _ =>
             destruct (Htext mk eq_refl Hsize) as [-> HS]
         | |- _ /\ body (UnknownBox ?t payload) = _ /\ _ =>
             destruct (Htext (UnknownBox t) eq_refl Hsize) as [-> HS]
         end;
         repeat split; try exact HS; try (rewrite Hty; reflexivity);
         apply fourcc_id, Hname).
  - (* nmhd *)
    destruct (DecodeNmhd_shape _ _ _ _ _ H) as (v & f & ->).
    change (Size (NmhdBox v f)) with 12 in Hsize.
    assert (hl = 8 /\ length payload = 4%nat) as [-> Hlen] by (unfold len in *; lia).
    destruct payload as [|a [|b [|c [|d [|? ?]]]]]; try discriminate Hlen.
    rewrite DecodeNmhd_4 in H. injection H as <- <- _.
    split; [reflexivity|]. split; [|split; [rewrite Hty; reflexivity | reflexivity]].
    cbn [body]. rewrite nmhd_word by apply be_value_4_range.
    apply PutUint32_be_value.
  - (* wvtt *)
    apply DecodeWvtt_container in H. congruence.
  - (* vtte *)
    unfold DecodeVtte in H. injection H as <- <-. cbn [avail] in Hdrained. try subst payload.
    change (Size VtteBox) with 8 in Hsize. change (len []) with 0 in *.
    assert (hl = 8) as -> by lia.
    repeat split. rewrite Hty. reflexivity.
  - (* vttc *)
    apply DecodeVttc_container in H. congruence.
  - (* vsid *)
    destruct (DecodeVsid_shape _ _ _ _ _ H) as (v & ->).
    change (Size (VsidBox v)) with 12 in Hsize.
    assert (hl = 8 /\ length payload = 4%nat) as [-> Hlen] by (unfold len in *; lia).
    destruct payload as [|a [|b [|c [|d [|? ?]]]]]; try discriminate Hlen.
    rewrite DecodeVsid_4 in H. injection H as <- _.
    split; [reflexivity|]. split; [|split; [rewrite Hty; reflexivity | reflexivity]].
    cbn [body]. apply PutUint32_be_value.
Qed.

(** For a box that is not a container, the length tells: a byte sequence
    that decodes successfully to a leaf box [b] and is exactly [Size b]
    bytes long is the encoding of [b]. *)
Lemma decode_encode_leaf (input : list byte) (b : Box) (r : Reader) :
  decode input = Ok (b, r) ->
  avail r = [] ->
  leaf b = true ->
  len input = Size b ->
  encode b = Ok input.
Proof.
  unfold decode. cbn [DecodeBox]. intros H Hrest Hleaf Hlen.
  inv_bind H. destruct a as [[hdr hl] r1].
  apply decodeHeader_ok in E as (Hl & Hf & Hname & Hsz & Hform).
  cbn [reader_of avail fault] in Hl, Hf, Hform.
  destruct (size hdr =? 0) eqn:Hz; [discriminate|]. apply Z.eqb_neq in Hz.
  inv_bind H. destruct a as [b' limited]. rename E into Edec.
  match type of H with
  | (if decide ?P then _ else _) = _ => destruct (decide P) as [[Hdr Hpl]|]; [|discriminate]
  end.
  injection H as -> <-. cbn [avail] in Hrest.
  set (n := Z.to_nat (size hdr - hl)) in *.
  assert (Hall : take n (avail r1) = avail r1).
  { rewrite <- (take_drop n (avail r1)) at 2. rewrite Hrest, app_nil_r. reflexivity. }
  rewrite Hall in *.
  assert (Hnolt : (length (avail r1) <? n)%nat = false) by (apply Nat.ltb_ge; lia).
  rewrite Hnolt in Edec.
  assert (Hhl : hl = 8 \/ 16 <= hl) by (destruct Hform as [(-> & _)|]; auto).
  assert (Hsize : hl + len (avail r1) = Size b) by lia.
  destruct (leaf_decoded _ _ _ _ _ _ _ hl Edec Hleaf Hdr Hname Hhl Hsize)
    as (-> & Hbody & Htype & HS).
  destruct Hform as [(_ & Hinput & Hrange)|]; [|lia].
  assert (Hdecl : size hdr = Size b).
  { rewrite HS. unfold len. subst n. lia. }
  rewrite (encode_leaf b Hleaf). unfold header_bytes.
  rewrite <- Hdecl.
  assert (Hsmall : (size hdr >? maxUint32) = false) by (rewrite Z.gtb_ltb; apply Z.ltb_ge; lia).
  rewrite Hsmall, Htype, Hbody, Hinput, <- app_assoc. reflexivity.
Qed.

(** *** Decoding what [Encode] wrote *)

Lemma byte_to_of_Z (z : Z) : byte_to_Z (byte_of_Z z) = z mod 256.
Proof.
  unfold byte_of_Z, byte_to_Z.
  pose proof (Z.mod_pos_bound z 256 ltac:(lia)) as Hr.
  destruct (Byte.of_N (Z.to_N (z mod 256))) as [b|] eqn:E.
  - apply Byte.to_of_N in E. rewrite E. lia.
  - apply Byte.of_N_None_iff in E. lia.
Qed.

(** Loading what was stored gives the number back. *)
Lemma be_value_PutUint32 (v : Z) : 0 <= v <= maxUint32 -> be_value 0 (PutUint32 v) = v.
Proof.
  intros Hv. unfold maxUint32 in Hv. unfold PutUint32. rewrite be_value_4.
  rewrite !byte_to_of_Z.
  change (2 ^ 24) with 16777216. change (2 ^ 16) with 65536. change (2 ^ 8) with 256.
  Z.div_mod_to_equations. lia.
Qed.

Lemma be_value_PutUint16 (v : Z) : 0 <= v < 65536 -> be_value 0 (PutUint16 v) = v.
Proof.
  intros Hv. unfold PutUint16. cbn [be_value]. rewrite !byte_to_of_Z.
  change (2 ^ 8) with 256. Z.div_mod_to_equations. lia.
Qed.

Lemma plain_size_min (b : Box) : 8 <= plain_size b.
Proof.
  induction b as [b IH] using Box_children_ind.
  assert (Hsum : forall cs, Forall (fun c => 8 <= plain_size c) cs -> 0 <= plain_sizes cs).
  { induction 1; cbn [plain_sizes fold_right]; [lia|]. fold (plain_sizes l). lia. }
  destruct b; cbn [plain_size children] in *;
    try (specialize (Hsum _ IH); unfold plain_sizes in Hsum; lia);
    match goal with |- 8 <= 8 + len ?l => pose proof (len_nonneg l); lia end.
Qed.

Lemma plain_sizes_nonneg (cs : list Box) : 0 <= plain_sizes cs.
Proof.
  induction cs as [|c cs IH]; cbn [plain_sizes fold_right]; [lia|].
  fold (plain_sizes cs). pose proof (plain_size_min c). lia.
Qed.

Lemma sum_sizes_plain (cs : list Box) :
  Forall (fun c => plain_size c <= maxUint32 -> Size c = plain_size c) cs ->
  plain_sizes cs <= maxUint32 ->
  sum_sizes cs = plain_sizes cs.
Proof.
  induction 1 as [|c cs Hc _ IH]; cbn [sum_sizes plain_sizes fold_right]; [reflexivity|].
  fold (plain_sizes cs). intros Hle.
  pose proof (plain_size_min c). pose proof (plain_sizes_nonneg cs).
  rewrite Hc, IH by lia. reflexivity.
Qed.

(** Below 2^32, [Size()] is the size. *)
Lemma Size_plain (b : Box) : plain_size b <= maxUint32 -> Size b = plain_size b.
Proof.
  induction b as [b IH] using Box_children_ind. intros Hle.
  destruct b; cbn [children] in IH;
    try (cbn [Size plain_size body] in *; apply uint64_small;
         match goal with |- 0 <= 8 + len ?l < _ => pose proof (len_nonneg l) end;
         unfold boxHeaderSize, maxUint32 in *; lia);
    try (cbn; reflexivity).
  - rewrite Size_Wvtt. cbn [plain_size] in *. fold (plain_sizes Children) in *.
    pose proof (plain_sizes_nonneg Children).
    rewrite (sum_sizes_plain _ IH) by lia.
    apply uint64_small. unfold nrWvttBytesBeforeChildren, maxUint32 in *. lia.
  - rewrite Size_Vttc. cbn [plain_size] in *. fold (plain_sizes Children) in *.
    pose proof (plain_sizes_nonneg Children).
    rewrite (sum_sizes_plain _ IH) by lia.
    apply uint64_small. unfold boxHeaderSize, maxUint32 in *. lia.
Qed.

Lemma header_bytes_small (sz : Z) (typ : list byte) :
  sz <= maxUint32 -> header_bytes sz typ = PutUint32 sz ++ fourcc typ.
Proof.
  intros H. unfold header_bytes.
  replace (sz >? maxUint32) with false; [reflexivity|].
  symmetry. rewrite Z.gtb_ltb. apply Z.ltb_ge. exact H.
Qed.

Lemma len_encs (cs : list Box) :
  Forall (fun c => plain_size c <= maxUint32 -> len (enc c) = plain_size c) cs ->
  plain_sizes cs <= maxUint32 ->
  len (encs cs) = plain_sizes cs.
Proof.
  induction 1 as [|c cs Hc _ IH]; cbn [encs map concat plain_sizes fold_right];
    [reflexivity|].
  fold (encs cs). fold (plain_sizes cs). intros Hle.
  pose proof (plain_size_min c). pose proof (plain_sizes_nonneg cs).
  rewrite len_app, Hc, IH by lia. reflexivity.
Qed.

Lemma len_enc (b : Box) : plain_size b <= maxUint32 -> len (enc b) = plain_size b.
Proof.
  induction b as [b IH] using Box_children_ind. intros Hle.
  pose proof (Size_plain b Hle) as HS.
  assert (Hhdr : len (header_bytes (Size b) (Type_ b)) = 8).
  { rewrite len_header_bytes, HS.
    replace (plain_size b >? maxUint32) with false; [reflexivity|].
    symmetry. rewrite Z.gtb_ltb. apply Z.ltb_ge. exact Hle. }
  destruct b; cbn [children] in IH; cbn [enc]; rewrite len_app, Hhdr;
    try (cbn [plain_size]; reflexivity).
  - cbn [plain_size] in *. fold (plain_sizes Children) in *. fold (encs Children).
    pose proof (plain_sizes_nonneg Children).
    rewrite !len_app, (len_encs _ IH) by lia.
    change (len (repeat x00 6)) with 6. change (len (PutUint16 DataReferenceIndex)) with 2. lia.
  - cbn [plain_size] in *. fold (plain_sizes Children) in *. fold (encs Children).
    pose proof (plain_sizes_nonneg Children).
    rewrite (len_encs _ IH) by lia. reflexivity.
Qed.

(** The eight bytes that [WvttBox.Encode] writes through its buffer. *)
Lemma wvtt_preamble (buf : list byte) (dri : Z) :
  (8 <= length buf)%nat ->
  (sw ← WriteZeroBytes (NewSliceWriter buf) 6;
   sw ← WriteUint16 sw dri;
   Ok (take (wpos sw) (wbuf sw))) = Ok (repeat x00 6 ++ PutUint16 dri).
Proof.
  intros H.
  destruct buf as [|b0 [|b1 [|b2 [|b3 [|b4 [|b5 [|b6 [|b7 buf]]]]]]]];
    cbn [length] in H; try lia.
  reflexivity.
Qed.

Lemma encodeChildren_encs (cs : list Box) :
  Forall (fun c => plain_size c <= maxUint32 -> forall w, room w = None ->
            Encode c w = Ok (MkWriter (written w ++ enc c) None)) cs ->
  plain_sizes cs <= maxUint32 ->
  forall w, room w = None ->
    encodeChildren cs w = Ok (MkWriter (written w ++ encs cs) None).
Proof.
  induction 1 as [|c cs Hc _ IH]; intros Hle w Hroom;
    cbn [encodeChildren encs map concat plain_sizes fold_right] in *.
  - rewrite app_nil_r. destruct w as [wr ro]. cbn in *. subst. reflexivity.
  - fold (encs cs). fold (plain_sizes cs) in Hle.
    pose proof (plain_size_min c). pose proof (plain_sizes_nonneg cs).
    rewrite Hc by (lia || exact Hroom). cbn [mbind result_bind].
    rewrite IH by (lia || reflexivity). cbn [written]. rewrite <- app_assoc. reflexivity.
Qed.

(** Below 2^32, [Encode] writes [enc]. *)
Lemma Encode_enc (b : Box) :
  plain_size b <= maxUint32 ->
  forall w, room w = None -> Encode b w = Ok (MkWriter (written w ++ enc b) None).
Proof.
  induction b as [b IH] using Box_children_ind. intros Hle w Hroom.
  pose proof (Size_plain b Hle) as HS.
  destruct b; cbn [children] in IH;
    try (rewrite Encode_leaf by (reflexivity || exact Hroom); reflexivity).
  - (* wvtt *)
    rewrite Encode_Wvtt. cbv zeta.
    assert (Hsum : 16 + plain_sizes Children <= maxUint32) by exact Hle.
    assert (HS' : Size (WvttBox VttC Vlab Children DataReferenceIndex)
                  = 16 + plain_sizes Children) by exact HS.
    set (b := WvttBox VttC Vlab Children DataReferenceIndex) in *.
    unfold EncodeHeader. rewrite (Write_unlimited _ _ Hroom). cbn [mbind result_bind].
    pose proof (plain_sizes_nonneg Children) as Hn.
    assert (Hbuf : (8 <= length (makebuf b))%nat).
    { unfold makebuf. rewrite repeat_length, HS'. unfold boxHeaderSize. lia. }
    pose proof (wvtt_preamble (makebuf b) DataReferenceIndex Hbuf) as Hpre.
    destruct (WriteZeroBytes (NewSliceWriter (makebuf b)) 6) as [sw1| |];
      cbn [mbind result_bind] in Hpre |- *; try discriminate Hpre.
    destruct (WriteUint16 sw1 DataReferenceIndex) as [sw2| |];
      cbn [mbind result_bind] in Hpre |- *; try discriminate Hpre.
    injection Hpre as ->.
    rewrite Write_unlimited by reflexivity. cbn [mbind result_bind].
    rewrite (encodeChildren_encs _ IH) by (lia || reflexivity).
    cbn [written enc]. fold (encs Children). unfold b.
    rewrite <- !app_assoc. reflexivity.
  - (* vttc *)
    rewrite Encode_Vttc. cbv zeta.
    unfold EncodeHeader. rewrite (Write_unlimited _ _ Hroom). cbn [mbind result_bind].
    assert (Hsum : 8 + plain_sizes Children <= maxUint32) by exact Hle.
    pose proof (plain_sizes_nonneg Children) as Hn.
    rewrite (encodeChildren_encs _ IH) by (lia || reflexivity).
    cbn [written enc]. fold (encs Children). rewrite <- !app_assoc. reflexivity.
Qed.

(** [AddChild] keeps the children and appends. *)
Lemma fold_AddChild_Wvtt (l : list Box) :
  forall (a b : option Box) (cs : list Box) (dri : Z),
    exists a' b', fold_left AddChild l (WvttBox a b cs dri) = WvttBox a' b' (cs ++ l) dri.
Proof.
  induction l as [|c l IH]; intros a b cs dri; cbn [fold_left].
  - exists a, b. rewrite app_nil_r. reflexivity.
  - assert (Hc : exists a1 b1, AddChild (WvttBox a b cs dri) c
                               = WvttBox a1 b1 (cs ++ [c]) dri)
      by (destruct c; cbn; eauto).
    destruct Hc as (a1 & b1 & ->). destruct (IH a1 b1 (cs ++ [c]) dri) as (a' & b' & ->).
    exists a', b'. rewrite <- app_assoc. reflexivity.
Qed.

Lemma fold_AddChild_Vttc (l : list Box) :
  forall (a b c d e : option Box) (cs : list Box),
    exists a' b' c' d' e',
      fold_left AddChild l (VttcBox a b c d e cs) = VttcBox a' b' c' d' e' (cs ++ l).
Proof.
  induction l as [|x l IH]; intros a b c d e cs; cbn [fold_left].
  - exists a, b, c, d, e. rewrite app_nil_r. reflexivity.
  - assert (Hx : exists a1 b1 c1 d1 e1,
              AddChild (VttcBox a b c d e cs) x = VttcBox a1 b1 c1 d1 e1 (cs ++ [x]))
      by (destruct x; cbn; eauto 10).
    destruct Hx as (a1 & b1 & c1 & d1 & e1 & ->).
    destruct (IH a1 b1 c1 d1 e1 (cs ++ [x])) as (a' & b' & c' & d' & e' & ->).
    exists a', b', c', d', e'. rewrite <- app_assoc. reflexivity.
Qed.

(** The typed fields do not count in the size nor in the bytes. *)
Lemma norm_same (b : Box) :
  Size (norm b) = Size b /\ Type_ (norm b) = Type_ b /\ enc (norm b) = enc b.
Proof.
  induction b as [b IH] using Box_children_ind.
  assert (Hsum : forall cs, Forall (fun c => Size (norm c) = Size c /\
                                             Type_ (norm c) = Type_ c /\
                                             enc (norm c) = enc c) cs ->
                            sum_sizes (map norm cs) = sum_sizes cs /\
                            encs (map norm cs) = encs cs).
  { induction 1 as [|c cs (Hs & _ & He) _ [IHs IHe]]; [split; reflexivity|].
    cbn [map sum_sizes encs concat]. fold (encs (map norm cs)). fold (encs cs).
    rewrite Hs, He, IHs, IHe. split; reflexivity. }
  destruct b; cbn [children] in IH; try (repeat split; reflexivity).
  - destruct (Hsum _ IH) as [Hs He]. cbn [norm].
    destruct (fold_AddChild_Wvtt (map norm Children) None None [] DataReferenceIndex)
      as (a' & b' & ->). cbn [app].
    assert (HS : Size (WvttBox a' b' (map norm Children) DataReferenceIndex)
                 = Size (WvttBox VttC Vlab Children DataReferenceIndex))
      by (rewrite !Size_Wvtt, Hs; reflexivity).
    split; [exact HS|]. split; [reflexivity|].
    cbn [enc]. fold (encs (map norm Children)). fold (encs Children).
    cbn [enc] in HS. rewrite He. f_equal. f_equal. exact HS.
  - destruct (Hsum _ IH) as [Hs He]. cbn [norm].
    destruct (fold_AddChild_Vttc (map norm Children) None None None None None [])
      as (a' & b' & c' & d' & e' & ->). cbn [app].
    assert (HS : Size (VttcBox a' b' c' d' e' (map norm Children))
                 = Size (VttcBox Vsid Iden Ctim Sttg Payl Children))
      by (rewrite !Size_Vttc, Hs; reflexivity).
    split; [exact HS|]. split; [reflexivity|].
    cbn [enc]. fold (encs (map norm Children)). fold (encs Children).
    rewrite He. f_equal. f_equal. exact HS.
Qed.

(** The header that [EncodeHeader] wrote, read back. *)
Lemma decodeHeader_plain (sz : Z) (typ tail : list byte) (flt : option error) :
  8 <= sz <= maxUint32 ->
  length typ = 4%nat ->
  typ <> str "uuid" ->
  decodeHeader (MkReader (PutUint32 sz ++ typ ++ tail) flt)
  = Ok (MkHeader typ sz None, 8, MkReader tail flt).
Proof.
  intros Hsz Hlen Huuid.
  destruct typ as [|t0 [|t1 [|t2 [|t3 [|? ?]]]]]; try discriminate Hlen.
  pose proof (be_value_PutUint32 sz ltac:(lia)) as Hval.
  unfold decodeHeader, readN, PutUint32 in *.
  cbn [avail fault app length Nat.leb firstn skipn mbind result_bind].
  change (take 0 tail) with (@nil byte). change (drop 0 tail) with tail.
  rewrite Hval.
  replace (sz =? 1) with false by (symmetry; apply Z.eqb_neq; lia).
  cbn [mbind result_bind].
  destruct (decide ([t0; t1; t2; t3] = str "uuid")) as [Heq|_]; [contradiction|].
  cbn [mbind result_bind].
  replace (sz =? 0) with false by (symmetry; apply Z.eqb_neq; lia).
  replace (sz <? 8) with false by (symmetry; apply Z.ltb_ge; lia).
  reflexivity.
Qed.

(** A box whose header and payload are there, decoded by the decoder of its
    type. *)
Lemma DecodeBox_payload (fuel : nat) (startPos sz : Z) (typ payload rest : list byte)
    (flt : option error) (b : Box) (limited : Reader) :
  8 <= sz <= maxUint32 ->
  length typ = 4%nat ->
  typ <> str "uuid" ->
  sz = 8 + len payload ->
  decoders (DecodeBox fuel) fuel typ (MkHeader typ sz None) startPos (MkReader payload None)
    = Ok (b, limited) ->
  avail limited = [] ->
  DecodeBox (S fuel) startPos (MkReader (PutUint32 sz ++ typ ++ payload ++ rest) flt)
    = Ok (b, MkReader rest flt).
Proof.
  intros Hsz Hlen Huuid Hpl Hdec Hdrained. cbn [DecodeBox].
  rewrite (decodeHeader_plain sz typ (payload ++ rest) flt Hsz Hlen Huuid).
  cbn [mbind result_bind name size avail fault].
  replace (sz =? 0) with false by (symmetry; apply Z.eqb_neq; lia).
  replace (Z.to_nat (sz - 8)) with (length payload) by (unfold len in Hpl; lia).
  rewrite take_app_length.
  replace (length (payload ++ rest) <? length payload)%nat with false
    by (symmetry; apply Nat.ltb_ge; rewrite length_app; lia).
  rewrite Hdec. cbn [mbind result_bind].
  destruct (decide (avail limited = [] /\ length payload = length payload)) as [_|Hno].
  - rewrite drop_app_length. reflexivity.
  - exfalso. apply Hno. split; [exact Hdrained | reflexivity].
Qed.

Lemma DecodeBox_EOF (fuel : nat) (startPos : Z) :
  DecodeBox (S fuel) startPos (MkReader [] None) = Err EOF.
Proof. reflexivity. Qed.

(** The type of a box is four bytes, and it is not [uuid]. *)
Lemma Type_canonical (b : Box) :
  canonical b = true -> length (Type_ b) = 4%nat /\ Type_ b <> str "uuid".
Proof.
  destruct b; cbn [canonical Type_]; intros Hc;
    try (split; [reflexivity | discriminate]).
  apply andb_true_iff in Hc as [Hl Hr]. apply Nat.eqb_eq in Hl.
  apply bool_decide_eq_true in Hr. split; [exact Hl|].
  intros ->. apply Hr. unfold registered. cbn [map]. set_solver.
Qed.

Lemma decoders_unregistered (decodeBox : Z -> Reader -> result (Box * Reader)) (n : nat)
    (typ : list byte) :
  typ ∉ registered -> decoders decodeBox n typ = DecodeUnknown.
Proof.
  intros Hno. unfold decoders.
  repeat match goal with
         | |- (if decide (typ = ?y) then _ else _) = _ =>
             destruct (decide (typ = y)) as [->|_];
             [exfalso; apply Hno; unfold registered; cbn [map]; set_solver|]
         end.
  reflexivity.
Qed.

(** The version and the flags of an [nmhd], taken apart. *)
Lemma nmhd_fields (v f : Z) :
  0 <= v < 256 -> 0 <= f < 2 ^ 24 ->
  let w := uint32 (uint32 (Z.shiftl v 24) + f) in
  0 <= w <= maxUint32 /\ uint8 (Z.shiftr w 24) = v /\ Z.land w flagsMask = f.
Proof.
  intros Hv Hf. cbv zeta.
  rewrite Z.shiftr_div_pow2, Z.shiftl_mul_pow2 by lia.
  change flagsMask with (Z.ones 24). rewrite Z.land_ones by lia.
  unfold uint32, uint8, maxUint32.
  change (2 ^ 24) with 16777216 in *. change (2 ^ 8) with 256.
  change (2 ^ 32) with 4294967296.
  repeat split; Z.div_mod_to_equations; lia.
Qed.

(** The decoder of a leaf box, on the payload that [Encode] wrote. *)
Lemma leaf_canonical_decoded (decodeBox : Z -> Reader -> result (Box * Reader)) (n : nat)
    (b : Box) (sz startPos : Z) :
  leaf b = true ->
  canonical b = true ->
  decoders decodeBox n (Type_ b) (MkHeader (Type_ b) sz None) startPos
           (MkReader (body b) None)
  = Ok (b, MkReader [] None).
Proof.
  intros Hleaf Hc.
  destruct b; try discriminate Hleaf; cbn [Type_ body];
    try apply decodeText_ok.
  - (* nmhd *)
    cbn [canonical] in Hc. rewrite !andb_true_iff in Hc.
    destruct Hc as [[[H1 H2] H3] H4].
    apply Z.leb_le in H1, H3. apply Z.ltb_lt in H2, H4.
    destruct (nmhd_fields Version Flags ltac:(lia) ltac:(lia)) as (Hw & Hv & Hf).
    change (decoders decodeBox n (str "nmhd")) with DecodeNmhd.
    unfold PutUint32. rewrite DecodeNmhd_4.
    change [byte_of_Z (?w / 2 ^ 24); byte_of_Z (?w / 2 ^ 16); byte_of_Z (?w / 2 ^ 8);
            byte_of_Z ?w] with (PutUint32 w).
    rewrite (be_value_PutUint32 _ Hw), Hv, Hf. reflexivity.
  - (* vtte *)
    reflexivity.
  - (* vsid *)
    cbn [canonical] in Hc. rewrite !andb_true_iff in Hc. destruct Hc as [H1 H2].
    apply Z.leb_le in H1, H2.
    change (decoders decodeBox n (str "vsid")) with DecodeVsid.
    unfold PutUint32. rewrite DecodeVsid_4.
    change [byte_of_Z (?w / 2 ^ 24); byte_of_Z (?w / 2 ^ 16); byte_of_Z (?w / 2 ^ 8);
            byte_of_Z ?w] with (PutUint32 w).
    rewrite (be_value_PutUint32 _ (conj H1 H2)). reflexivity.
  - (* the opaque carrier *)
    cbn [canonical] in Hc. apply andb_true_iff in Hc as [_ Hr].
    apply bool_decide_eq_true in Hr.
    rewrite (decoders_unregistered _ _ _ Hr). apply DecodeUnknown_ok.
Qed.

(** [DecodeWvtt] on the payload that [WvttBox.Encode] wrote: the reserved
    bytes, the index, and then the loop on the rest. *)
Lemma DecodeWvtt_payload (decodeBox : Z -> Reader -> result (Box * Reader)) (n : nat)
    (hdr : boxHeader) (startPos dri : Z) (tail : list byte) :
  0 <= dri < 65536 ->
  DecodeWvtt decodeBox n hdr startPos
             (MkReader (repeat x00 6 ++ PutUint16 dri ++ tail) None) =
  (w ← wvttLoop decodeBox n (uint64 (startPos + size hdr)) (WvttBox None None [] dri)
         (uint64 (startPos + nrWvttBytesBeforeChildren)) (reader_of tail);
   Ok (w, MkReader [] None)).
Proof.
  intros Hdri. unfold DecodeWvtt, ReadAll. cbn [avail fault].
  remember (repeat x00 (MinRead - length (repeat x00 6 ++ PutUint16 dri ++ tail)))
    as zeros eqn:Hz. clear Hz.
  change (repeat x00 6 ++ PutUint16 dri ++ tail)
    with (x00 :: x00 :: x00 :: x00 :: x00 :: x00 ::
          byte_of_Z (dri / 2 ^ 8) :: byte_of_Z dri :: tail).
  unfold ReadUint16, RemainingBytes, SkipBytes, NewSliceReader, reslice, cap, bytes, Uint16.
  cbn [rslice rpos backing slen app length Nat.add Nat.leb Nat.ltb Nat.sub andb
       skipn firstn mbind result_bind].
  change (take 0 (take 0 (tail ++ zeros))) with (@nil byte).
  change (drop 0 (tail ++ zeros)) with (tail ++ zeros).
  change (be_value 0 [byte_of_Z (dri / 2 ^ 8); byte_of_Z dri])
    with (be_value 0 (PutUint16 dri)).
  rewrite (be_value_PutUint16 dri Hdri), Nat.sub_0_r.
  replace (length tail <=? length (tail ++ zeros))%nat with true
    by (symmetry; apply Nat.leb_le; rewrite length_app; lia).
  cbn [mbind result_bind backing slen]. rewrite take_app_length. reflexivity.
Qed.

Lemma length_enc_min (c : Box) : (8 <= length (enc c))%nat.
Proof.
  assert (H : 8 <= len (header_bytes (Size c) (Type_ c)))
    by (rewrite len_header_bytes; destruct (Size c >? maxUint32); lia).
  unfold len in H. destruct c; cbn [enc]; rewrite length_app; lia.
Qed.

Lemma length_encs_min (cs : list Box) : (length cs <= length (encs cs))%nat.
Proof.
  induction cs as [|c cs IH]; cbn [encs map concat length]; [lia|].
  fold (encs cs). rewrite length_app. pose proof (length_enc_min c). lia.
Qed.

Lemma Size_norm_plain (c : Box) : plain_size c <= maxUint32 -> Size (norm c) = plain_size c.
Proof. intros H. destruct (norm_same c) as [-> _]. apply Size_plain, H. Qed.

(** The loop of [DecodeWvtt] on the bytes of the children. *)
Lemma wvttLoop_encs (fuel : nat) (cs : list Box) :
  Forall (decodes_back (S fuel)) cs ->
  Forall (fun c => plain_size c <= maxUint32) cs ->
  forall (n : nat) (w : Box) (pos : Z),
    (length cs < n)%nat -> 0 <= pos -> pos + plain_sizes cs < 2 ^ 64 ->
    wvttLoop (DecodeBox (S fuel)) n (pos + plain_sizes cs) w pos (reader_of (encs cs))
    = Ok (fold_left AddChild (map norm cs) w).
Proof.
  induction 1 as [|c cs Hc _ IH]; intros Hsmall n w pos Hn Hpos Hend;
    (destruct n as [|n]; [cbn [length] in Hn; lia|]); cbn [wvttLoop].
  - unfold reader_of. cbn [encs map concat]. rewrite DecodeBox_EOF. reflexivity.
  - inversion Hsmall as [|? ? Hcs Hrest]; subst.
    cbn [encs map concat plain_sizes fold_right] in *. fold (encs cs).
    fold (plain_sizes cs) in *.
    pose proof (plain_size_min c) as Hmin. pose proof (plain_sizes_nonneg cs) as Hnn.
    unfold reader_of. rewrite (Hc pos (encs cs) None) by lia.
    rewrite (Size_norm_plain c Hcs).
    rewrite (uint64_small (pos + plain_size c)) by lia.
    destruct cs as [|c' cs'].
    + cbn [plain_sizes fold_right map fold_left].
      replace (pos + plain_size c =? pos + (plain_size c + 0)) with true
        by (symmetry; apply Z.eqb_eq; lia).
      reflexivity.
    + pose proof (plain_size_min c') as Hmin'.
      assert (Hpos' : 8 <= plain_sizes (c' :: cs')).
      { cbn [plain_sizes fold_right]. fold (plain_sizes cs').
        pose proof (plain_sizes_nonneg cs'). lia. }
      replace (pos + plain_size c =? pos + (plain_size c + plain_sizes (c' :: cs')))
        with false by (symmetry; apply Z.eqb_neq; lia).
      replace (pos + plain_size c >? pos + (plain_size c + plain_sizes (c' :: cs')))
        with false by (symmetry; rewrite Z.gtb_ltb; apply Z.ltb_ge; lia).
      replace (pos + (plain_size c + plain_sizes (c' :: cs')))
        with ((pos + plain_size c) + plain_sizes (c' :: cs')) by lia.
      cbn [map fold_left].
      apply (IH Hrest n (AddChild w (norm c)) (pos + plain_size c)).
      * cbn [length] in *. lia.
      * lia.
      * lia.
Qed.

(** [DecodeContainerChildren] on the bytes of the children. *)
Lemma DecodeContainerChildren_encs (fuel : nat) (cs : list Box) :
  Forall (decodes_back fuel) cs ->
  Forall (fun c => plain_size c <= maxUint32) cs ->
  forall (n : nat) (l : list Box) (pos : Z),
    (length cs < n)%nat -> 0 <= pos -> pos + plain_sizes cs < 2 ^ 64 ->
    DecodeContainerChildren (DecodeBox fuel) n pos (pos + plain_sizes cs)
                            (MkReader (encs cs) None) l
    = Ok (l ++ map norm cs, MkReader [] None).
Proof.
  induction 1 as [|c cs Hc _ IH]; intros Hsmall n l pos Hn Hpos Hend;
    (destruct n as [|n]; [cbn [length] in Hn; lia|]); cbn [DecodeContainerChildren].
  - cbn [plain_sizes fold_right encs map concat].
    replace (pos =? pos + 0) with true by (symmetry; apply Z.eqb_eq; lia).
    rewrite app_nil_r. reflexivity.
  - inversion Hsmall as [|? ? Hcs Hrest]; subst.
    cbn [encs map concat plain_sizes fold_right] in *. fold (encs cs).
    fold (plain_sizes cs) in *.
    pose proof (plain_size_min c) as Hmin. pose proof (plain_sizes_nonneg cs) as Hnn.
    replace (pos =? pos + (plain_size c + plain_sizes cs)) with false
      by (symmetry; apply Z.eqb_neq; lia).
    replace (pos >? pos + (plain_size c + plain_sizes cs)) with false
      by (symmetry; rewrite Z.gtb_ltb; apply Z.ltb_ge; lia).
    rewrite (Hc pos (encs cs) None) by lia. cbn [mbind result_bind avail].
    rewrite len_app, (len_enc c Hcs).
    replace (plain_size c + len (encs cs) - len (encs cs)) with (plain_size c) by lia.
    rewrite (uint64_small (pos + plain_size c)) by lia.
    replace (pos + (plain_size c + plain_sizes cs))
      with ((pos + plain_size c) + plain_sizes cs) by lia.
    rewrite (IH Hrest n (l ++ [norm c]) (pos + plain_size c)) by (cbn [length] in *; lia).
    cbn [map]. rewrite <- app_assoc. reflexivity.
Qed.

Lemma forallb_canonical (cs : list Box) :
  forallb canonical cs = true -> Forall (fun c => canonical c = true) cs.
Proof.
  induction cs as [|c cs IH]; cbn [forallb]; intros H; constructor;
    apply andb_true_iff in H as [Hc Hcs]; auto.
Qed.

Lemma plain_sizes_each (cs : list Box) (bound : Z) :
  plain_sizes cs <= bound -> Forall (fun c => plain_size c <= bound) cs.
Proof.
  induction cs as [|c cs IH]; intros H; constructor;
    cbn [plain_sizes fold_right] in H; fold (plain_sizes cs) in H;
    pose proof (plain_size_min c); pose proof (plain_sizes_nonneg cs).
  - lia.
  - apply IH. lia.
Qed.

Lemma length_encs_each (cs : list Box) (fuel : nat) :
  (length (encs cs) < fuel)%nat -> Forall (fun c => (length (enc c) < fuel)%nat) cs.
Proof.
  induction cs as [|c cs IH]; intros H; constructor;
    cbn [encs map concat] in H; fold (encs cs) in H; rewrite length_app in H.
  - lia.
  - apply IH. lia.
Qed.

Lemma enc_payload (b : Box) : enc b = header_bytes (Size b) (Type_ b) ++ payload b.
Proof. destruct b; reflexivity. Qed.

(** Every canonical box below 2^32 bytes is decoded back from its bytes,
    with any fuel beyond their number. *)
Lemma DecodeBox_enc (b : Box) :
  canonical b = true ->
  plain_size b <= maxUint32 ->
  forall fuel, (length (enc b) < fuel)%nat -> decodes_back fuel b.
Proof.
  induction b as [b IH] using Box_children_ind.
  intros Hc Hle fuel Hfuel startPos rest flt Hpos Hend.
  destruct fuel as [|fuel]; [lia|].
  pose proof (Size_plain b Hle) as HS.
  pose proof (plain_size_min b) as Hmin.
  pose proof (len_enc b Hle) as Hlen.
  destruct (Type_canonical b Hc) as [Htl Htu].
  rewrite enc_payload in Hfuel, Hlen |- *.
  rewrite HS, (header_bytes_small _ _ Hle), (fourcc_id _ Htl) in Hfuel, Hlen |- *.
  rewrite !len_app in Hlen. rewrite !length_app in Hfuel.
  change (len (PutUint32 (plain_size b))) with 4 in Hlen.
  change (length (PutUint32 (plain_size b))) with 4%nat in Hfuel.
  rewrite Htl in Hfuel. unfold len at 1 in Hlen. rewrite Htl in Hlen.
  rewrite <- !app_assoc.
  assert (Hchildren :
    forall cs, children b = cs -> plain_sizes cs <= maxUint32 ->
               (length (encs cs) < fuel)%nat ->
               forallb canonical cs = true ->
               Forall (decodes_back fuel) cs /\
               Forall (fun c => plain_size c <= maxUint32) cs).
  { intros cs <- Hps Hfu Hcan.
    assert (Hsm : Forall (fun c => plain_size c <= maxUint32) (children b))
      by (apply plain_sizes_each; lia).
    split; [|exact Hsm].
    pose proof (forallb_canonical _ Hcan) as Hcan'.
    pose proof (length_encs_each (children b) fuel Hfu) as Hfu'.
    clear - IH Hsm Hcan' Hfu'.
    induction IH as [|c cs Hc _ IHcs]; constructor;
      inversion Hsm; inversion Hcan'; inversion Hfu'; subst; auto. }
  apply (DecodeBox_payload _ _ _ _ _ _ _ _ (MkReader [] None));
    [ split; [exact Hmin | exact Hle] | exact Htl | exact Htu | lia | | reflexivity ].
  destruct b; cbn [children payload norm] in *;
    try (apply leaf_canonical_decoded; [reflexivity | exact Hc]).
  - (* wvtt *)
    cbn [canonical] in Hc. rewrite !andb_true_iff in Hc. destruct Hc as [[H0 H1] Hcs].
    apply Z.leb_le in H0. apply Z.ltb_lt in H1.
    cbn [plain_size] in *. fold (plain_sizes Children) in *.
    pose proof (plain_sizes_nonneg Children) as Hnn.
    rewrite !length_app in Hfuel. cbn [repeat length PutUint16] in Hfuel.
    destruct (Hchildren Children eq_refl ltac:(lia) ltac:(lia) Hcs) as [Hback Hsm].
    cbn [Type_].
    change (decoders (DecodeBox fuel) fuel (str "wvtt")) with (DecodeWvtt (DecodeBox fuel) fuel).
    rewrite (DecodeWvtt_payload _ _ _ _ _ _ (conj H0 H1)). cbn [size].
    unfold nrWvttBytesBeforeChildren.
    rewrite (uint64_small (startPos + 16)) by lia.
    rewrite (uint64_small (startPos + (16 + plain_sizes Children))) by lia.
    replace (startPos + (16 + plain_sizes Children))
      with ((startPos + 16) + plain_sizes Children) by lia.
    destruct fuel as [|fuel']; [lia|].
    rewrite (wvttLoop_encs fuel' Children Hback Hsm)
      by (try lia; pose proof (length_encs_min Children); lia).
    reflexivity.
  - (* vttc *)
    cbn [canonical] in Hc.
    cbn [plain_size] in *. fold (plain_sizes Children) in *.
    pose proof (plain_sizes_nonneg Children) as Hnn.
    destruct (Hchildren Children eq_refl ltac:(lia) ltac:(lia) Hc) as [Hback Hsm].
    cbn [Type_].
    change (decoders (DecodeBox fuel) fuel (str "vttc")) with (DecodeVttc (DecodeBox fuel) fuel).
    unfold DecodeVttc. cbn [size].
    rewrite (uint64_small (startPos + 8)) by lia.
    rewrite (uint64_small (startPos + (8 + plain_sizes Children))) by lia.
    replace (startPos + (8 + plain_sizes Children))
      with ((startPos + 8) + plain_sizes Children) by lia.
    rewrite (DecodeContainerChildren_encs fuel Children Hback Hsm)
      by (try lia; pose proof (length_encs_min Children); lia).
    reflexivity.
Qed.

Lemma plain_size_norm (b : Box) : plain_size (norm b) = plain_size b.
Proof.
  induction b as [b IH] using Box_children_ind.
  assert (Hsum : forall cs, Forall (fun c => plain_size (norm c) = plain_size c) cs ->
                            plain_sizes (map norm cs) = plain_sizes cs).
  { induction 1 as [|c cs Hc _ IHcs]; [reflexivity|].
    cbn [map plain_sizes fold_right]. fold (plain_sizes (map norm cs)).
    fold (plain_sizes cs). rewrite Hc, IHcs. reflexivity. }
  destruct b; cbn [children] in IH; try reflexivity; cbn [norm].
  - destruct (fold_AddChild_Wvtt (map norm Children) None None [] DataReferenceIndex)
      as (a' & b' & ->).
    cbn [app plain_size]. fold (plain_sizes (map norm Children)).
    fold (plain_sizes Children). rewrite (Hsum _ IH). reflexivity.
  - destruct (fold_AddChild_Vttc (map norm Children) None None None None None [])
      as (a' & b' & c' & d' & e' & ->).
    cbn [app plain_size]. fold (plain_sizes (map norm Children)).
    fold (plain_sizes Children). rewrite (Hsum _ IH). reflexivity.
Qed.

Lemma encodeWith_at_least (b : Box) (payload : list byte) (w w' : Writer) :
  encodeWith b payload w = Ok w' ->
  exists out, written w' = written w ++ out /\ 8 + len payload <= len out.
Proof.
  intros H. unfold encodeWith in H. inv_bind H.
  apply EncodeHeader_written in E. apply Write_written in H.
  exists (header_bytes (Size b) (Type_ b) ++ payload). split.
  - rewrite H, E, <- app_assoc. reflexivity.
  - rewrite len_app, len_header_bytes. destruct (Size b >? maxUint32); lia.
Qed.

(** [Encode] writes at least the size of the box. *)
Lemma Encode_at_least (b : Box) :
  forall w w', Encode b w = Ok w' ->
    exists out, written w' = written w ++ out /\ plain_size b <= len out.
Proof.
  induction b as [b IH] using Box_children_ind. intros w w' H.
  assert (Hhdr : forall sz typ, 8 <= len (header_bytes sz typ))
    by (intros sz typ; rewrite len_header_bytes; destruct (sz >? maxUint32); lia).
  assert (Hkids : forall cs, Forall (fun c => forall w w', Encode c w = Ok w' ->
                     exists out, written w' = written w ++ out /\ plain_size c <= len out) cs ->
                   forall w w', encodeChildren cs w = Ok w' ->
                     exists out, written w' = written w ++ out /\ plain_sizes cs <= len out).
  { induction 1 as [|c cs Hc _ IHcs]; intros w1 w2 Hk; cbn [encodeChildren] in Hk.
    - injection Hk as <-. exists []. split; [by rewrite app_nil_r | reflexivity].
    - inv_bind Hk. destruct (Hc _ _ E) as (o1 & E1 & L1).
      destruct (IHcs _ _ Hk) as (o2 & E2 & L2). exists (o1 ++ o2). split.
      + rewrite E2, E1, <- app_assoc. reflexivity.
      + cbn [plain_sizes fold_right]. fold (plain_sizes cs). rewrite len_app. lia. }
  destruct b; cbn [children] in IH;
    try match type of H with
        | Encode (UnknownBox ?n ?t) _ = _ =>
            exact (encodeWith_at_least (UnknownBox n t) t w w' H)
        | Encode (VsidBox ?v) _ = _ =>
            exact (encodeWith_at_least (VsidBox v) (PutUint32 v) w w' H)
        | Encode (?c ?t) _ = _ => exact (encodeWith_at_least (c t) t w w' H)
        end.
  - (* nmhd *)
    rewrite Encode_Nmhd in H. cbv zeta in H. inv_bind H. inv_bind H.
    apply EncodeHeader_written in E. apply Write_written in H.
    apply put_ok in E0 as (_ & Hlen & _).
    eexists. split; [rewrite H, E, <- app_assoc; reflexivity|].
    rewrite len_app. cbn [plain_size body].
    match goal with |- _ <= len (header_bytes ?sz ?typ) + _ =>
      pose proof (Hhdr sz typ) end.
    assert (H4 : len (wbuf a0) = 4) by (unfold len; rewrite Hlen; reflexivity).
    change (len (PutUint32 (uint32 (uint32 (Z.shiftl Version 24) + Flags)))) with 4. lia.
  - (* wvtt *)
    rewrite Encode_Wvtt in H. cbv zeta in H.
    inv_bind H. inv_bind H. inv_bind H. inv_bind H.
    apply EncodeHeader_written in E. apply Write_written in E2.
    apply put_ok in E0 as (P0 & L0 & _). apply put_ok in E1 as (P1 & L1 & B1).
    destruct (Hkids _ IH _ _ H) as (outs & Eo & Lo).
    assert (H8 : len (take (wpos a1) (wbuf a1)) = 8).
    { unfold len. rewrite length_take. rewrite P1, P0 in *.
      cbn [NewSliceWriter wpos PutUint16 length repeat] in *. lia. }
    eexists. split; [rewrite Eo, E2, E, <- !app_assoc; reflexivity|].
    rewrite !len_app, H8. cbn [plain_size]. fold (plain_sizes Children).
    match goal with |- _ <= len (header_bytes ?sz ?typ) + _ =>
      pose proof (Hhdr sz typ) end. lia.
  - (* vtte *)
    apply EncodeHeader_written in H.
    eexists. split; [exact H|]. cbn [plain_size body].
    match goal with |- _ <= len (header_bytes ?sz ?typ) =>
      pose proof (Hhdr sz typ) end.
    change (len (@nil byte)) with 0. lia.
  - (* vttc *)
    rewrite Encode_Vttc in H. cbv zeta in H. inv_bind H.
    apply EncodeHeader_written in E.
    destruct (Hkids _ IH _ _ H) as (outs & Eo & Lo).
    eexists. split; [rewrite Eo, E, <- !app_assoc; reflexivity|].
    rewrite !len_app. cbn [plain_size]. fold (plain_sizes Children).
    match goal with |- _ <= len (header_bytes ?sz ?typ) + _ =>
      pose proof (Hhdr sz typ) end. lia.
Qed.

(** The round trip on the bytes that the encoder writes, containers
    included: a canonical box below 2^32 bytes is encoded, its bytes decode
    successfully, to the same box up to its typed fields, and encoding
    that box gives the same bytes again. *)
Lemma canonical_round_trip (b : Box) :
  canonical b = true ->
  plain_size b <= maxUint32 ->
  encode b = Ok (enc b) /\
  decode (enc b) = Ok (norm b, MkReader [] None) /\
  encode (norm b) = Ok (enc b).
Proof.
  intros Hc Hle. split; [|split].
  - unfold encode. rewrite (Encode_enc b Hle new_writer eq_refl). reflexivity.
  - unfold decode, reader_of. rewrite <- (app_nil_r (enc b)) at 2.
    apply (DecodeBox_enc b Hc Hle); [lia | lia |].
    pose proof (plain_size_min b). unfold maxUint32 in Hle. lia.
  - unfold encode. rewrite (Encode_enc (norm b)) by (rewrite ?plain_size_norm; auto).
    cbn [mbind result_bind written new_writer app].
    destruct (norm_same b) as (_ & _ & ->). reflexivity.
Qed.




(** *** [AddChild] on the containers *)

Lemma lastOf_snoc (ofType : Box -> bool) (cs : list Box) (c : Box) (d : option Box) :
  lastOf ofType (cs ++ [c]) d = if ofType c then Some c else lastOf ofType cs d.
Proof.
  unfold lastOf. rewrite rev_app_distr. cbn [rev app find].
  destruct (ofType c); reflexivity.
Qed.

(** One call. *)
Lemma AddChild_Wvtt_last (c : Box) (vttC vlab : option Box) (children : list Box)
    (dri : Z) :
  AddChild (WvttBox vttC vlab children dri) c =
  WvttBox (if isVttC c then Some c else vttC) (if isVlab c then Some c else vlab)
          (children ++ [c]) dri.
Proof. destruct c; reflexivity. Qed.

Lemma AddChild_Vttc_last (c : Box) (vsid iden ctim sttg payl : option Box)
    (children : list Box) :
  AddChild (VttcBox vsid iden ctim sttg payl children) c =
  VttcBox (if isVsid c then Some c else vsid) (if isIden c then Some c else iden)
          (if isCtim c then Some c else ctim) (if isSttg c then Some c else sttg)
          (if isPayl c then Some c else payl) (children ++ [c]).
Proof. destruct c; reflexivity. Qed.

(** X1.  A sequence of [AddChild] calls on a [WvttBox] appends the boxes to
    [Children] in the order of the calls, whatever their types; afterwards
    [VttC] is the last [vttC] box that was added and [Vlab] the last
    [vlab] box, each field staying as it was when no box of its type was
    added.  The data reference index is not touched. *)
Theorem WvttBox_AddChild_sequence (cs : list Box) (vttC vlab : option Box)
    (children : list Box) (dri : Z) :
  fold_left AddChild cs (WvttBox vttC vlab children dri) =
  WvttBox (lastOf isVttC cs vttC) (lastOf isVlab cs vlab) (children ++ cs) dri.
Proof.
  induction cs as [|c cs IH] using rev_ind.
  - cbn. rewrite app_nil_r. reflexivity.
  - rewrite fold_left_app, IH. cbn [fold_left].
    rewrite AddChild_Wvtt_last, !lastOf_snoc, app_assoc. reflexivity.
Qed.

(** X2.  A sequence of [AddChild] calls on a [VttcBox] appends the boxes to
    [Children] in the order of the calls, whatever their types; afterwards
    each of [Vsid], [Iden], [Ctim], [Sttg], [Payl] is the last box of its
    type that was added, or is as it was when there was none. *)
Theorem VttcBox_AddChild_sequence (cs : list Box) (vsid iden ctim sttg payl : option Box)
    (children : list Box) :
  fold_left AddChild cs (VttcBox vsid iden ctim sttg payl children) =
  VttcBox (lastOf isVsid cs vsid) (lastOf isIden cs iden) (lastOf isCtim cs ctim)
          (lastOf isSttg cs sttg) (lastOf isPayl cs payl) (children ++ cs).
Proof.
  induction cs as [|c cs IH] using rev_ind.
  - cbn. rewrite app_nil_r. reflexivity.
  - rewrite fold_left_app, IH. cbn [fold_left].
    rewrite AddChild_Vttc_last, !lastOf_snoc, app_assoc. reflexivity.
Qed.

(** *** Sizes of containers *)

Lemma Size_add_child (w c : Box) :
  leaf w = false -> Size (AddChild w c) = uint64 (Size w + Size c).
Proof.
  intros Hw. destruct w; try discriminate Hw; cbn [AddChild].
  - assert (H : exists a b, WvttAddChild VttC Vlab Children DataReferenceIndex c
                            = WvttBox a b (Children ++ [c]) DataReferenceIndex)
      by (destruct c; cbn; eauto).
    destruct H as (a & b & ->). cbn [Size]. rewrite fold_left_app. reflexivity.
  - assert (H : exists a1 a2 a3 a4 a5, VttcAddChild Vsid Iden Ctim Sttg Payl Children c
                            = VttcBox a1 a2 a3 a4 a5 (Children ++ [c]))
      by (destruct c; cbn; eauto 10).
    destruct H as (a1 & a2 & a3 & a4 & a5 & ->). cbn [Size]. rewrite fold_left_app.
    reflexivity.
Qed.

(** X3.  Adding children to a container, [wvtt] or [vttc], makes its
    [Size()] grow by the sum of their [Size()], as [uint64]: by the
    [Size()] of the child, for one call. *)
Theorem Size_AddChild (w : Box) (cs : list Box) :
  leaf w = false ->
  Size (fold_left AddChild cs w) = uint64 (Size w + sum_sizes cs).
Proof.
  intros Hw. revert w Hw. induction cs as [|c cs IH]; intros w Hw;
    cbn [fold_left sum_sizes].
  - rewrite Z.add_0_r. symmetry. apply uint64_small, Size_range.
  - rewrite (IH _ (AddChild_container w c Hw)), (Size_add_child w c Hw), uint64_add_l.
    f_equal. lia.
Qed.

Lemma Size_AddChild_witness :
  Size (fold_left AddChild [VttCBox (str "WEBVTT"); VlabBox (str "en")] NewWvttBox)
  = uint64 (Size NewWvttBox + sum_sizes [VttCBox (str "WEBVTT"); VlabBox (str "en")]).
Proof.
  apply (Size_AddChild NewWvttBox [VttCBox (str "WEBVTT"); VlabBox (str "en")]).
  reflexivity.
Defined.

(** *** The loop of [DecodeWvtt] *)

Lemma uint64_add_r (a b : Z) : uint64 (a + uint64 b) = uint64 (a + b).
Proof. unfold uint64. apply Zplus_mod_idemp_r. Qed.

(** [pos] is the position of the box plus the [Size()] of what has been
    decoded; the loop returns the box it was given, or a box that ends at
    [endPos] or before. *)
Lemma wvttLoop_within (decodeBox : Z -> Reader -> result (Box * Reader)) (startPos endPos : Z)
    (n : nat) :
  forall (w w' : Box) (pos : Z) (r : Reader),
    leaf w = false ->
    pos = uint64 (startPos + Size w) ->
    wvttLoop decodeBox n endPos w pos r = Ok w' ->
    w' = w \/ uint64 (startPos + Size w') <= endPos.
Proof.
  induction n as [|n IH]; intros w w' pos r Hw Hpos H; cbn [wvttLoop] in H; [discriminate|].
  destruct (decodeBox pos r) as [[box r1]|e|]; [| |discriminate].
  - assert (Hpos1 : uint64 (pos + Size box) = uint64 (startPos + Size (AddChild w box))).
    { rewrite Hpos, (Size_add_child w box Hw), uint64_add_l, uint64_add_r.
      f_equal. lia. }
    destruct (uint64 (pos + Size box) =? endPos) eqn:Eeq.
    + injection H as <-. right. apply Z.eqb_eq in Eeq. lia.
    + destruct (uint64 (pos + Size box) >? endPos) eqn:Egt; [discriminate|].
      rewrite Z.gtb_ltb in Egt. apply Z.ltb_ge in Egt.
      destruct (IH _ _ _ _ (AddChild_container w box Hw) Hpos1 H) as [-> | Hle];
        right; lia.
  - destruct e; try discriminate H. injection H as <-. left. reflexivity.
Qed.

(** X4.  Whatever box decoder it calls for its children, when [DecodeWvtt]
    returns a box with children, the box ends where its header says or
    before: the position of the box plus its [Size()], as [uint64], is at
    most the position plus the size of the header.  A box that would end
    beyond is refused. *)
Theorem DecodeWvtt_within_header (decodeBox : Z -> Reader -> result (Box * Reader))
    (n : nat) (hdr : boxHeader) (startPos : Z) (r r' : Reader) (w : Box) :
  DecodeWvtt decodeBox n hdr startPos r = Ok (w, r') ->
  children w = [] \/ uint64 (startPos + Size w) <= uint64 (startPos + size hdr).
Proof.
  unfold DecodeWvtt, ReadAll. intros H.
  destruct (fault r) as [[]|]; try discriminate H.
  all: inv_bind H; destruct a as [dri s]; inv_bind H; inv_bind H; injection H as <- _.
  all: apply (wvttLoop_within decodeBox startPos) in E1;
    [ destruct E1 as [-> | Hle]; [left; reflexivity | right; exact Hle]
    | reflexivity
    | cbn [Size fold_left]; rewrite uint64_add_r; reflexivity ].
Qed.

Lemma DecodeWvtt_within_header_witness :
  children sampleDecoded = [] \/
  uint64 (0 + Size sampleDecoded) <= uint64 (0 + size (MkHeader (str "wvtt") 81 None)).
Proof.
  apply (DecodeWvtt_within_header (DecodeBox 9) 9 (MkHeader (str "wvtt") 81 None) 0
           (reader_of (drop 8 sampleBytes)) (MkReader [] None) sampleDecoded).
  vm_compute. reflexivity.
Defined.

(** X5.  [DecodeWvtt] does not look at the six reserved bytes that start
    the payload: two payloads that differ in these bytes only are decoded
    alike. *)
Theorem DecodeWvtt_reserved_ignored (decodeBox : Z -> Reader -> result (Box * Reader))
    (n : nat) (hdr : boxHeader) (startPos : Z) (reserved reserved' tail : list byte)
    (flt : option error) :
  length reserved = 6%nat -> length reserved' = 6%nat ->
  DecodeWvtt decodeBox n hdr startPos (MkReader (reserved ++ tail) flt) =
  DecodeWvtt decodeBox n hdr startPos (MkReader (reserved' ++ tail) flt).
Proof.
  intros H6 H6'.
  destruct reserved as [|a0 [|a1 [|a2 [|a3 [|a4 [|a5 [|]]]]]]]; try discriminate H6.
  destruct reserved' as [|b0 [|b1 [|b2 [|b3 [|b4 [|b5 [|]]]]]]]; try discriminate H6'.
  unfold DecodeWvtt, ReadAll. cbn [avail fault].
  destruct flt as [[]|]; try reflexivity.
  all: unfold ReadUint16, RemainingBytes, SkipBytes, NewSliceReader, reslice, cap;
    cbn [rslice rpos backing slen app length drop Nat.add];
    match goal with
    | |- context [if ?c then _ else _] => destruct c; [|reflexivity]
    end;
    cbn [mbind result_bind];
    match goal with
    | |- context [Uint16 ?x] => destruct (Uint16 x); [|reflexivity|reflexivity]
    end;
    cbn [mbind result_bind rslice rpos backing slen length drop];
    match goal with
    | |- context [if ?c then _ else _] => destruct c; reflexivity
    end.
Qed.


Lemma DecodeWvtt_reserved_ignored_witness :
  DecodeWvtt (DecodeBox 9) 9 (MkHeader (str "wvtt") 81 None) 0
    (MkReader (repeat x00 6 ++ drop 14 sampleBytes) None) =
  DecodeWvtt (DecodeBox 9) 9 (MkHeader (str "wvtt") 81 None) 0
    (MkReader ([x01; x02; x03; x04; x05; x06] ++ drop 14 sampleBytes) None).
Proof.
  apply (DecodeWvtt_reserved_ignored (DecodeBox 9) 9 (MkHeader (str "wvtt") 81 None) 0
           (repeat x00 6) [x01; x02; x03; x04; x05; x06] (drop 14 sampleBytes) None);
    reflexivity.
Defined.

(** *** The boxes that hold a text *)

(** X6.  Each of the seven decoders of a text box keeps the payload as it
    is, byte for byte and whatever the bytes, and uses it up, whether the
    reader ends without error or with [io.EOF], which [ReadAll] does not
    take for an error; [Encode] of the box that it returns writes the
    header and then these same bytes.  When the reader reports an error
    other than [io.EOF], the decoder returns that error. *)
Theorem text_payload_kept (d : decoder) (mk : list byte -> Box) (hdr : boxHeader)
    (startPos : Z) (text : list byte) (w : Writer) :
  In (d, mk) textBoxes ->
  room w = None ->
  d hdr startPos (reader_of text) = Ok (mk text, MkReader [] None) /\
  d hdr startPos (MkReader text (Some EOF)) = Ok (mk text, MkReader [] (Some EOF)) /\
  Encode (mk text) w =
    Ok (MkWriter (written w ++ header_bytes (uint64 (boxHeaderSize + len text))
                                            (Type_ (mk text)) ++ text) None) /\
  (forall (r : Reader) (e : error),
     fault r = Some e -> e <> EOF -> d hdr startPos r = Err e).
Proof.
  intros Hin Hroom. unfold textBoxes in Hin. cbn [In] in Hin.
  assert (Hd : d = decodeText mk /\
               (forall t, Size (mk t) = uint64 (boxHeaderSize + len t)) /\
               (forall t, leaf (mk t) = true) /\ (forall t, body (mk t) = t)).
  { repeat (destruct Hin as [[= <- <-]|Hin]; [repeat split|]). destruct Hin. }
  destruct Hd as (-> & HS & Hleaf & Hbody). split; [|split; [|split]].
  - apply decodeText_ok.
  - unfold decodeText. pose proof (bytes_ReadAll (MkReader text (Some EOF))) as Hb.
    unfold ReadAll in *. cbn [fst snd avail fault] in *. rewrite Hb. reflexivity.
  - rewrite (Encode_leaf _ _ (Hleaf text) Hroom), HS, Hbody. reflexivity.
  - intros r e He Hne. unfold decodeText, ReadAll. rewrite He.
    destruct e; try reflexivity. contradiction Hne. reflexivity.
Qed.

Lemma text_payload_kept_witness :
  DecodePayl (MkHeader (str "payl") 13 None) 0 (reader_of (str "hello"))
    = Ok (PaylBox (str "hello"), MkReader [] None) /\
  DecodePayl (MkHeader (str "payl") 13 None) 0 (MkReader (str "hello") (Some EOF))
    = Ok (PaylBox (str "hello"), MkReader [] (Some EOF)) /\
  Encode (PaylBox (str "hello")) new_writer =
    Ok (MkWriter (written new_writer ++
                  header_bytes (uint64 (boxHeaderSize + len (str "hello")))
                               (Type_ (PaylBox (str "hello"))) ++ str "hello") None) /\
  (forall (r : Reader) (e : error), fault r = Some e -> e <> EOF ->
     DecodePayl (MkHeader (str "payl") 13 None) 0 r = Err e).
Proof.
  apply (text_payload_kept DecodePayl PaylBox (MkHeader (str "payl") 13 None) 0
           (str "hello") new_writer).
  - cbn. tauto.
  - reflexivity.
Defined.

(** *** The boxes with a payload of four bytes *)

Lemma ReadAll_first4 (a b c d : byte) (rest : list byte) :
  ReadUint32 (NewSliceReader (ReadAll (reader_of ([a; b; c; d] ++ rest))).1.2) =
  Ok (be_value 0 [a; b; c; d],
      MkSliceReader (ReadAll (reader_of ([a; b; c; d] ++ rest))).1.2 4).
Proof.
  unfold ReadAll, ReadUint32, NewSliceReader, reslice, cap, reader_of.
  cbn [fst snd avail rslice rpos backing slen app length Nat.add Nat.leb andb drop].
  cbn [mbind result_bind]. unfold Uint32, bytes. cbn [slen backing Nat.sub take].
  reflexivity.
Qed.

(** X7.  [DecodeNmhd] and [DecodeVsid] read the first four bytes of the
    payload and use up the rest without looking at it: a payload of more
    than four bytes is decoded as its first four bytes are, with no
    error. *)
Theorem four_byte_payload_rest_ignored (hdr : boxHeader) (startPos : Z) (a b c d : byte)
    (rest : list byte) :
  DecodeNmhd hdr startPos (reader_of ([a; b; c; d] ++ rest)) =
    Ok (NmhdBox (uint8 (Z.shiftr (be_value 0 [a; b; c; d]) 24))
                (Z.land (be_value 0 [a; b; c; d]) flagsMask), MkReader [] None) /\
  DecodeVsid hdr startPos (reader_of ([a; b; c; d] ++ rest)) =
    Ok (VsidBox (be_value 0 [a; b; c; d]), MkReader [] None).
Proof.
  split.
  - unfold DecodeNmhd.
    pose proof (ReadAll_first4 a b c d rest) as H. unfold ReadAll in *.
    cbn [fst snd fault reader_of] in *. rewrite H. reflexivity.
  - unfold DecodeVsid, ReadAll, reslice, cap, reader_of.
    cbn [fst snd avail fault backing slen app length Nat.leb andb drop].
    cbn [mbind result_bind]. unfold Uint32, bytes. cbn [slen backing Nat.sub take].
    reflexivity.
Qed.

(** X8.  What [NmhdBox.Encode] writes after the header is decoded by
    [DecodeNmhd] to the flags modulo 2^24 and to the version plus the bits
    of the flags from the 24th on, modulo 256: the box comes back as it was
    exactly when its flags are below 2^24. *)
Theorem NmhdBox_encode_decode (version flags : Z) (hdr : boxHeader) (startPos : Z) :
  0 <= version < 256 ->
  0 <= flags < 2 ^ 32 ->
  exists payload,
    encode (NmhdBox version flags) = Ok (header_bytes 12 (str "nmhd") ++ payload) /\
    DecodeNmhd hdr startPos (reader_of payload) =
      Ok (NmhdBox (uint8 (version + flags / 2 ^ 24)) (flags mod 2 ^ 24), MkReader [] None) /\
    (NmhdBox (uint8 (version + flags / 2 ^ 24)) (flags mod 2 ^ 24) = NmhdBox version flags
     <-> flags < 2 ^ 24).
Proof.
  intros Hv Hf. exists (body (NmhdBox version flags)). split; [|split].
  - apply (encode_leaf (NmhdBox version flags)). reflexivity.
  - cbn [body]. set (w := uint32 (uint32 (Z.shiftl version 24) + flags)).
    assert (Hw : 0 <= w <= maxUint32).
    { unfold w, uint32, maxUint32.
      pose proof (Z.mod_pos_bound (Z.shiftl version 24 mod 2 ^ 32 + flags) (2 ^ 32)). lia. }
    unfold PutUint32. unfold reader_of. rewrite DecodeNmhd_4.
    change [byte_of_Z (w / 2 ^ 24); byte_of_Z (w / 2 ^ 16); byte_of_Z (w / 2 ^ 8); byte_of_Z w]
      with (PutUint32 w).
    rewrite (be_value_PutUint32 w Hw).
    assert (Hword : w = uint8 (version + flags / 2 ^ 24) * 2 ^ 24 + flags mod 2 ^ 24).
    { unfold w, uint32, uint8. rewrite Z.shiftl_mul_pow2, Zplus_mod_idemp_l by lia.
      change (2 ^ 24) with 16777216. change (2 ^ 8) with 256.
      change (2 ^ 32) with 4294967296 in *.
      symmetry. apply (Z.mod_unique _ _ ((version + flags / 16777216) / 256)).
      - left. Z.div_mod_to_equations. lia.
      - Z.div_mod_to_equations. lia. }
    assert (Hr : 0 <= uint8 (version + flags / 2 ^ 24) < 256)
      by (unfold uint8; apply Z.mod_pos_bound; lia).
    assert (Hl : 0 <= flags mod 2 ^ 24 < 2 ^ 24) by (apply Z.mod_pos_bound; lia).
    rewrite Hword. f_equal. f_equal. f_equal.
    + rewrite Z.shiftr_div_pow2 by lia.
      rewrite Z.div_add_l, (Z.div_small (flags mod 2 ^ 24)), Z.add_0_r by lia.
      unfold uint8. apply Z.mod_mod. lia.
    + change flagsMask with (Z.ones 24). rewrite Z.land_ones by lia.
      rewrite Z.add_comm, Z.mod_add by lia. apply Z.mod_mod. lia.
  - unfold uint8. change (2 ^ 24) with 16777216. change (2 ^ 8) with 256.
    change (2 ^ 32) with 4294967296 in *. split.
    + intros [= H1 H2]. Z.div_mod_to_equations. lia.
    + intros Hlt. f_equal; Z.div_mod_to_equations; lia.
Qed.

Lemma NmhdBox_encode_decode_witness :
  exists payload,
    encode (NmhdBox 1 0x01020304) = Ok (header_bytes 12 (str "nmhd") ++ payload) /\
    DecodeNmhd (MkHeader (str "nmhd") 12 None) 0 (reader_of payload) =
      Ok (NmhdBox (uint8 (1 + 0x01020304 / 2 ^ 24)) (0x01020304 mod 2 ^ 24),
          MkReader [] None) /\
    (NmhdBox (uint8 (1 + 0x01020304 / 2 ^ 24)) (0x01020304 mod 2 ^ 24)
       = NmhdBox 1 0x01020304
     <-> 0x01020304 < 2 ^ 24).
Proof.
  apply (NmhdBox_encode_decode 1 0x01020304 (MkHeader (str "nmhd") 12 None) 0); lia.
Defined.

(** *** Encoding then decoding *)




(** *** The containers that the decoders return *)

Lemma AddChild_consistent (w c : Box) :
  leaf w = false -> consistent w -> consistent (AddChild w c).
Proof.
  intros Hw Hc. destruct w; try discriminate Hw; cbn [consistent] in Hc.
  - destruct Hc as (-> & ->). rewrite AddChild_Wvtt_last. cbn [consistent].
    rewrite !lastOf_snoc. split; reflexivity.
  - destruct Hc as (-> & -> & -> & -> & ->). rewrite AddChild_Vttc_last.
    cbn [consistent]. rewrite !lastOf_snoc. repeat split; reflexivity.
Qed.

Lemma fold_AddChild_consistent (cs : list Box) :
  forall w, leaf w = false -> consistent w ->
            leaf (fold_left AddChild cs w) = false /\ consistent (fold_left AddChild cs w).
Proof.
  induction cs as [|c cs IH]; intros w Hw Hc; cbn [fold_left]; [auto|].
  apply IH; [apply AddChild_container, Hw | apply AddChild_consistent; assumption].
Qed.

Lemma wvttLoop_consistent (decodeBox : Z -> Reader -> result (Box * Reader)) (endPos : Z)
    (n : nat) :
  forall (w w' : Box) (pos : Z) (r : Reader),
    leaf w = false -> consistent w ->
    wvttLoop decodeBox n endPos w pos r = Ok w' ->
    leaf w' = false /\ consistent w'.
Proof.
  induction n as [|n IH]; intros w w' pos r Hw Hc H; cbn [wvttLoop] in H; [discriminate|].
  destruct (decodeBox pos r) as [[box r1]|e|]; [| |discriminate].
  - pose proof (AddChild_container w box Hw) as Hw1.
    pose proof (AddChild_consistent w box Hw Hc) as Hc1.
    destruct (uint64 (pos + Size box) =? endPos).
    + injection H as <-. auto.
    + destruct (uint64 (pos + Size box) >? endPos); [discriminate|].
      exact (IH _ _ _ _ Hw1 Hc1 H).
  - destruct e; try discriminate H. injection H as <-. auto.
Qed.

(** X10.  Whatever box decoder they call for the children, the box that
    [DecodeWvtt] or [DecodeVttc] returns is a container whose typed fields
    go with its children: each field is the last child of its type, and
    is nil when [Children] has no box of that type. *)
Theorem decoded_container_consistent (decodeBox : Z -> Reader -> result (Box * Reader))
    (n : nat) (hdr : boxHeader) (startPos : Z) (r r' : Reader) (b : Box) :
  DecodeWvtt decodeBox n hdr startPos r = Ok (b, r') \/
  DecodeVttc decodeBox n hdr startPos r = Ok (b, r') ->
  leaf b = false /\ consistent b.
Proof.
  intros [H|H].
  - unfold DecodeWvtt, ReadAll in H. destruct (fault r) as [[]|]; try discriminate H.
    all: inv_bind H; destruct a as [dri s]; inv_bind H; inv_bind H; injection H as <- _.
    all: apply (wvttLoop_consistent decodeBox) in E1;
      [exact E1 | reflexivity | cbn [consistent]; split; reflexivity].
  - unfold DecodeVttc in H. inv_bind H. destruct a as [l r1]. injection H as <- _.
    apply fold_AddChild_consistent; [reflexivity|]. cbn [consistent]. repeat split.
Qed.

Lemma decoded_container_consistent_witness :
  leaf sampleDecoded = false /\ consistent sampleDecoded.
Proof.
  apply (decoded_container_consistent (DecodeBox 9) 9 (MkHeader (str "wvtt") 81 None) 0
           (reader_of (drop 8 sampleBytes)) (MkReader [] None) sampleDecoded).
  left. vm_compute. reflexivity.
Defined.

(** *** The bytes of a sample entry *)

Lemma plain_size_child (cs : list Box) (c : Box) :
  In c cs -> plain_size c <= plain_sizes cs.
Proof.
  induction cs as [|x cs IH]; intros Hin; [destruct Hin|].
  unfold plain_sizes in *. cbn [fold_right].
  pose proof (plain_sizes_nonneg cs) as Hn. unfold plain_sizes in Hn.
  destruct Hin as [->|Hin].
  - lia.
  - pose proof (IH Hin). pose proof (plain_size_min x). lia.
Qed.

(** X11.  What [WvttBox.Encode] writes, when it is at most 2^32 - 1 bytes:
    the header, with the length of it all for the size; six zero bytes;
    the data reference index on two bytes, the high one first; and then
    what [Encode] writes for each child, in the order of [Children].  The
    typed fields [VttC] and [Vlab] play no part. *)
Theorem WvttBox_Encode_layout (vttC vlab : option Box) (cs : list Box) (dri : Z)
    (out : list byte) :
  encode (WvttBox vttC vlab cs dri) = Ok out ->
  len out <= maxUint32 ->
  exists outs : list (list byte),
    Forall2 (fun c o => encode c = Ok o) cs outs /\
    out = header_bytes (len out) (str "wvtt") ++ repeat x00 6 ++ PutUint16 dri ++ concat outs.
Proof.
  intros Henc Hlen. set (b := WvttBox vttC vlab cs dri) in *.
  assert (Hle : plain_size b <= maxUint32).
  { unfold encode in Henc. inv_bind Henc. injection Henc as <-.
    destruct (Encode_at_least b new_writer a E) as (o & Ho & Hge).
    cbn [written new_writer app] in Ho. rewrite Ho in Hlen. lia. }
  assert (Hout : out = enc b).
  { unfold encode in Henc. rewrite (Encode_enc b Hle new_writer eq_refl) in Henc.
    cbn [mbind result_bind written new_writer app] in Henc. congruence. }
  exists (map enc cs). split.
  - apply Forall2_fmap_r, Forall_Forall2_diag, Forall_forall. intros c Hin.
    apply list_elem_of_In in Hin.
    assert (Hc : plain_size c <= maxUint32).
    { pose proof (plain_size_child cs c Hin) as H. unfold b in Hle. cbn [plain_size] in Hle.
      unfold plain_sizes in H. lia. }
    unfold encode. rewrite (Encode_enc c Hc new_writer eq_refl). reflexivity.
  - rewrite Hout at 1. rewrite Hout, (len_enc b Hle), <- (Size_plain b Hle).
    reflexivity.
Qed.

Lemma WvttBox_Encode_layout_witness :
  exists outs : list (list byte),
    Forall2 (fun c o => encode c = Ok o) [VttCBox (str "WEBVTT"); VtteBox] outs /\
    header_bytes 38 (str "wvtt") ++ repeat x00 6 ++ PutUint16 1 ++
      (header_bytes 14 (str "vttC") ++ str "WEBVTT") ++ header_bytes 8 (str "vtte")
    = header_bytes
        (len (header_bytes 38 (str "wvtt") ++ repeat x00 6 ++ PutUint16 1 ++
                (header_bytes 14 (str "vttC") ++ str "WEBVTT") ++ header_bytes 8 (str "vtte")))
        (str "wvtt") ++ repeat x00 6 ++ PutUint16 1 ++ concat outs.
Proof.
  apply (WvttBox_Encode_layout None None [VttCBox (str "WEBVTT"); VtteBox] 1
           (header_bytes 38 (str "wvtt") ++ repeat x00 6 ++ PutUint16 1 ++
              (header_bytes 14 (str "vttC") ++ str "WEBVTT") ++ header_bytes 8 (str "vtte")));
    vm_compute; [reflexivity | discriminate].
Defined.

End BoxFacts.

(** ** Fragments *)

Module FragmentFacts.
Import Fragment.

(** *** [AddChild] *)

Lemma AddChild_well_typed (f : Fragment) (b : Box) :
  well_typed b -> exists f', AddChild f b = Ok f'.
Proof.
  unfold AddChild. destruct b as [p|p|p|typ p]; cbn; eauto.
  intros (H1 & H2 & H3).
  apply String.eqb_neq in H1, H2, H3. rewrite H1, H2, H3. cbn. eauto.
Qed.

Lemma AddChild_inv (f f' : Fragment) (b : Box) :
  AddChild f b = Ok f' ->
  accessors_in_children f ->
  accessors_in_children f' /\ Children f' = Children f ++ [b].
Proof.
  unfold AddChild, accessors_in_children. intros H (HP & HM & HD).
  assert (Hkeep : forall x, In x (Children f) -> In x (Children f ++ [b]))
    by (intros x Hx; apply in_or_app; auto).
  assert (Hnew : In b (Children f ++ [b])) by (apply in_or_app; right; left; reflexivity).
  destruct b as [p|p|p|typ p]; cbn in H.
  - injection H as <-. cbn. intuition.
  - injection H as <-. cbn. intuition.
  - injection H as <-. cbn. intuition.
  - destruct (String.eqb typ "prft"); [discriminate|].
    destruct (String.eqb typ "moof"); [discriminate|].
    destruct (String.eqb typ "mdat"); [discriminate|].
    injection H as <-. cbn. intuition.
Qed.

Lemma AddChildren_inv (bs : list Box) :
  forall f f', AddChildren f bs = Ok f' ->
    accessors_in_children f ->
    accessors_in_children f' /\ Children f' = Children f ++ bs.
Proof.
  induction bs as [|b bs IH]; intros f f' H Hinv; cbn [AddChildren] in H.
  - injection H as <-. rewrite app_nil_r. auto.
  - inv_bind H. destruct (AddChild_inv _ _ _ E Hinv) as [Hinv1 Hc1].
    destruct (IH _ _ H Hinv1) as [Hinv2 Hc2]. split; [exact Hinv2|].
    rewrite Hc2, Hc1, <- app_assoc. reflexivity.
Qed.

Lemma AddChildren_well_typed (bs : list Box) :
  forall f, Forall well_typed bs -> exists f', AddChildren f bs = Ok f'.
Proof.
  induction bs as [|b bs IH]; intros f Hall; cbn [AddChildren]; [eauto|].
  inversion Hall as [|? ? Hb Hbs]; subst.
  destruct (AddChild_well_typed f b Hb) as [f1 ->]. cbn [mbind result_bind].
  apply IH, Hbs.
Qed.

(** A sequence with a box whose [Type()] does not go with its struct
    panics, at the first such box. *)
Lemma AddChildren_ill_typed (bs : list Box) :
  forall f, ~ Forall well_typed bs -> AddChildren f bs = Panic.
Proof.
  induction bs as [|b bs IH]; intros f Hnot; [destruct Hnot; constructor|].
  cbn [AddChildren].
  assert (Hrest : well_typed b -> ~ Forall well_typed bs)
    by (intros Hb Hall; apply Hnot; constructor; assumption).
  destruct b as [p|p|p|typ p]; try (cbn; apply IH, Hrest, I).
  unfold AddChild at 1. cbn [Type_].
  destruct (String.eqb_spec typ "prft") as [->|H1]; [reflexivity|].
  destruct (String.eqb_spec typ "moof") as [->|H2]; [reflexivity|].
  destruct (String.eqb_spec typ "mdat") as [->|H3]; [reflexivity|].
  cbn. apply IH, Hrest. cbn. auto.
Qed.

(** C10 (as amended).  Any sequence of [AddChild] calls on a new fragment
    with boxes whose [Type()] goes with their struct, of any types, returns;
    afterwards [Prft], [Moof] and [Mdat] are each nil or the pointer of an
    element of [Children], and [Children] holds the boxes that were added,
    all of them, in the order of the calls. *)
Theorem AddChild_accessors_and_order (bs : list Box) :
  Forall well_typed bs ->
  exists f, AddChildren NewFragment bs = Ok f /\
            accessors_in_children f /\ Children f = bs.
Proof.
  intros Hall. destruct (AddChildren_well_typed bs NewFragment Hall) as [f Hf].
  exists f. split; [exact Hf|].
  apply (AddChildren_inv bs NewFragment f Hf).
  unfold accessors_in_children, NewFragment. cbn. auto.
Qed.

Lemma AddChild_accessors_and_order_witness :
  exists f,
    AddChildren NewFragment
      [OtherBox "styp" (Some 9%positive); PrftBox (Some 1%positive);
       MoofBoxRef (Some 2%positive); MdatBoxRef (Some 3%positive);
       OtherBox "free" None] = Ok f /\
    accessors_in_children f /\
    Children f =
      [OtherBox "styp" (Some 9%positive); PrftBox (Some 1%positive);
       MoofBoxRef (Some 2%positive); MdatBoxRef (Some 3%positive);
       OtherBox "free" None].
Proof.
  apply (AddChild_accessors_and_order
           [OtherBox "styp" (Some 9%positive); PrftBox (Some 1%positive);
            MoofBoxRef (Some 2%positive); MdatBoxRef (Some 3%positive);
            OtherBox "free" None]).
  repeat constructor; discriminate.
Defined.

(** C10, as stated, fails: on a box whose [Type()] is [moof] and whose
    struct is not [MoofBox], the type assertion of [AddChild] panics; the
    box is not appended, and the sequence of calls gives no fragment. *)
Lemma AddChild_accessors_and_order_counterexample :
  AddChild NewFragment (OtherBox "moof" (Some 1%positive)) = Panic /\
  ~ exists f, AddChildren NewFragment [OtherBox "moof" (Some 1%positive)] = Ok f /\
              accessors_in_children f /\
              Children f = [OtherBox "moof" (Some 1%positive)].
Proof. split; [reflexivity | intros (f & H & _); discriminate H]. Qed.

(** *** Computations on the store *)

Lemma bind_ok {A B : Type} (m : M A) (k : A -> M B) (h h1 : heap) (a : A) :
  m h = Ok (a, h1) -> (x ← m; k x) h = k a h1.
Proof. intros H. unfold mbind, M_bind. rewrite H. reflexivity. Qed.

Lemma bind_inv {A B : Type} (m : M A) (k : A -> M B) (h h2 : heap) (b : B) :
  (x ← m; k x) h = Ok (b, h2) ->
  exists a h1, m h = Ok (a, h1) /\ k a h1 = Ok (b, h2).
Proof.
  unfold mbind, M_bind. destruct (m h) as [[a h1]|e|]; try discriminate. eauto.
Qed.

Lemma load_inv (p : ptr) (h h' : heap) (o : object) :
  load p h = Ok (o, h') -> h' = h /\ points_to h p o.
Proof.
  unfold load, points_to. destruct p as [l|]; [|discriminate].
  destruct (h !! l) eqn:E; [|discriminate]. intros [= <- <-]. eauto.
Qed.

Lemma load_points_to (p : ptr) (h : heap) (o : object) :
  points_to h p o -> load p h = Ok (o, h).
Proof. intros (l & -> & H). unfold load. rewrite H. reflexivity. Qed.

Ltac load_kind :=
  intros H; apply bind_inv in H as (o & h1 & Hl & H);
  apply load_inv in Hl as (-> & Hp); destruct o; try discriminate H;
  injection H as <- <-; auto.

Lemma load_moof_inv (p : ptr) (h h' : heap) (b : MoofBox) :
  load_moof p h = Ok (b, h') -> h' = h /\ points_to h p (OMoof b).
Proof. unfold load_moof. load_kind. Qed.

Lemma load_traf_inv (p : ptr) (h h' : heap) (b : TrafBox) :
  load_traf p h = Ok (b, h') -> h' = h /\ points_to h p (OTraf b).
Proof. unfold load_traf. load_kind. Qed.

Lemma load_tfhd_inv (p : ptr) (h h' : heap) (b : TfhdBox) :
  load_tfhd p h = Ok (b, h') -> h' = h /\ points_to h p (OTfhd b).
Proof. unfold load_tfhd. load_kind. Qed.

Lemma load_tfdt_inv (p : ptr) (h h' : heap) (b : TfdtBox) :
  load_tfdt p h = Ok (b, h') -> h' = h /\ points_to h p (OTfdt b).
Proof. unfold load_tfdt. load_kind. Qed.

Lemma load_trun_inv (p : ptr) (h h' : heap) (b : TrunBox) :
  load_trun p h = Ok (b, h') -> h' = h /\ points_to h p (OTrun b).
Proof. unfold load_trun. load_kind. Qed.

Lemma load_mdat_inv (p : ptr) (h h' : heap) (b : MdatBox) :
  load_mdat p h = Ok (b, h') -> h' = h /\ points_to h p (OMdat b).
Proof. unfold load_mdat. load_kind. Qed.

Ltac load_ok := intros H; unfold load_moof, load_traf, load_tfhd, load_tfdt, load_trun,
  load_mdat; rewrite (bind_ok _ _ _ _ _ (load_points_to _ _ _ H)); reflexivity.

Lemma load_moof_ok (p : ptr) (h : heap) (b : MoofBox) :
  points_to h p (OMoof b) -> load_moof p h = Ok (b, h).
Proof. load_ok. Qed.

Lemma load_traf_ok (p : ptr) (h : heap) (b : TrafBox) :
  points_to h p (OTraf b) -> load_traf p h = Ok (b, h).
Proof. load_ok. Qed.

Lemma load_tfhd_ok (p : ptr) (h : heap) (b : TfhdBox) :
  points_to h p (OTfhd b) -> load_tfhd p h = Ok (b, h).
Proof. load_ok. Qed.

Lemma load_tfdt_ok (p : ptr) (h : heap) (b : TfdtBox) :
  points_to h p (OTfdt b) -> load_tfdt p h = Ok (b, h).
Proof. load_ok. Qed.

Lemma load_trun_ok (p : ptr) (h : heap) (b : TrunBox) :
  points_to h p (OTrun b) -> load_trun p h = Ok (b, h).
Proof. load_ok. Qed.

Lemma load_mdat_ok (p : ptr) (h : heap) (b : MdatBox) :
  points_to h p (OMdat b) -> load_mdat p h = Ok (b, h).
Proof. load_ok. Qed.

(** A store leaves the boxes at other addresses as they are. *)
Lemma points_to_insert_ne (h : heap) (l : loc) (o o' : object) (p : ptr) :
  p <> Some l -> points_to h p o' -> points_to (<[l := o]> h) p o'.
Proof.
  intros Hne (l' & -> & H). exists l'. split; [reflexivity|].
  rewrite lookup_insert_ne; [exact H | congruence].
Qed.

Lemma points_to_insert (h : heap) (l : loc) (o : object) :
  points_to (<[l := o]> h) (Some l) o.
Proof. exists l. split; [reflexivity | apply lookup_insert_eq]. Qed.

Lemma points_to_fun (h : heap) (p : ptr) (o o' : object) :
  points_to h p o -> points_to h p o' -> o = o'.
Proof. intros (l & -> & H) (l' & [= <-] & H'). congruence. Qed.

(** *** [AddFullSample] *)

Lemma store_ok (l : loc) (o : object) (h : heap) :
  store (Some l) o h = Ok (tt, <[l := o]> h).
Proof. reflexivity. Qed.

(** C8.  On a fragment whose first [traf] has its [trun] and [tfdt], and
    which has its [mdat], [AddFullSample] returns; it sets the base media
    decode time to the decode time of the sample exactly when the run had
    no sample before the call (otherwise the [tfdt] is as it was), and in
    both cases the sample is appended to the run and its data to the
    [mdat].  Every other box is left as it was. *)
Theorem AddFullSample_first_sample (f : Fragment) (s : FullSample) (h : heap)
    (m : MoofBox) (tr : TrafBox) (t : TrunBox) (td : TfdtBox) (md : MdatBox) :
  points_to h (Moof f) (OMoof m) ->
  points_to h (Traf m) (OTraf tr) ->
  points_to h (Trun tr) (OTrun t) ->
  points_to h (Tfdt tr) (OTfdt td) ->
  points_to h (Mdat f) (OMdat md) ->
  exists h',
    AddFullSample f s h = Ok (tt, h') /\
    points_to h' (Tfdt tr)
      (OTfdt (if SampleCount t =? 0 then MkTfdt (DecodeTime s) else td)) /\
    points_to h' (Trun tr) (OTrun (AddSample t (sample s))) /\
    points_to h' (Mdat f) (OMdat (AddSampleData md (Data s))) /\
    (forall l, Some l <> Tfdt tr -> Some l <> Trun tr -> Some l <> Mdat f ->
               h' !! l = h !! l).
Proof.
  intros Hm Htr Ht Htd Hmd.
  pose proof Ht as (ln & En & Hn). pose proof Htd as (ld & Ed & Hd).
  pose proof Hmd as (lx & Ex & Hx).
  assert (Hnd : ln <> ld) by congruence.
  assert (Hnx : ln <> lx) by congruence.
  assert (Hdx : ld <> lx) by congruence.
  set (h1 := if SampleCount t =? 0 then <[ld := OTfdt (MkTfdt (DecodeTime s))]> h else h).
  assert (Ht1 : points_to h1 (Trun tr) (OTrun t)).
  { unfold h1. destruct (SampleCount t =? 0); [|exact Ht].
    apply points_to_insert_ne; [congruence | exact Ht]. }
  assert (Hmd1 : points_to h1 (Mdat f) (OMdat md)).
  { unfold h1. destruct (SampleCount t =? 0); [|exact Hmd].
    apply points_to_insert_ne; [congruence | exact Hmd]. }
  exists (<[lx := OMdat (AddSampleData md (Data s))]>
            (<[ln := OTrun (AddSample t (sample s))]> h1)).
  split; [|split; [|split; [|split]]].
  - unfold AddFullSample.
    rewrite (bind_ok _ _ _ _ _ (load_moof_ok _ _ _ Hm)).
    rewrite (bind_ok _ _ _ _ _ (load_traf_ok _ _ _ Htr)).
    rewrite (bind_ok _ _ _ _ _ (load_trun_ok _ _ _ Ht)).
    match goal with
    | |- mbind _ ?step h = _ =>
        assert (Hstep : step h = Ok (tt, h1));
        [|rewrite (bind_ok step _ h h1 tt Hstep)]
    end.
    { unfold h1. destruct (SampleCount t =? 0); [|reflexivity].
      rewrite (bind_ok _ _ _ _ _ (load_tfdt_ok _ _ _ Htd)). rewrite Ed. reflexivity. }
    rewrite (bind_ok _ _ _ _ _ (load_trun_ok _ _ _ Ht1)).
    rewrite En at 1. rewrite (bind_ok _ _ _ _ _ (store_ok _ _ _)).
    assert (Hmd2 : points_to (<[ln := OTrun (AddSample t (sample s))]> h1)
                             (Mdat f) (OMdat md))
      by (apply points_to_insert_ne; [congruence | exact Hmd1]).
    rewrite (bind_ok _ _ _ _ _ (load_mdat_ok _ _ _ Hmd2)).
    rewrite Ex. reflexivity.
  - rewrite Ed. exists ld. split; [reflexivity|].
    rewrite !lookup_insert_ne by congruence. unfold h1.
    destruct (SampleCount t =? 0); [apply lookup_insert_eq | exact Hd].
  - rewrite En. exists ln. split; [reflexivity|].
    rewrite lookup_insert_ne by congruence. apply lookup_insert_eq.
  - rewrite Ex. apply points_to_insert.
  - intros l Hl1 Hl2 Hl3. rewrite Ed in Hl1. rewrite En in Hl2. rewrite Ex in Hl3.
    rewrite !lookup_insert_ne by congruence. unfold h1.
    destruct (SampleCount t =? 0); [|reflexivity].
    rewrite lookup_insert_ne by congruence. reflexivity.
Qed.

Lemma CreateFragment_1 : CreateFragment 7 1 ∅ = Ok fragment1.
Proof. vm_compute. reflexivity. Qed.

Lemma AddFullSample_first_sample_witness :
  exists h',
    AddFullSample fragment1.1 sample1 fragment1.2 = Ok (tt, h') /\
    points_to h' (Tfdt traf1)
      (OTfdt (if SampleCount emptyTrun =? 0 then MkTfdt (DecodeTime sample1)
              else MkTfdt 0)) /\
    points_to h' (Trun traf1) (OTrun (AddSample emptyTrun (sample sample1))) /\
    points_to h' (Mdat fragment1.1)
      (OMdat (AddSampleData (MkMdat 0 []) (Data sample1))) /\
    (forall l, Some l <> Tfdt traf1 -> Some l <> Trun traf1 ->
               Some l <> Mdat fragment1.1 -> h' !! l = fragment1.2 !! l).
Proof.
  apply (AddFullSample_first_sample fragment1.1 sample1 fragment1.2 moof1 traf1
           emptyTrun (MkTfdt 0) (MkMdat 0 []));
    eexists; (split; [reflexivity | vm_compute; reflexivity]).
Defined.

(** *** [AddFullSampleToTrack] *)

(** The loop only reads the store, and it leaves [traf] nil only when it
    has nothing to go through. *)
Lemma rangeTrafs_inv (trafs : list ptr) (trackID : Z) :
  forall (traf p : ptr) (h h' : heap),
    rangeTrafs trafs trackID traf h = Ok (p, h') ->
    h' = h /\ (p = None -> trafs = [] /\ traf = None).
Proof.
  induction trafs as [|next rest IH]; intros traf p h h' H; cbn [rangeTrafs] in H.
  - injection H as <- <-. auto.
  - apply bind_inv in H as (t & h1 & Ht & H). apply load_traf_inv in Ht as (-> & Hpt).
    apply bind_inv in H as (th & h1 & Hth & H). apply load_tfhd_inv in Hth as (-> & _).
    destruct Hpt as (l & -> & _).
    destruct (TrackID th =? trackID).
    + injection H as <- <-. split; [reflexivity | discriminate].
    + destruct (IH _ _ _ _ H) as (-> & Hnone). split; [reflexivity|].
      intros Hp. destruct (Hnone Hp) as [_ Hcontra]. discriminate.
Qed.

(** Whenever [AddFullSampleToTrack] returns, the store is as it was: no
    sample has been added, no data appended; and the error is returned
    only for a [moof] without any [traf]. *)
Lemma AddFullSampleToTrack_inv (f : Fragment) (s : FullSample) (trackID : Z)
    (h h' : heap) (err : option error) :
  AddFullSampleToTrack f s trackID h = Ok (err, h') ->
  h' = h /\
  (err <> None -> exists m, points_to h (Moof f) (OMoof m) /\ Trafs m = []).
Proof.
  unfold AddFullSampleToTrack. intros H.
  apply bind_inv in H as (m & h1 & Hm & H). apply load_moof_inv in Hm as (-> & Hm).
  apply bind_inv in H as (traf & h1 & Hr & H).
  apply rangeTrafs_inv in Hr as (-> & Hnone).
  destruct traf as [l|].
  - injection H as <- <-. split; [reflexivity|]. intros Hcontra. congruence.
  - injection H as <- <-. split; [reflexivity|]. intros _.
    exists m. split; [exact Hm | apply Hnone; reflexivity].
Qed.

(** C2, on the code: the fragment of [CreateFragment(7, 1)] has one track,
    with ID 1; asked for track 2, [AddFullSampleToTrack] returns nil, not an
    error. *)
Lemma AddFullSampleToTrack_unknown_track :
  AddFullSampleToTrack fragment1.1 sample1 2 fragment1.2 = Ok (None, fragment1.2).
Proof. vm_compute. reflexivity. Qed.

(** C3, on the code: asked for track 1, which the fragment has,
    [AddFullSampleToTrack] returns nil and leaves the store as it was: the
    run still has no sample and the [mdat] no data. *)
Lemma AddFullSampleToTrack_adds_nothing :
  AddFullSampleToTrack fragment1.1 sample1 1 fragment1.2 = Ok (None, fragment1.2) /\
  points_to fragment1.2 (Trun traf1) (OTrun emptyTrun) /\
  points_to fragment1.2 (Mdat fragment1.1) (OMdat (MkMdat 0 [])).
Proof.
  split; [vm_compute; reflexivity|].
  split; eexists; (split; [reflexivity | vm_compute; reflexivity]).
Qed.

(** *** The base offset of a run *)

Lemma uint64_int64 (x : Z) : uint64 (int64 x) = uint64 x.
Proof.
  unfold uint64, int64, signed. change (64 - 1) with 63.
  destruct (x mod 2 ^ 64 <? 2 ^ 63).
  - apply Z.mod_mod. lia.
  - rewrite Zminus_mod, Z.mod_mod, Z_mod_same_full, Z.sub_0_r, Z.mod_mod by lia.
    reflexivity.
Qed.

Lemma uint64_int64_add (d b : Z) : uint64 (int64 (int64 d + int64 b)) = uint64 (b + d).
Proof.
  rewrite uint64_int64. unfold uint64.
  rewrite Zplus_mod. fold (uint64 (int64 d)). fold (uint64 (int64 b)).
  rewrite !uint64_int64. unfold uint64. rewrite <- Zplus_mod. f_equal. lia.
Qed.

(** C5.  The base offset that [GetFullSamples] computes for a run is the
    one the specification describes: 0, or the base data offset of the
    [tfhd] if it has one, or else the start of the [moof] if the default
    base is the [moof]; plus the data offset of the run, a signed number,
    if the run has one.  The sum is a [uint64]. *)
Theorem runBaseOffset_spec (tfhd : TfhdBox) (moofStartPos : Z) (trun : TrunBox) :
  0 <= BaseDataOffset tfhd < 2 ^ 64 ->
  0 <= moofStartPos < 2 ^ 64 ->
  runBaseOffset tfhd moofStartPos trun = uint64 (spec_base_offset tfhd moofStartPos trun).
Proof.
  intros Hb Hm. unfold runBaseOffset, spec_base_offset.
  destruct (HasDataOffset trun).
  - apply uint64_int64_add.
  - symmetry. apply uint64_small.
    destruct (HasBaseDataOffset tfhd); [exact Hb|].
    destruct (DefaultBaseIfMoof tfhd); [exact Hm | lia].
Qed.

Lemma runBaseOffset_spec_witness :
  runBaseOffset tfhdS5 0 trunS5 = uint64 (spec_base_offset tfhdS5 0 trunS5).
Proof. apply (runBaseOffset_spec tfhdS5 0 trunS5); simpl; lia. Defined.

(** *** [moof.Traf] is the first [traf] *)

Lemma firstNonNil_snoc (ps : list ptr) (p : ptr) :
  firstNonNil (ps ++ [p]) = if firstNonNil ps is None then p else firstNonNil ps.
Proof.
  induction ps as [|[l|] ps IH]; cbn [app firstNonNil]; [destruct p| |exact IH]; reflexivity.
Qed.

(** [AddChild] keeps [Traf] on the first [traf] of [Trafs] that is not
    nil. *)
Lemma MoofAddChild_first (lm : loc) (b : child) (h h' : heap) (m : MoofBox) :
  h !! lm = Some (OMoof m) ->
  Traf m = firstNonNil (Trafs m) ->
  MoofAddChild (Some lm) b h = Ok (tt, h') ->
  exists m', h' !! lm = Some (OMoof m') /\ Traf m' = firstNonNil (Trafs m').
Proof.
  intros Hm Hfirst. unfold MoofAddChild.
  rewrite (bind_ok _ _ _ _ _ (load_moof_ok (Some lm) h m ltac:(exists lm; auto))).
  destruct b as [p|p|p|p|p]; cbn [store mret M_ret]; intros [= <-].
  - eexists. split; [apply lookup_insert_eq | exact Hfirst].
  - eexists. split; [apply lookup_insert_eq|]. cbn [Traf Trafs].
    rewrite firstNonNil_snoc, <- Hfirst. reflexivity.
  - exists m. auto.
  - exists m. auto.
  - exists m. auto.
Qed.

Lemma MoofAddChildren_first (lm : loc) (bs : list child) :
  forall (h h' : heap) (m : MoofBox),
    h !! lm = Some (OMoof m) ->
    Traf m = firstNonNil (Trafs m) ->
    MoofAddChildren (Some lm) bs h = Ok (tt, h') ->
    exists m', h' !! lm = Some (OMoof m') /\ Traf m' = firstNonNil (Trafs m').
Proof.
  induction bs as [|b bs IH]; intros h h' m Hm Hfirst H; cbn [MoofAddChildren] in H.
  - injection H as <-. eauto.
  - apply bind_inv in H as ([] & h1 & Hb & Hrest).
    destruct (MoofAddChild_first lm b h h1 m Hm Hfirst Hb) as (m1 & Hm1 & Hfirst1).
    exact (IH h1 h' m1 Hm1 Hfirst1 Hrest).
Qed.

Lemma filled_first (m : MoofBox) : filled m -> Traf m = firstNonNil (Trafs m).
Proof.
  intros (lm & sp & bs & h0 & h1 & H0 & Hadd & H1).
  destruct (MoofAddChildren_first lm bs h0 h1 _ H0 eq_refl Hadd) as (m' & Hm' & Hfirst).
  rewrite H1 in Hm'. injection Hm' as <-. exact Hfirst.
Qed.

(** *** The resolver *)

Section ResolverFacts.

Variable AddSampleDefaultValues : TrunBox -> TfhdBox -> option TrexBox -> TrunBox * Z.
Variable TrunGetFullSamples : TrunBox -> Z -> Z -> MdatBox -> result (list FullSample).

Lemma findTraf_none (h : heap) (trackID : Z) (trafs : list ptr) :
  no_traf_of h trackID trafs -> findTraf trafs trackID h = Ok (None, h).
Proof.
  induction 1 as [|traf rest (t & th & Ht & Hth & Hne) _ IH]; cbn [findTraf];
    [reflexivity|].
  rewrite (bind_ok _ _ _ _ _ (load_traf_ok _ _ _ Ht)).
  rewrite (bind_ok _ _ _ _ _ (load_tfhd_ok _ _ _ Hth)).
  apply Z.eqb_neq in Hne. rewrite Hne. exact IH.
Qed.

(** One turn of the loop, on a run whose boxes are in the store. *)
Lemma trunLoop_turn (tfhd mdat : ptr) (trex : option TrexBox) (moofStartPos : Z)
    (l : loc) (rest : list ptr) (bt : Z) (acc : list FullSample) (h : heap)
    (t0 t : TrunBox) (th : TfhdBox) (totalDur : Z) (m : MdatBox) :
  points_to h (Some l) (OTrun t0) ->
  points_to h tfhd (OTfhd th) ->
  AddSampleDefaultValues t0 th trex = (t, totalDur) ->
  points_to h mdat (OMdat m) ->
  trunLoop AddSampleDefaultValues TrunGetFullSamples tfhd mdat trex moofStartPos
           (Some l :: rest) bt acc h =
  if offsetInMdat th moofStartPos t m >? uint64 (len (MdatData m))
  then Ok (([], Some OffsetBeyondMdat), <[l := OTrun t]> h)
  else
    (more ← lift (TrunGetFullSamples t (uint32 (offsetInMdat th moofStartPos t m)) bt m);
     trunLoop AddSampleDefaultValues TrunGetFullSamples tfhd mdat trex moofStartPos
              rest (uint64 (bt + totalDur)) (acc ++ more)) (<[l := OTrun t]> h).
Proof.
  intros Ht Hth Hadd Hm. cbn [trunLoop].
  rewrite (bind_ok _ _ _ _ _ (load_trun_ok _ _ _ Ht)).
  rewrite (bind_ok _ _ _ _ _ (load_tfhd_ok _ _ _ Hth)).
  rewrite Hadd. rewrite (bind_ok _ _ _ _ _ (store_ok _ _ _)).
  assert (Hm' : points_to (<[l := OTrun t]> h) mdat (OMdat m)).
  { apply points_to_insert_ne; [|exact Hm].
    intros ->. pose proof (points_to_fun _ _ _ _ Ht Hm). discriminate. }
  rewrite (bind_ok _ _ _ _ _ (load_mdat_ok _ _ _ Hm')).
  unfold offsetInMdat.
  destruct (uint64 (runBaseOffset th moofStartPos t - PayloadAbsoluteOffset m)
            >? uint64 (len (MdatData m))); reflexivity.
Qed.

Lemma visits_trunLoop (tfhd mdat : ptr) (trex : option TrexBox) (moofStartPos : Z)
    (truns truns' : list ptr) (bt bt' : Z) (acc acc' : list FullSample) (h h' : heap) :
  visits AddSampleDefaultValues TrunGetFullSamples tfhd mdat trex moofStartPos
         truns bt acc h truns' bt' acc' h' ->
  trunLoop AddSampleDefaultValues TrunGetFullSamples tfhd mdat trex moofStartPos
           truns bt acc h =
  trunLoop AddSampleDefaultValues TrunGetFullSamples tfhd mdat trex moofStartPos
           truns' bt' acc' h'.
Proof.
  induction 1 as [|l rest bt acc h t0 t th totalDur m more truns' bt' acc' h'
                   Ht Hth Hadd Hm Hle Hmore _ IH]; [reflexivity|].
  rewrite (trunLoop_turn _ _ _ _ _ _ _ _ _ _ _ _ _ _ Ht Hth Hadd Hm).
  assert (Hgt : (offsetInMdat th moofStartPos t m >? uint64 (len (MdatData m))) = false)
    by (rewrite Z.gtb_ltb; apply Z.ltb_ge; exact Hle).
  rewrite Hgt. unfold mbind at 1, M_bind at 1, lift. rewrite Hmore. exact IH.
Qed.

(** When every run of the selected [traf] is within the data of the
    [mdat], [GetFullSamples] returns what the runs gave. *)
Lemma GetFullSamples_visits (f : Fragment) (trex : option TrexBox) (h h' : heap)
    (m : MoofBox) (traf : ptr) (t : TrafBox) (tfdt : TfdtBox) (bt' : Z)
    (acc : list FullSample) :
  points_to h (Moof f) (OMoof m) ->
  selected h m trex traf ->
  points_to h traf (OTraf t) ->
  points_to h (Tfdt t) (OTfdt tfdt) ->
  visits AddSampleDefaultValues TrunGetFullSamples (Tfhd t) (Mdat f) trex (StartPos m)
         (Truns t) (BaseMediaDecodeTime tfdt) [] h [] bt' acc h' ->
  GetFullSamples AddSampleDefaultValues TrunGetFullSamples f trex h = Ok ((acc, None), h').
Proof.
  intros Hm Hsel Ht Htfdt Hvisits. unfold GetFullSamples.
  rewrite (bind_ok _ _ _ _ _ (load_moof_ok _ _ _ Hm)).
  assert (Hfound :
    match trex with
    | Some tx => findTraf (Trafs m) (TrexTrackID tx)
    | None => mret (Some (Traf m))
    end h = Ok (Some traf, h)).
  { unfold selected in Hsel. destruct trex; [exact Hsel | rewrite Hsel; reflexivity]. }
  match goal with
  | |- mbind _ ?sel h = _ => rewrite (bind_ok sel _ h h (Some traf) Hfound)
  end.
  rewrite (bind_ok _ _ _ _ _ (load_traf_ok _ _ _ Ht)).
  rewrite (bind_ok _ _ _ _ _ (load_tfdt_ok _ _ _ Htfdt)).
  rewrite (visits_trunLoop _ _ _ _ _ _ _ _ _ _ _ _ Hvisits). reflexivity.
Qed.


(** C6.  When the loop of [GetFullSamples] has come to a run whose offset
    in the [mdat], the base offset minus the absolute offset of the
    payload as [uint64], is greater than the length of the data,
    [GetFullSamples] returns no samples and the error. *)
Theorem GetFullSamples_offset_beyond_mdat (f : Fragment) (trex : option TrexBox)
    (h h1 : heap) (m : MoofBox) (traf : ptr) (t : TrafBox) (tfdt : TfdtBox)
    (l : loc) (rest : list ptr) (bt : Z) (acc : list FullSample)
    (t0 t1 : TrunBox) (th : TfhdBox) (totalDur : Z) (md : MdatBox) :
  points_to h (Moof f) (OMoof m) ->
  selected h m trex traf ->
  points_to h traf (OTraf t) ->
  points_to h (Tfdt t) (OTfdt tfdt) ->
  visits AddSampleDefaultValues TrunGetFullSamples (Tfhd t) (Mdat f) trex (StartPos m)
         (Truns t) (BaseMediaDecodeTime tfdt) [] h (Some l :: rest) bt acc h1 ->
  points_to h1 (Some l) (OTrun t0) ->
  points_to h1 (Tfhd t) (OTfhd th) ->
  AddSampleDefaultValues t0 th trex = (t1, totalDur) ->
  points_to h1 (Mdat f) (OMdat md) ->
  offsetInMdat th (StartPos m) t1 md > uint64 (len (MdatData md)) ->
  GetFullSamples AddSampleDefaultValues TrunGetFullSamples f trex h
  = Ok (([], Some OffsetBeyondMdat), <[l := OTrun t1]> h1).
Proof.
  intros Hm Hsel Ht Htfdt Hvisits Ht0 Hth Hadd Hmd Hgt.
  unfold GetFullSamples.
  rewrite (bind_ok _ _ _ _ _ (load_moof_ok _ _ _ Hm)).
  assert (Hfound :
    match trex with
    | Some tx => findTraf (Trafs m) (TrexTrackID tx)
    | None => mret (Some (Traf m))
    end h = Ok (Some traf, h)).
  { unfold selected in Hsel. destruct trex; [exact Hsel | rewrite Hsel; reflexivity]. }
  match goal with
  | |- mbind _ ?sel h = _ => rewrite (bind_ok sel _ h h (Some traf) Hfound)
  end.
  rewrite (bind_ok _ _ _ _ _ (load_traf_ok _ _ _ Ht)).
  rewrite (bind_ok _ _ _ _ _ (load_tfdt_ok _ _ _ Htfdt)).
  rewrite (visits_trunLoop _ _ _ _ _ _ _ _ _ _ _ _ Hvisits).
  rewrite (trunLoop_turn _ _ _ _ _ _ _ _ _ _ _ _ _ _ Ht0 Hth Hadd Hmd).
  apply Z.gt_lt, Z.gtb_lt in Hgt. rewrite Hgt. reflexivity.
Qed.

End ResolverFacts.


Lemma GetFullSamples_offset_beyond_mdat_witness :
  GetFullSamples TrunAddSampleDefaultValues TrunGetFullSamples fragment1.1 None heapBeyond
  = Ok (([], Some OffsetBeyondMdat), <[6%positive := OTrun trunS5]> heapBeyond).
Proof.
  apply (GetFullSamples_offset_beyond_mdat
           TrunAddSampleDefaultValues TrunGetFullSamples fragment1.1 None
           heapBeyond heapBeyond moof1 (Some 3%positive) traf1 (MkTfdt 0)
           6%positive [] 0 [] trunS5 trunS5
           (MkTfhd 1 false 0 false false 0 false 0 false 0) 0 (MkMdat 0 [])).
  - eexists. split; [reflexivity | vm_compute; reflexivity].
  - reflexivity.
  - eexists. split; [reflexivity | vm_compute; reflexivity].
  - eexists. split; [reflexivity | vm_compute; reflexivity].
  - apply visits_here.
  - eexists. split; [reflexivity | vm_compute; reflexivity].
  - eexists. split; [reflexivity | vm_compute; reflexivity].
  - reflexivity.
  - eexists. split; [reflexivity | vm_compute; reflexivity].
  - vm_compute. reflexivity.
Defined.

(** *** The scenarios of the specification, on the methods modelled from it *)

(** S3: the duration comes from the run, else from the [tfhd], else from
    the [trex]. *)
Example S3_resolver_precedence :
  let trex := Some (MkTrex 1 100 0 0) in
  let tfhd := MkTfhd 1 false 0 false true 200 false 0 false 0 in
  let tfhd' := MkTfhd 1 false 0 false false 0 false 0 false 0 in
  let run has := MkTrun false 0 false 0 has false false false (twoSamples 50 60 0 0) in
  map Dur (samples (TrunAddSampleDefaultValues (run true) tfhd trex).1) = [50; 60] /\
  map Dur (samples (TrunAddSampleDefaultValues (run false) tfhd trex).1) = [200; 200] /\
  map Dur (samples (TrunAddSampleDefaultValues (run false) tfhd' trex).1) = [100; 100].
Proof. repeat split. Qed.

(** S4: the flags of the first sample. *)
Example S4_first_sample_flags :
  let tfhd := MkTfhd 1 false 0 false false 0 false 0 true 0xDD in
  let run has := MkTrun false 0 true 0xAA false false has false (twoSamples 0 0 0xBB 0xCC) in
  map Flags (samples (TrunAddSampleDefaultValues (run true) tfhd None).1) = [0xBB; 0xCC] /\
  map Flags (samples (TrunAddSampleDefaultValues (run false) tfhd None).1) = [0xAA; 0xDD].
Proof. repeat split. Qed.

(** S5: the default base is the [moof]. *)
Example S5_default_base_is_moof :
  offsetInMdat tfhdS5 0 trunS5 (MkMdat 120 []) = 0.
Proof. reflexivity. Qed.

Example S6_time_accumulation :
  exists samples h,
    GetFullSamples TrunAddSampleDefaultValues TrunGetFullSamples fragment1.1 None heapS6
      = Ok ((samples, None), h) /\
    map DecodeTime samples = [500; 510; 520; 540].
Proof. eexists. eexists. split; [vm_compute; reflexivity | reflexivity]. Qed.

(** *** The accessors of a fragment *)

Lemma AddChild_last (f f' : Fragment) (b : Box) :
  AddChild f b = Ok f' ->
  f' = MkFragment (if isPrft b then pointer b else Prft f)
                  (if isMoof b then pointer b else Moof f)
                  (if isMdat b then pointer b else Mdat f)
                  (Children f ++ [b]).
Proof.
  unfold AddChild. destruct b as [p|p|p|typ p]; cbn.
  - intros [= <-]. reflexivity.
  - intros [= <-]. reflexivity.
  - intros [= <-]. reflexivity.
  - destruct (String.eqb typ "prft"); [discriminate|].
    destruct (String.eqb typ "moof"); [discriminate|].
    destruct (String.eqb typ "mdat"); [discriminate|].
    intros [= <-]. destruct f; reflexivity.
Qed.

Lemma find_snoc {A : Type} (p : A -> bool) (l : list A) (a : A) :
  find p (l ++ [a]) =
  match find p l with
  | Some x => Some x
  | None => if p a then Some a else None
  end.
Proof.
  induction l as [|x l IH]; cbn [app find]; [reflexivity|].
  destruct (p x); [reflexivity | exact IH].
Qed.

Lemma lastPointer_cons (ofType : Box -> bool) (b : Box) (bs : list Box) (d : ptr) :
  lastPointer ofType (b :: bs) d = lastPointer ofType bs (if ofType b then pointer b else d).
Proof.
  unfold lastPointer. cbn [rev]. rewrite find_snoc.
  destruct (find ofType (rev bs)); [reflexivity|]. destruct (ofType b); reflexivity.
Qed.

Lemma AddChildren_last (bs : list Box) :
  forall f f', AddChildren f bs = Ok f' ->
    f' = MkFragment (lastPointer isPrft bs (Prft f)) (lastPointer isMoof bs (Moof f))
                    (lastPointer isMdat bs (Mdat f)) (Children f ++ bs).
Proof.
  induction bs as [|b bs IH]; intros f f' H; cbn [AddChildren] in H.
  - injection H as <-. rewrite app_nil_r. destruct f; reflexivity.
  - inv_bind H. apply AddChild_last in E. apply IH in H. subst a.
    cbn [Prft Moof Mdat Children] in H. rewrite H, !lastPointer_cons, <- app_assoc.
    reflexivity.
Qed.

(** X12.  Any sequence of [AddChild] calls with boxes whose [Type()] goes
    with their struct returns; afterwards each of [Prft], [Moof] and
    [Mdat] is the pointer of the last box of its type that was added, a
    later box replacing an earlier one, or is as it was when no box of the
    type was added; and [GetChildren] gives the boxes that were there
    followed by all the boxes added, in the order of the calls. *)
Theorem AddChild_last_wins (bs : list Box) (f : Fragment) :
  Forall well_typed bs ->
  exists f',
    AddChildren f bs = Ok f' /\
    Prft f' = lastPointer isPrft bs (Prft f) /\
    Moof f' = lastPointer isMoof bs (Moof f) /\
    Mdat f' = lastPointer isMdat bs (Mdat f) /\
    GetChildren f' = GetChildren f ++ bs.
Proof.
  intros Hall. destruct (AddChildren_well_typed bs f Hall) as [f' Hf].
  exists f'. split; [exact Hf|].
  rewrite (AddChildren_last bs f f' Hf). repeat split.
Qed.

Lemma AddChild_last_wins_witness :
  exists f',
    AddChildren NewFragment
      [MoofBoxRef (Some 1%positive); OtherBox "free" None; MoofBoxRef (Some 2%positive)]
      = Ok f' /\
    Prft f' = lastPointer isPrft [MoofBoxRef (Some 1%positive); OtherBox "free" None;
                                  MoofBoxRef (Some 2%positive)] (Prft NewFragment) /\
    Moof f' = lastPointer isMoof [MoofBoxRef (Some 1%positive); OtherBox "free" None;
                                  MoofBoxRef (Some 2%positive)] (Moof NewFragment) /\
    Mdat f' = lastPointer isMdat [MoofBoxRef (Some 1%positive); OtherBox "free" None;
                                  MoofBoxRef (Some 2%positive)] (Mdat NewFragment) /\
    GetChildren f' =
      GetChildren NewFragment ++
        [MoofBoxRef (Some 1%positive); OtherBox "free" None; MoofBoxRef (Some 2%positive)].
Proof.
  apply (AddChild_last_wins
           [MoofBoxRef (Some 1%positive); OtherBox "free" None;
            MoofBoxRef (Some 2%positive)] NewFragment).
  repeat constructor; discriminate.
Defined.

(** X13.  [AddChild] panics exactly on a box whose [Type()] is [prft],
    [moof] or [mdat] while its struct is another one, where the type
    assertion fails; on any other box it returns. *)
Theorem AddChild_panics_iff (f : Fragment) (b : Box) :
  (AddChild f b = Panic <-> ~ well_typed b) /\
  (well_typed b -> exists f', AddChild f b = Ok f').
Proof.
  unfold AddChild, well_typed. destruct b as [p|p|p|typ p]; cbn.
  1-3: (split; [split; [discriminate | tauto] | eauto]).
  destruct (String.eqb_spec typ "prft") as [->|H1]; cbn.
  { split; [split; [tauto | reflexivity] | tauto]. }
  destruct (String.eqb_spec typ "moof") as [->|H2]; cbn.
  { split; [split; [tauto | reflexivity] | tauto]. }
  destruct (String.eqb_spec typ "mdat") as [->|H3]; cbn.
  { split; [split; [tauto | reflexivity] | tauto]. }
  split; [split; [discriminate | tauto] | eauto].
Qed.

(** *** Fragments without [moof] or without track *)

Lemma lastPointer_none (ofType : Box -> bool) (bs : list Box) (d : ptr) :
  Forall (fun b => ofType b = false) bs -> lastPointer ofType bs d = d.
Proof.
  induction 1 as [|b bs Hb _ IH]; [reflexivity|].
  rewrite lastPointer_cons, Hb. exact IH.
Qed.

Section WithoutMoof.

Variable AddSampleDefaultValues : TrunBox -> TfhdBox -> option TrexBox -> TrunBox * Z.
Variable TrunGetFullSamples : TrunBox -> Z -> Z -> MdatBox -> result (list FullSample).
Variable OptimizeTfhdTrun : ptr -> M (option error).
Variable EncodeBox : Box -> Writer -> M (Writer * option error).

(** X14.  A fragment that was given its boxes by [AddChild], none of them
    a [moof], has a nil [Moof]: on it [AddFullSample],
    [AddFullSampleToTrack], [GetFullSamples] and [Encode] all panic,
    whatever their arguments and whatever the other boxes are. *)
Theorem no_moof_panics (bs : list Box) (f : Fragment) (s : FullSample) (trackID : Z)
    (trex : option TrexBox) (w : Writer) (h : heap) :
  Forall (fun b => isMoof b = false) bs ->
  AddChildren NewFragment bs = Ok f ->
  AddFullSample f s h = Panic /\
  AddFullSampleToTrack f s trackID h = Panic /\
  GetFullSamples AddSampleDefaultValues TrunGetFullSamples f trex h = Panic /\
  Encode OptimizeTfhdTrun EncodeBox f w h = Panic.
Proof.
  intros Hno Hf. apply AddChildren_last in Hf.
  assert (Hm : Moof f = None) by (rewrite Hf; cbn [Moof]; apply lastPointer_none, Hno).
  unfold AddFullSample, AddFullSampleToTrack, GetFullSamples, Encode.
  rewrite Hm. repeat split.
Qed.

End WithoutMoof.

Lemma no_moof_panics_witness :
  AddFullSample (MkFragment None None (Some 1%positive) [MdatBoxRef (Some 1%positive)])
                sample1 (<[1%positive := OMdat (MkMdat 0 [])]> ∅) = Panic /\
  AddFullSampleToTrack (MkFragment None None (Some 1%positive) [MdatBoxRef (Some 1%positive)])
                sample1 1 (<[1%positive := OMdat (MkMdat 0 [])]> ∅) = Panic /\
  GetFullSamples TrunAddSampleDefaultValues TrunGetFullSamples
                (MkFragment None None (Some 1%positive) [MdatBoxRef (Some 1%positive)])
                None (<[1%positive := OMdat (MkMdat 0 [])]> ∅) = Panic /\
  Encode (fun _ => mret None) (fun _ w => mret (w, None))
                (MkFragment None None (Some 1%positive) [MdatBoxRef (Some 1%positive)])
                new_writer (<[1%positive := OMdat (MkMdat 0 [])]> ∅) = Panic.
Proof.
  apply (no_moof_panics TrunAddSampleDefaultValues TrunGetFullSamples
           (fun _ => mret None) (fun _ w => mret (w, None))
           [MdatBoxRef (Some 1%positive)]
           (MkFragment None None (Some 1%positive) [MdatBoxRef (Some 1%positive)])
           sample1 1 None new_writer (<[1%positive := OMdat (MkMdat 0 [])]> ∅)).
  - repeat constructor.
  - reflexivity.
Defined.

(** *** [AddFullSampleToTrack], in general *)

Lemma rangeTrafs_some (h : heap) (trackID : Z) (trafs : list ptr) :
  Forall (traf_with_tfhd h) trafs ->
  forall traf, exists p,
    rangeTrafs trafs trackID traf h = Ok (p, h) /\ (trafs <> [] -> p <> None).
Proof.
  induction 1 as [|next rest (t & th & Ht & Hth) _ IH]; intros traf; cbn [rangeTrafs].
  - exists traf. split; [reflexivity | congruence].
  - rewrite (bind_ok _ _ _ _ _ (load_traf_ok _ _ _ Ht)).
    rewrite (bind_ok _ _ _ _ _ (load_tfhd_ok _ _ _ Hth)).
    assert (Hnext : next <> None) by (destruct Ht as (l & -> & _); discriminate).
    destruct (TrackID th =? trackID).
    + exists next. split; [reflexivity | auto].
    + destruct (IH next) as (p & Hp & Hne). exists p. split; [exact Hp|].
      intros _. destruct rest as [|x rest]; [|apply Hne; discriminate].
      cbn [rangeTrafs] in Hp. injection Hp as <-. exact Hnext.
Qed.

(** X15.  On a fragment whose [traf]s have their [tfhd], the result of
    [AddFullSampleToTrack] does not depend on the track ID nor on the
    sample: it is nil as soon as the [moof] has a [traf], whether or not
    one is of the track, and the error when the [moof] has none; and the
    fragment is as it was. *)
Theorem AddFullSampleToTrack_result (f : Fragment) (s : FullSample) (trackID : Z)
    (h : heap) (m : MoofBox) :
  points_to h (Moof f) (OMoof m) ->
  Forall (traf_with_tfhd h) (Trafs m) ->
  AddFullSampleToTrack f s trackID h =
  Ok (match Trafs m with [] => Some (NoTrack trackID) | _ => None end, h).
Proof.
  intros Hm Hall. unfold AddFullSampleToTrack.
  rewrite (bind_ok _ _ _ _ _ (load_moof_ok _ _ _ Hm)).
  destruct (rangeTrafs_some h trackID (Trafs m) Hall None) as (p & Hp & Hne).
  rewrite (bind_ok _ _ _ _ _ Hp).
  destruct (Trafs m) as [|x rest].
  - cbn [rangeTrafs] in Hp. injection Hp as <-. reflexivity.
  - destruct p as [l|]; [reflexivity|]. exfalso. apply Hne; [discriminate | reflexivity].
Qed.

Lemma AddFullSampleToTrack_result_witness :
  AddFullSampleToTrack fragment2.1 sample1 3 fragment2.2 =
  Ok (match Trafs moof2 with [] => Some (NoTrack 3) | _ => None end, fragment2.2).
Proof.
  apply (AddFullSampleToTrack_result fragment2.1 sample1 3 fragment2.2 moof2).
  - eexists. split; [reflexivity | vm_compute; reflexivity].
  - repeat constructor.
    + exists (MkTraf (Some 4%positive) (Some 5%positive) (Some 6%positive)
                     [Some 6%positive]),
             (MkTfhd 1 false 0 false false 0 false 0 false 0).
      split; eexists; (split; [reflexivity | vm_compute; reflexivity]).
    + exists (MkTraf (Some 8%positive) (Some 9%positive) (Some 10%positive)
                     [Some 10%positive]),
             (MkTfhd 2 false 0 false false 0 false 0 false 0).
      split; eexists; (split; [reflexivity | vm_compute; reflexivity]).
Defined.

(** *** Fresh addresses *)

Lemma fresh_none (h : heap) : h !! fresh (dom h) = None.
Proof. apply not_elem_of_dom, is_fresh. Qed.

Lemma alloc_ok (o : object) (h : heap) :
  alloc o h = Ok (fresh (dom h), <[fresh (dom h) := o]> h).
Proof. reflexivity. Qed.

Lemma fresh_insert_ne (h : heap) (l : loc) (o : object) :
  fresh (dom (<[l := o]> h)) <> l.
Proof.
  intros Heq. pose proof (fresh_none (<[l := o]> h)) as Hn.
  rewrite Heq, lookup_insert_eq in Hn. discriminate.
Qed.

Lemma lift_ok {A : Type} (r : result A) (a : A) (h : heap) :
  r = Ok a -> lift r h = Ok (a, h).
Proof. intros ->. reflexivity. Qed.

(** X16.  [CreateMultiTrackFragment] with no track ID returns a fragment,
    and no error, whose [moof] has no [traf]: on this fragment
    [AddFullSample] panics and so does [GetFullSamples] without [trex],
    [GetFullSamples] with a [trex] returns no samples and no error, and
    [AddFullSampleToTrack] returns its error. *)
Theorem CreateMultiTrackFragment_no_track (seqNumber : Z) (h : heap) (s : FullSample)
    (trackID : Z) (tx : TrexBox)
    (AddSampleDefaultValues : TrunBox -> TfhdBox -> option TrexBox -> TrunBox * Z)
    (TrunGetFullSamples : TrunBox -> Z -> Z -> MdatBox -> result (list FullSample)) :
  exists f h',
    CreateMultiTrackFragment seqNumber [] h = Ok (f, h') /\
    AddFullSample f s h' = Panic /\
    GetFullSamples AddSampleDefaultValues TrunGetFullSamples f None h' = Panic /\
    GetFullSamples AddSampleDefaultValues TrunGetFullSamples f (Some tx) h'
      = Ok (([], None), h') /\
    AddFullSampleToTrack f s trackID h' = Ok (Some (NoTrack trackID), h').
Proof.
  set (l1 := fresh (dom h)).
  set (h1 := <[l1 := OMoof (MkMoof 0 None None [])]> h).
  set (l2 := fresh (dom h1)).
  set (h2 := <[l2 := OMfhd (MkMfhd seqNumber)]> h1).
  set (m := MkMoof 0 (Some l2) None []).
  set (h3 := <[l1 := OMoof m]> h2).
  set (l3 := fresh (dom h3)).
  set (h4 := <[l3 := OMdat (MkMdat 0 [])]> h3).
  assert (H21 : l2 <> l1) by apply fresh_insert_ne.
  assert (H31 : l3 <> l1) by apply fresh_insert_ne.
  assert (Hm2 : points_to h2 (Some l1) (OMoof (MkMoof 0 None None []))).
  { exists l1. split; [reflexivity|]. unfold h2, h1.
    rewrite lookup_insert_ne by congruence. apply lookup_insert_eq. }
  assert (Hm4 : points_to h4 (Some l1) (OMoof m)).
  { exists l1. split; [reflexivity|]. unfold h4, h3.
    rewrite lookup_insert_ne by congruence. apply lookup_insert_eq. }
  exists (MkFragment None (Some l1) (Some l3) [MoofBoxRef (Some l1); MdatBoxRef (Some l3)]), h4.
  split; [|split; [|split; [|split]]].
  - unfold CreateMultiTrackFragment.
    rewrite (bind_ok _ _ _ _ _ (alloc_ok _ h)). fold l1 h1.
    assert (Ha1 : AddChild NewFragment (MoofBoxRef (Some l1))
                  = Ok (MkFragment None (Some l1) None [MoofBoxRef (Some l1)]))
      by reflexivity.
    rewrite (bind_ok _ _ _ _ _ (lift_ok _ _ h1 Ha1)).
    unfold CreateMfhd. rewrite (bind_ok _ _ _ _ _ (alloc_ok _ h1)). fold l2 h2.
    match goal with
    | |- mbind _ ?step h2 = _ =>
        assert (Hstep : step h2 = Ok (tt, h3));
        [|rewrite (bind_ok step _ h2 h3 tt Hstep)]
    end.
    { unfold MoofAddChild.
      rewrite (bind_ok _ _ _ _ _ (load_moof_ok _ _ _ Hm2)). reflexivity. }
    cbn [addTracks].
    rewrite (bind_ok (mret tt) _ h3 h3 tt eq_refl).
    rewrite (bind_ok _ _ _ _ _ (alloc_ok _ h3)). fold l3 h4.
    assert (Ha2 : AddChild (MkFragment None (Some l1) None [MoofBoxRef (Some l1)])
                           (MdatBoxRef (Some l3))
                  = Ok (MkFragment None (Some l1) (Some l3)
                                   [MoofBoxRef (Some l1); MdatBoxRef (Some l3)]))
      by reflexivity.
    rewrite (bind_ok _ _ _ _ _ (lift_ok _ _ h4 Ha2)).
    reflexivity.
  - unfold AddFullSample. cbn [Moof].
    rewrite (bind_ok _ _ _ _ _ (load_moof_ok _ _ _ Hm4)). reflexivity.
  - unfold GetFullSamples. cbn [Moof].
    rewrite (bind_ok _ _ _ _ _ (load_moof_ok _ _ _ Hm4)). reflexivity.
  - unfold GetFullSamples. cbn [Moof].
    rewrite (bind_ok _ _ _ _ _ (load_moof_ok _ _ _ Hm4)). reflexivity.
  - unfold AddFullSampleToTrack. cbn [Moof].
    rewrite (bind_ok _ _ _ _ _ (load_moof_ok _ _ _ Hm4)). reflexivity.
Qed.

(** *** What the resolver changes *)

Section ResolverFrame.

Variable AddSampleDefaultValues : TrunBox -> TfhdBox -> option TrexBox -> TrunBox * Z.
Variable TrunGetFullSamples : TrunBox -> Z -> Z -> MdatBox -> result (list FullSample).

Lemma findTraf_reads (trackID : Z) (trafs : list ptr) :
  forall (h h' : heap) (found : option ptr),
    findTraf trafs trackID h = Ok (found, h') -> h' = h.
Proof.
  induction trafs as [|traf rest IH]; intros h h' found H; cbn [findTraf] in H.
  - injection H as _ <-. reflexivity.
  - apply bind_inv in H as (t & h1 & Ht & H). apply load_traf_inv in Ht as (-> & _).
    apply bind_inv in H as (th & h1 & Hth & H). apply load_tfhd_inv in Hth as (-> & _).
    destruct (TrackID th =? trackID).
    + injection H as _ <-. reflexivity.
    + exact (IH _ _ _ H).
Qed.

Lemma findTraf_in (trackID : Z) (trafs : list ptr) :
  forall (h h' : heap) (traf : ptr),
    findTraf trafs trackID h = Ok (Some traf, h') -> In traf trafs.
Proof.
  induction trafs as [|x rest IH]; intros h h' traf H; cbn [findTraf] in H;
    [discriminate|].
  apply bind_inv in H as (t & h1 & Ht & H). apply load_traf_inv in Ht as (-> & _).
  apply bind_inv in H as (th & h1 & Hth & H). apply load_tfhd_inv in Hth as (-> & _).
  destruct (TrackID th =? trackID).
  - injection H as -> _. left. reflexivity.
  - right. exact (IH _ _ _ H).
Qed.

Lemma trunLoop_frame (tfhd mdat : ptr) (trex : option TrexBox) (moofStartPos : Z)
    (l : loc) (truns : list ptr) :
  forall (bt : Z) (acc : list FullSample) (h h' : heap)
         (res : list FullSample * option error),
    trunLoop AddSampleDefaultValues TrunGetFullSamples tfhd mdat trex moofStartPos
             truns bt acc h = Ok (res, h') ->
    h' !! l = h !! l \/ (is_trun h l /\ is_trun h' l /\ In (Some l) truns).
Proof.
  induction truns as [|trun rest IH]; intros bt acc h h' res H; cbn [trunLoop] in H.
  - injection H as _ <-. left. reflexivity.
  - apply bind_inv in H as (t0 & h1 & Ht & H). apply load_trun_inv in Ht as (-> & Ht).
    apply bind_inv in H as (th & h1 & Hth & H). apply load_tfhd_inv in Hth as (-> & _).
    destruct (AddSampleDefaultValues t0 th trex) as [t totalDur].
    destruct Ht as (lt & -> & Hlt).
    rewrite (bind_ok _ _ _ _ _ (store_ok _ _ _)) in H.
    apply bind_inv in H as (m & h1 & Hm & H). apply load_mdat_inv in Hm as (-> & _).
    assert (Hstep : <[lt := OTrun t]> h !! l = h !! l \/
                    (is_trun h l /\ is_trun (<[lt := OTrun t]> h) l /\ Some l = Some lt)).
    { destruct (decide (l = lt)) as [->|Hne].
      - right. split; [exists t0; exact Hlt|].
        split; [exists t; apply lookup_insert_eq | reflexivity].
      - left. apply lookup_insert_ne. congruence. }
    destruct (_ >? _).
    + injection H as _ <-.
      destruct Hstep as [Heq | (H1 & H2 & H3)]; [left; exact Heq|].
      right. split; [exact H1|]. split; [exact H2 | left; congruence].
    + apply bind_inv in H as (more & h1 & Hmore & H).
      assert (h1 = <[lt := OTrun t]> h) as ->.
      { unfold lift in Hmore. destruct (TrunGetFullSamples _ _ _ _); try discriminate.
        injection Hmore as _ <-. reflexivity. }
      destruct (IH _ _ _ _ _ H) as [Heq | (H1 & H2 & H3)].
      * destruct Hstep as [Heq0 | (K1 & K2 & K3)].
        -- left. congruence.
        -- right. split; [exact K1|]. split; [|left; congruence].
           destruct K2 as [t' Ht']. exists t'. congruence.
      * right. split; [|split; [exact H2 | right; exact H3]].
        destruct Hstep as [Heq0 | (K1 & _)]; [|exact K1].
        destruct H1 as [t' Ht']. exists t'. congruence.
Qed.

(** X17.  Whenever [GetFullSamples] returns, with samples or with its
    error, the store is as it was at every address but those of the runs
    of one [traf] of the [moof], and at these a run still is: the [moof],
    the [traf]s, the [tfhd], the [tfdt] and the [mdat] are not changed,
    and no box is created. *)
Theorem GetFullSamples_frame (f : Fragment) (trex : option TrexBox) (h h' : heap)
    (res : list FullSample * option error) (l : loc) :
  GetFullSamples AddSampleDefaultValues TrunGetFullSamples f trex h = Ok (res, h') ->
  h' !! l = h !! l \/
  (is_trun h l /\ is_trun h' l /\
   exists m traf t, points_to h (Moof f) (OMoof m) /\ In traf (Traf m :: Trafs m) /\
                    points_to h traf (OTraf t) /\ In (Some l) (Truns t)).
Proof.
  unfold GetFullSamples. intros H.
  apply bind_inv in H as (m & h1 & Hm & H). apply load_moof_inv in Hm as (-> & Hm).
  apply bind_inv in H as (found & h1 & Hfound & H).
  assert (h1 = h /\ forall traf, found = Some traf -> In traf (Traf m :: Trafs m))
    as [-> Hin].
  { destruct trex as [tx|].
    - split; [exact (findTraf_reads _ _ _ _ _ Hfound)|].
      intros traf ->. right. exact (findTraf_in _ _ _ _ _ Hfound).
    - injection Hfound as <- <-. split; [reflexivity|]. intros traf [= <-]. left.
      reflexivity. }
  destruct found as [traf|]; [|injection H as _ <-; left; reflexivity].
  apply bind_inv in H as (t & h1 & Ht & H). apply load_traf_inv in Ht as (-> & Ht).
  apply bind_inv in H as (td & h1 & Htd & H). apply load_tfdt_inv in Htd as (-> & _).
  destruct (trunLoop_frame _ _ _ _ l _ _ _ _ _ _ H) as [Heq | (H1 & H2 & H3)];
    [left; exact Heq|].
  right. split; [exact H1|]. split; [exact H2|].
  exists m, traf, t. split; [exact Hm|]. split; [apply Hin; reflexivity|].
  split; [exact Ht | exact H3].
Qed.


Lemma findTraf_first (h : heap) (trackID : Z) (before after : list ptr) (traf : ptr)
    (t : TrafBox) (th : TfhdBox) :
  no_traf_of h trackID before ->
  points_to h traf (OTraf t) ->
  points_to h (Tfhd t) (OTfhd th) ->
  TrackID th = trackID ->
  findTraf (before ++ traf :: after) trackID h = Ok (Some traf, h).
Proof.
  intros Hno Ht Hth Hid.
  induction Hno as [|x rest (t' & th' & Ht' & Hth' & Hne) _ IH]; cbn [app findTraf].
  - rewrite (bind_ok _ _ _ _ _ (load_traf_ok _ _ _ Ht)).
    rewrite (bind_ok _ _ _ _ _ (load_tfhd_ok _ _ _ Hth)).
    apply Z.eqb_eq in Hid. rewrite Hid. reflexivity.
  - rewrite (bind_ok _ _ _ _ _ (load_traf_ok _ _ _ Ht')).
    rewrite (bind_ok _ _ _ _ _ (load_tfhd_ok _ _ _ Hth')).
    apply Z.eqb_neq in Hne. rewrite Hne. exact IH.
Qed.

(** X19.  With a [trex], [GetFullSamples] resolves the first [traf] of
    [moof.Trafs] whose track ID is that of the [trex]: the [traf]s that
    come after it are not looked at, be they of the same track or nil, and
    [moof.Traf] plays no part. *)
Theorem GetFullSamples_first_traf (f : Fragment) (tx : TrexBox) (h : heap) (m : MoofBox)
    (before after : list ptr) (traf : ptr) (t : TrafBox) (th : TfhdBox) (td : TfdtBox) :
  points_to h (Moof f) (OMoof m) ->
  Trafs m = before ++ traf :: after ->
  no_traf_of h (TrexTrackID tx) before ->
  points_to h traf (OTraf t) ->
  points_to h (Tfhd t) (OTfhd th) ->
  TrackID th = TrexTrackID tx ->
  points_to h (Tfdt t) (OTfdt td) ->
  GetFullSamples AddSampleDefaultValues TrunGetFullSamples f (Some tx) h =
  trunLoop AddSampleDefaultValues TrunGetFullSamples (Tfhd t) (Mdat f) (Some tx)
           (StartPos m) (Truns t) (BaseMediaDecodeTime td) [] h.
Proof.
  intros Hm Htrafs Hno Ht Hth Hid Htd. unfold GetFullSamples.
  rewrite (bind_ok _ _ _ _ _ (load_moof_ok _ _ _ Hm)). rewrite Htrafs.
  rewrite (bind_ok _ _ _ _ _ (findTraf_first _ _ _ _ _ _ _ Hno Ht Hth Hid)).
  rewrite (bind_ok _ _ _ _ _ (load_traf_ok _ _ _ Ht)).
  rewrite (bind_ok _ _ _ _ _ (load_tfdt_ok _ _ _ Htd)). reflexivity.
Qed.

(** The difference of two [uint64] wraps when the second is the greater. *)
Lemma offsetInMdat_before (th : TfhdBox) (moofStartPos : Z) (t : TrunBox) (m : MdatBox) :
  0 <= runBaseOffset th moofStartPos t < PayloadAbsoluteOffset m ->
  PayloadAbsoluteOffset m + len (MdatData m) < 2 ^ 64 ->
  offsetInMdat th moofStartPos t m > uint64 (len (MdatData m)).
Proof.
  intros Hb Hfit. unfold offsetInMdat. pose proof (len_nonneg (MdatData m)) as Hl.
  rewrite (uint64_small (len (MdatData m))) by lia.
  unfold uint64.
  replace (runBaseOffset th moofStartPos t - PayloadAbsoluteOffset m)
    with (runBaseOffset th moofStartPos t - PayloadAbsoluteOffset m + 2 ^ 64 + (-1) * 2 ^ 64)
    by lia.
  rewrite Z.mod_add by lia. rewrite Z.mod_small by lia. lia.
Qed.

(** X20.  When the base offset of the first run lies before the payload
    of the [mdat], the difference of the two, taken as [uint64], wraps to
    a number beyond the data: [GetFullSamples] returns no samples and its
    error, as for an offset that is too large. *)
Theorem GetFullSamples_offset_before_mdat (f : Fragment) (trex : option TrexBox)
    (h : heap) (m : MoofBox) (traf : ptr) (t : TrafBox) (tfdt : TfdtBox)
    (l : loc) (rest : list ptr) (t0 t1 : TrunBox) (th : TfhdBox) (totalDur : Z)
    (md : MdatBox) :
  points_to h (Moof f) (OMoof m) ->
  selected h m trex traf ->
  points_to h traf (OTraf t) ->
  points_to h (Tfdt t) (OTfdt tfdt) ->
  Truns t = Some l :: rest ->
  points_to h (Some l) (OTrun t0) ->
  points_to h (Tfhd t) (OTfhd th) ->
  AddSampleDefaultValues t0 th trex = (t1, totalDur) ->
  points_to h (Mdat f) (OMdat md) ->
  0 <= runBaseOffset th (StartPos m) t1 < PayloadAbsoluteOffset md ->
  PayloadAbsoluteOffset md + len (MdatData md) < 2 ^ 64 ->
  GetFullSamples AddSampleDefaultValues TrunGetFullSamples f trex h
  = Ok (([], Some OffsetBeyondMdat), <[l := OTrun t1]> h).
Proof.
  intros Hm Hsel Ht Htfdt Hruns Ht0 Hth Hadd Hmd Hbefore Hfit.
  unfold GetFullSamples.
  rewrite (bind_ok _ _ _ _ _ (load_moof_ok _ _ _ Hm)).
  assert (Hfound :
    match trex with
    | Some tx => findTraf (Trafs m) (TrexTrackID tx)
    | None => mret (Some (Traf m))
    end h = Ok (Some traf, h)).
  { unfold selected in Hsel. destruct trex; [exact Hsel | rewrite Hsel; reflexivity]. }
  match goal with
  | |- mbind _ ?sel h = _ => rewrite (bind_ok sel _ h h (Some traf) Hfound)
  end.
  rewrite (bind_ok _ _ _ _ _ (load_traf_ok _ _ _ Ht)).
  rewrite (bind_ok _ _ _ _ _ (load_tfdt_ok _ _ _ Htfdt)).
  rewrite Hruns.
  rewrite (trunLoop_turn _ _ _ _ _ _ _ _ _ _ _ _ _ _ _ _ Ht0 Hth Hadd Hmd).
  pose proof (offsetInMdat_before th (StartPos m) t1 md Hbefore Hfit) as Hgt.
  apply Z.gt_lt, Z.gtb_lt in Hgt. rewrite Hgt. reflexivity.
Qed.

End ResolverFrame.

Lemma GetFullSamples_frame_witness :
  heapS6after !! 6%positive = heapS6 !! 6%positive \/
  (is_trun heapS6 6%positive /\ is_trun heapS6after 6%positive /\
   exists m traf t, points_to heapS6 (Moof fragment1.1) (OMoof m) /\
                    In traf (Traf m :: Trafs m) /\
                    points_to heapS6 traf (OTraf t) /\ In (Some 6%positive) (Truns t)).
Proof.
  refine (GetFullSamples_frame TrunAddSampleDefaultValues TrunGetFullSamples
            fragment1.1 None heapS6 heapS6after
            resultS6 6%positive _).
  vm_compute. reflexivity.
Defined.


Lemma GetFullSamples_first_traf_witness :
  GetFullSamples TrunAddSampleDefaultValues TrunGetFullSamples fragment2.1
                 (Some (MkTrex 2 0 0 0)) fragment2.2 =
  trunLoop TrunAddSampleDefaultValues TrunGetFullSamples (Some 8%positive)
           (Mdat fragment2.1) (Some (MkTrex 2 0 0 0)) (StartPos moof2)
           [Some 10%positive] (BaseMediaDecodeTime (MkTfdt 0)) [] fragment2.2.
Proof.
  apply (GetFullSamples_first_traf TrunAddSampleDefaultValues TrunGetFullSamples
           fragment2.1 (MkTrex 2 0 0 0) fragment2.2 moof2 [Some 3%positive] []
           (Some 7%positive)
           (MkTraf (Some 8%positive) (Some 9%positive) (Some 10%positive) [Some 10%positive])
           (MkTfhd 2 false 0 false false 0 false 0 false 0) (MkTfdt 0)).
  - eexists. split; [reflexivity | vm_compute; reflexivity].
  - reflexivity.
  - repeat constructor.
    exists (MkTraf (Some 4%positive) (Some 5%positive) (Some 6%positive) [Some 6%positive]),
           (MkTfhd 1 false 0 false false 0 false 0 false 0).
    repeat split; try (eexists; split; [reflexivity | vm_compute; reflexivity]).
    simpl. lia.
  - eexists. split; [reflexivity | vm_compute; reflexivity].
  - eexists. split; [reflexivity | vm_compute; reflexivity].
  - reflexivity.
  - eexists. split; [reflexivity | vm_compute; reflexivity].
Defined.

Lemma GetFullSamples_offset_before_mdat_witness :
  GetFullSamples TrunAddSampleDefaultValues TrunGetFullSamples fragment1.1 None heapBefore
  = Ok (([], Some OffsetBeyondMdat), <[6%positive := OTrun emptyTrun]> heapBefore).
Proof.
  apply (GetFullSamples_offset_before_mdat
           TrunAddSampleDefaultValues TrunGetFullSamples fragment1.1 None
           heapBefore moof1 (Some 3%positive) traf1 (MkTfdt 0)
           6%positive [] emptyTrun emptyTrun
           (MkTfhd 1 false 0 false false 0 false 0 false 0) 0 (MkMdat 8 [])).
  - eexists. split; [reflexivity | vm_compute; reflexivity].
  - reflexivity.
  - eexists. split; [reflexivity | vm_compute; reflexivity].
  - eexists. split; [reflexivity | vm_compute; reflexivity].
  - reflexivity.
  - eexists. split; [reflexivity | vm_compute; reflexivity].
  - eexists. split; [reflexivity | vm_compute; reflexivity].
  - reflexivity.
  - eexists. split; [reflexivity | vm_compute; reflexivity].
  - vm_compute. split; [discriminate | reflexivity].
  - vm_compute. reflexivity.
Defined.

(** *** What the constructors build *)

Lemma bind_ret_unit {B : Type} (m : M unit) (k : unit -> M B) (h : heap) :
  ((m;; mret tt) ≫= k) h = (m ≫= k) h.
Proof.
  unfold mbind, M_bind, mret, M_ret. destruct (m h) as [[[] h']|e|]; reflexivity.
Qed.

Lemma MoofAddChild_mfhd (lm : loc) (p : ptr) (m : MoofBox) (h : heap) :
  h !! lm = Some (OMoof m) ->
  MoofAddChild (Some lm) (MfhdRef p) h
  = Ok (tt, <[lm := OMoof (MkMoof (StartPos m) p (Traf m) (Trafs m))]> h).
Proof.
  intros Hm. unfold MoofAddChild.
  rewrite (bind_ok _ _ _ _ _ (load_moof_ok (Some lm) h m ltac:(exists lm; auto))).
  reflexivity.
Qed.

(** X21.  [CreateFragment] builds what [CreateMultiTrackFragment] builds
    for this one track: the same fragment, in the same store. *)
Theorem CreateFragment_single_track (seqNumber trackID : Z) (h : heap) :
  CreateFragment seqNumber trackID h = CreateMultiTrackFragment seqNumber [trackID] h.
Proof.
  unfold CreateFragment, CreateMultiTrackFragment.
  rewrite !(bind_ok _ _ _ _ _ (alloc_ok _ h)).
  set (l1 := fresh (dom h)). set (h1 := <[l1 := _]> h).
  assert (Ha1 : AddChild NewFragment (MoofBoxRef (Some l1))
                = Ok (MkFragment None (Some l1) None [MoofBoxRef (Some l1)]))
    by reflexivity.
  rewrite !(bind_ok _ _ _ _ _ (lift_ok _ _ h1 Ha1)).
  unfold CreateMfhd. rewrite !(bind_ok _ _ _ _ _ (alloc_ok _ h1)).
  set (l2 := fresh (dom h1)). set (h2 := <[l2 := _]> h1).
  assert (Hm2 : h2 !! l1 = Some (OMoof (MkMoof 0 None None []))).
  { unfold h2, h1. rewrite lookup_insert_ne by apply fresh_insert_ne.
    apply lookup_insert_eq. }
  rewrite !(bind_ok _ _ _ _ _ (MoofAddChild_mfhd l1 (Some l2) _ h2 Hm2)).
  cbn [addTracks]. rewrite bind_ret_unit. reflexivity.
Qed.

Lemma fresh_ne (g : heap) (l : loc) (o : object) : g !! l = Some o -> fresh (dom g) <> l.
Proof. intros H Heq. pose proof (fresh_none g) as Hn. rewrite Heq in Hn. congruence. Qed.

Lemma extends_refl (lm : loc) (h : heap) : extends lm h h.
Proof. intros l o _ H. exact H. Qed.

Lemma extends_trans (lm : loc) (h g k : heap) :
  extends lm h g -> extends lm g k -> extends lm h k.
Proof. intros H1 H2 l o Hl H. apply H2, H1; assumption. Qed.

Lemma extends_insert (lm : loc) (h g : heap) (k : loc) (o : object) :
  extends lm h g -> k = lm \/ h !! k = None -> extends lm h (<[k := o]> g).
Proof.
  intros Hext Hk l o' Hl H. rewrite lookup_insert_ne; [apply Hext; assumption|].
  intros ->. destruct Hk as [->|Hk]; congruence.
Qed.

Lemma extends_fresh (lm : loc) (h g : heap) :
  extends lm h g -> fresh (dom g) = lm \/ h !! fresh (dom g) = None.
Proof.
  intros Hext. destruct (decide (fresh (dom g) = lm)) as [Heq|Hne]; [left; exact Heq|].
  right. destruct (h !! fresh (dom g)) as [o|] eqn:E; [|reflexivity].
  pose proof (Hext _ _ Hne E) as Hg. rewrite fresh_none in Hg. discriminate.
Qed.

Lemma extends_alloc (lm : loc) (h g : heap) (o : object) :
  extends lm h g -> extends lm h (<[fresh (dom g) := o]> g).
Proof. intros Hext. apply extends_insert; [exact Hext | apply extends_fresh, Hext]. Qed.

Lemma track_extends (lm : loc) (h h' : heap) (m : MoofBox) (traf : ptr) (trackID : Z) :
  h !! lm = Some (OMoof m) -> extends lm h h' -> track h traf trackID ->
  track h' traf trackID.
Proof.
  intros Hm Hext (lh & ld & lr & (lt & -> & Ht) & Hh & Hd & Hr).
  exists lh, ld, lr. split; [exists lt; split; [reflexivity|]|split; [|split]];
    (apply Hext; [intros ->; congruence | assumption]).
Qed.

(** One track: the [traf] is new, it is appended to [moof.Trafs], and the
    boxes that were there are as they were, the [moof] apart. *)
Lemma addTrack_spec (lm : loc) (trackID : Z) (h : heap) (m : MoofBox) :
  h !! lm = Some (OMoof m) ->
  exists (h' : heap) (lt : loc),
    addTrack lm trackID h = Ok (tt, h') /\
    h' !! lm = Some (OMoof (MkMoof (StartPos m) (Mfhd m)
                                   (firstTraf (Traf m) [Some lt])
                                   (Trafs m ++ [Some lt]))) /\
    track h' (Some lt) trackID /\
    extends lm h h'.
Proof.
  intros Hm. unfold addTrack.
  rewrite (bind_ok _ _ _ _ _ (alloc_ok _ h)).
  set (lt := fresh (dom h)). set (h1 := <[lt := OTraf (MkTraf None None None [])]> h).
  assert (Hlt : lt <> lm) by (apply (fresh_ne h lm _ Hm)).
  assert (E1 : extends lm h h1) by (apply extends_alloc, extends_refl).
  set (m' := MkMoof (StartPos m) (Mfhd m) (firstTraf (Traf m) [Some lt])
                    (Trafs m ++ [Some lt])).
  set (h2 := <[lm := OMoof m']> h1).
  assert (Hstep1 : MoofAddChild (Some lm) (TrafRef (Some lt)) h1 = Ok (tt, h2)).
  { unfold MoofAddChild.
    rewrite (bind_ok _ _ _ _ _ (load_moof_ok (Some lm) h1 m
               ltac:(exists lm; split; [reflexivity|];
                     unfold h1; rewrite lookup_insert_ne by congruence; exact Hm))).
    unfold h2, m', firstTraf. destruct (Traf m); reflexivity. }
  rewrite (bind_ok _ _ _ _ _ Hstep1).
  assert (E2 : extends lm h h2) by (apply extends_insert; [exact E1 | left; reflexivity]).
  unfold CreateTfhd. rewrite (bind_ok _ _ _ _ _ (alloc_ok _ h2)).
  set (lh := fresh (dom h2)). set (h3 := <[lh := _]> h2).
  assert (Ht2 : h2 !! lt = Some (OTraf (MkTraf None None None []))).
  { unfold h2, h1. rewrite lookup_insert_ne by congruence. apply lookup_insert_eq. }
  assert (Hlh_lt : lh <> lt) by (apply (fresh_ne h2 lt _ Ht2)).
  assert (E3 : extends lm h h3) by (apply extends_alloc, E2).
  set (h4 := <[lt := OTraf (MkTraf (Some lh) None None [])]> h3).
  assert (Hstep2 : TrafAddChild (Some lt) (TfhdRef (Some lh)) h3 = Ok (tt, h4)).
  { unfold TrafAddChild.
    rewrite (bind_ok _ _ _ _ _ (load_traf_ok (Some lt) h3 _
               ltac:(exists lt; split; [reflexivity|];
                     unfold h3; rewrite lookup_insert_ne by congruence; exact Ht2))).
    reflexivity. }
  rewrite (bind_ok _ _ _ _ _ Hstep2).
  assert (E4 : extends lm h h4)
    by (apply extends_insert; [exact E3 | right; apply fresh_none]).
  rewrite (bind_ok _ _ _ _ _ (alloc_ok _ h4)).
  set (ld := fresh (dom h4)). set (h5 := <[ld := _]> h4).
  assert (Ht4 : h4 !! lt = Some (OTraf (MkTraf (Some lh) None None [])))
    by apply lookup_insert_eq.
  assert (Hh4 : h4 !! lh = Some (OTfhd (MkTfhd trackID false 0 false false 0 false 0 false 0))).
  { unfold h4, h3. rewrite lookup_insert_ne by congruence. apply lookup_insert_eq. }
  assert (Hld_lt : ld <> lt) by (apply (fresh_ne h4 lt _ Ht4)).
  assert (Hld_lh : ld <> lh) by (apply (fresh_ne h4 lh _ Hh4)).
  assert (E5 : extends lm h h5) by (apply extends_alloc, E4).
  set (h6 := <[lt := OTraf (MkTraf (Some lh) (Some ld) None [])]> h5).
  assert (Hstep3 : TrafAddChild (Some lt) (TfdtRef (Some ld)) h5 = Ok (tt, h6)).
  { unfold TrafAddChild.
    rewrite (bind_ok _ _ _ _ _ (load_traf_ok (Some lt) h5 _
               ltac:(exists lt; split; [reflexivity|];
                     unfold h5; rewrite lookup_insert_ne by congruence; exact Ht4))).
    reflexivity. }
  rewrite (bind_ok _ _ _ _ _ Hstep3).
  assert (E6 : extends lm h h6)
    by (apply extends_insert; [exact E5 | right; apply fresh_none]).
  unfold CreateTrun. rewrite (bind_ok _ _ _ _ _ (alloc_ok _ h6)).
  set (lr := fresh (dom h6)). set (h7 := <[lr := _]> h6).
  assert (Ht6 : h6 !! lt = Some (OTraf (MkTraf (Some lh) (Some ld) None [])))
    by apply lookup_insert_eq.
  assert (Hh6 : h6 !! lh = Some (OTfhd (MkTfhd trackID false 0 false false 0 false 0 false 0))).
  { unfold h6, h5. rewrite !lookup_insert_ne by congruence. exact Hh4. }
  assert (Hd6 : h6 !! ld = Some (OTfdt (MkTfdt 0))).
  { unfold h6, h5. rewrite lookup_insert_ne by congruence. apply lookup_insert_eq. }
  assert (Hm6 : h6 !! lm = Some (OMoof m')).
  { unfold h6, h5, h4, h3.
    rewrite (lookup_insert_ne _ lt lm) by congruence.
    rewrite (lookup_insert_ne _ ld lm)
      by (apply (fresh_ne h4 lm (OMoof m')); unfold h4, h3;
          rewrite (lookup_insert_ne _ lt lm) by congruence;
          rewrite (lookup_insert_ne _ lh lm)
            by (apply (fresh_ne h2 lm (OMoof m')); apply lookup_insert_eq);
          apply lookup_insert_eq).
    rewrite (lookup_insert_ne _ lt lm) by congruence.
    rewrite (lookup_insert_ne _ lh lm)
      by (apply (fresh_ne h2 lm (OMoof m')); apply lookup_insert_eq).
    apply lookup_insert_eq. }
  assert (Hlr_lt : lr <> lt) by (apply (fresh_ne h6 lt _ Ht6)).
  assert (Hlr_lh : lr <> lh) by (apply (fresh_ne h6 lh _ Hh6)).
  assert (Hlr_ld : lr <> ld) by (apply (fresh_ne h6 ld _ Hd6)).
  assert (Hlr_lm : lr <> lm) by (apply (fresh_ne h6 lm _ Hm6)).
  assert (E7 : extends lm h h7) by (apply extends_alloc, E6).
  set (h8 := <[lt := OTraf (MkTraf (Some lh) (Some ld) (Some lr) [Some lr])]> h7).
  assert (Hstep4 : TrafAddChild (Some lt) (TrunRef (Some lr)) h7 = Ok (tt, h8)).
  { unfold TrafAddChild.
    rewrite (bind_ok _ _ _ _ _ (load_traf_ok (Some lt) h7 _
               ltac:(exists lt; split; [reflexivity|];
                     unfold h7; rewrite lookup_insert_ne by congruence; exact Ht6))).
    reflexivity. }
  exists h8, lt. split; [exact Hstep4|]. split; [|split].
  - unfold h8, h7. rewrite !lookup_insert_ne by congruence. exact Hm6.
  - exists lh, ld, lr. split; [exists lt; split; [reflexivity | apply lookup_insert_eq]|].
    unfold h8, h7. split; [|split].
    + rewrite !lookup_insert_ne by congruence. exact Hh6.
    + rewrite !lookup_insert_ne by congruence. exact Hd6.
    + rewrite lookup_insert_ne by congruence. apply lookup_insert_eq.
  - apply extends_insert; [exact E7 | right; apply fresh_none].
Qed.

Lemma firstTraf_app (first : ptr) (l : loc) (trafs : list ptr) :
  firstTraf (firstTraf first [Some l]) trafs = firstTraf first (Some l :: trafs).
Proof. destruct first; cbn [firstTraf]; destruct trafs; reflexivity. Qed.

Lemma addTracks_spec (lm : loc) (trackIDs : list Z) :
  forall (h : heap) (m : MoofBox),
    h !! lm = Some (OMoof m) ->
    exists (h' : heap) (trafs : list ptr),
      addTracks lm trackIDs h = Ok (tt, h') /\
      h' !! lm = Some (OMoof (MkMoof (StartPos m) (Mfhd m) (firstTraf (Traf m) trafs)
                                     (Trafs m ++ trafs))) /\
      Forall2 (track h') trafs trackIDs /\
      extends lm h h'.
Proof.
  induction trackIDs as [|trackID rest IH]; intros h m Hm; cbn [addTracks].
  - exists h, []. split; [reflexivity|]. split; [|split].
    + rewrite app_nil_r. destruct m as [sp mf [l|] ts]; exact Hm.
    + constructor.
    + apply extends_refl.
  - destruct (addTrack_spec lm trackID h m Hm) as (h1 & lt & Hadd & Hm1 & Htrack & E1).
    rewrite (bind_ok _ _ _ _ _ Hadd).
    destruct (IH h1 _ Hm1) as (h' & trafs & Hrest & Hm' & Hall & E2).
    cbn [StartPos Mfhd Traf Trafs] in Hm'.
    exists h', (Some lt :: trafs). split; [exact Hrest|]. split; [|split].
    + rewrite Hm', firstTraf_app, <- app_assoc. reflexivity.
    + constructor; [|exact Hall]. exact (track_extends lm h1 h' _ _ _ Hm1 E2 Htrack).
    + exact (extends_trans lm h h1 h' E1 E2).
Qed.

(** The fragment that [CreateMultiTrackFragment] builds, in any store. *)
Lemma CreateMultiTrackFragment_spec (seqNumber : Z) (trackIDs : list Z) (h : heap) :
  exists (f : Fragment) (h' : heap) (lm ld lf : loc) (trafs : list ptr),
    CreateMultiTrackFragment seqNumber trackIDs h = Ok (f, h') /\
    f = MkFragment None (Some lm) (Some ld) [MoofBoxRef (Some lm); MdatBoxRef (Some ld)] /\
    h' !! lm = Some (OMoof (MkMoof 0 (Some lf) (hd None trafs) trafs)) /\
    h' !! lf = Some (OMfhd (MkMfhd seqNumber)) /\
    h' !! ld = Some (OMdat (MkMdat 0 [])) /\
    Forall2 (track h') trafs trackIDs /\
    (forall l o, h !! l = Some o -> h' !! l = Some o).
Proof.
  unfold CreateMultiTrackFragment.
  rewrite (bind_ok _ _ _ _ _ (alloc_ok _ h)).
  set (l1 := fresh (dom h)). set (h1 := <[l1 := _]> h).
  assert (Ha1 : AddChild NewFragment (MoofBoxRef (Some l1))
                = Ok (MkFragment None (Some l1) None [MoofBoxRef (Some l1)]))
    by reflexivity.
  rewrite (bind_ok _ _ _ _ _ (lift_ok _ _ h1 Ha1)).
  unfold CreateMfhd. rewrite (bind_ok _ _ _ _ _ (alloc_ok _ h1)).
  set (l2 := fresh (dom h1)). set (h2 := <[l2 := _]> h1).
  assert (H21 : l2 <> l1) by apply fresh_insert_ne.
  assert (Hm2 : h2 !! l1 = Some (OMoof (MkMoof 0 None None []))).
  { unfold h2, h1. rewrite lookup_insert_ne by congruence. apply lookup_insert_eq. }
  rewrite (bind_ok _ _ _ _ _ (MoofAddChild_mfhd l1 (Some l2) _ h2 Hm2)).
  cbn [StartPos Traf Trafs].
  set (h3 := <[l1 := OMoof (MkMoof 0 (Some l2) None [])]> h2).
  assert (Hm3 : h3 !! l1 = Some (OMoof (MkMoof 0 (Some l2) None [])))
    by apply lookup_insert_eq.
  assert (Hf3 : h3 !! l2 = Some (OMfhd (MkMfhd seqNumber))).
  { unfold h3, h2. rewrite lookup_insert_ne by congruence. apply lookup_insert_eq. }
  assert (E3 : extends l1 h h3).
  { apply extends_insert; [|left; reflexivity].
    apply extends_alloc. apply extends_alloc, extends_refl. }
  destruct (addTracks_spec l1 trackIDs h3 _ Hm3) as (h4 & trafs & Htracks & Hm4 & Hall & E4).
  cbn [StartPos Mfhd Traf Trafs app] in Hm4.
  rewrite (bind_ok _ _ _ _ _ Htracks).
  rewrite (bind_ok _ _ _ _ _ (alloc_ok _ h4)).
  set (l3 := fresh (dom h4)). set (h5 := <[l3 := _]> h4).
  assert (H31 : l3 <> l1) by (apply (fresh_ne h4 l1 _ Hm4)).
  assert (E5 : extends l1 h4 h5) by (apply extends_alloc, extends_refl).
  assert (Ha2 : AddChild (MkFragment None (Some l1) None [MoofBoxRef (Some l1)])
                         (MdatBoxRef (Some l3))
                = Ok (MkFragment None (Some l1) (Some l3)
                                 [MoofBoxRef (Some l1); MdatBoxRef (Some l3)]))
    by reflexivity.
  rewrite (bind_ok _ _ _ _ _ (lift_ok _ _ h5 Ha2)).
  exists (MkFragment None (Some l1) (Some l3) [MoofBoxRef (Some l1); MdatBoxRef (Some l3)]),
         h5, l1, l3, l2, trafs.
  split; [reflexivity|]. split; [reflexivity|].
  assert (Hm5 : h5 !! l1 = Some (OMoof (MkMoof 0 (Some l2) (hd None trafs) trafs))).
  { unfold h5. rewrite lookup_insert_ne by congruence. rewrite Hm4.
    destruct trafs; reflexivity. }
  split; [exact Hm5|]. split; [|split; [|split]].
  - apply E5, E4; [congruence | congruence | exact Hf3].
  - apply lookup_insert_eq.
  - eapply Forall2_impl; [exact Hall|]. intros traf trackID Htr.
    exact (track_extends l1 h4 h5 _ _ _ Hm4 E5 Htr).
  - intros l o Hl.
    assert (Hne : l <> l1).
    { intros ->. pose proof (fresh_none h) as Hn. fold l1 in Hn. congruence. }
    apply E5, E4, E3; assumption.
Qed.

Lemma track_has_track (h : heap) (traf : ptr) (trackID : Z) :
  track h traf trackID -> has_track h traf trackID.
Proof.
  intros (lh & ld & lr & Htr & Hh & Hd & Hr).
  exists (MkTraf (Some lh) (Some ld) (Some lr) [Some lr]),
         (MkTfhd trackID false 0 false false 0 false 0 false 0), emptyTrun.
  split; [exact Htr|]. cbn [Tfhd Tfdt Trun Truns].
  split; [exists lh; auto|]. split; [reflexivity|].
  split; [exists ld; auto|]. split; [exists lr; auto|]. split; reflexivity.
Qed.

(** X22.  [CreateMultiTrackFragment] returns, with no error, a fragment
    with a [moof] and an [mdat] for its children, in this order, and no
    [prft]; the [moof] starts at 0, has the [mfhd] with the sequence
    number and one [traf] for each track ID, in the order of the IDs, the
    first one being [moof.Traf]; each [traf] has a [tfhd] with its track
    ID, a [tfdt] at 0 and one run without sample; the [mdat] has no data.
    The boxes that were in the store are not touched. *)
Theorem CreateMultiTrackFragment_tracks (seqNumber : Z) (trackIDs : list Z) (h : heap) :
  exists (f : Fragment) (h' : heap) (lm ld lf : loc) (trafs : list ptr) (md : MdatBox),
    CreateMultiTrackFragment seqNumber trackIDs h = Ok (f, h') /\
    f = MkFragment None (Some lm) (Some ld) [MoofBoxRef (Some lm); MdatBoxRef (Some ld)] /\
    h' !! lm = Some (OMoof (MkMoof 0 (Some lf) (hd None trafs) trafs)) /\
    h' !! lf = Some (OMfhd (MkMfhd seqNumber)) /\
    h' !! ld = Some (OMdat md) /\ MdatData md = [] /\
    Forall2 (has_track h') trafs trackIDs /\
    (forall l o, h !! l = Some o -> h' !! l = Some o).
Proof.
  destruct (CreateMultiTrackFragment_spec seqNumber trackIDs h)
    as (f & h' & lm & ld & lf & trafs & Hc & Hf & Hm & Hmf & Hmd & Hall & Hkeep).
  exists f, h', lm, ld, lf, trafs, (MkMdat 0 []).
  split; [exact Hc|]. split; [exact Hf|]. split; [exact Hm|]. split; [exact Hmf|].
  split; [exact Hmd|]. split; [reflexivity|]. split; [|exact Hkeep].
  eapply Forall2_impl; [exact Hall|]. intros traf trackID. apply track_has_track.
Qed.

(** *** Adding several samples *)

(** One call, on a fragment that has its boxes. *)
Lemma AddFullSample_step (f : Fragment) (s : FullSample) (h : heap)
    (m : MoofBox) (tr : TrafBox) (t : TrunBox) (td : TfdtBox) (md : MdatBox) :
  points_to h (Moof f) (OMoof m) ->
  points_to h (Traf m) (OTraf tr) ->
  points_to h (Trun tr) (OTrun t) ->
  points_to h (Tfdt tr) (OTfdt td) ->
  points_to h (Mdat f) (OMdat md) ->
  exists h',
    AddFullSample f s h = Ok (tt, h') /\
    points_to h' (Tfdt tr)
      (OTfdt (if SampleCount t =? 0 then MkTfdt (DecodeTime s) else td)) /\
    points_to h' (Trun tr) (OTrun (AddSample t (sample s))) /\
    points_to h' (Mdat f) (OMdat (AddSampleData md (Data s))) /\
    (forall l, Some l <> Tfdt tr -> Some l <> Trun tr -> Some l <> Mdat f ->
               h' !! l = h !! l).
Proof.
  intros Hm Htr Ht Htd Hmd.
  pose proof Ht as (ln & En & Hn). pose proof Htd as (ld & Ed & Hd).
  pose proof Hmd as (lx & Ex & Hx).
  assert (Hnd : ln <> ld) by congruence.
  assert (Hnx : ln <> lx) by congruence.
  assert (Hdx : ld <> lx) by congruence.
  set (h1 := if SampleCount t =? 0 then <[ld := OTfdt (MkTfdt (DecodeTime s))]> h else h).
  assert (Hd1 : h1 !! ld = Some (OTfdt (if SampleCount t =? 0 then MkTfdt (DecodeTime s)
                                        else td))).
  { unfold h1. destruct (SampleCount t =? 0); [apply lookup_insert_eq | exact Hd]. }
  assert (Hother : forall l, l <> ld -> h1 !! l = h !! l).
  { intros l Hl. unfold h1. destruct (SampleCount t =? 0); [|reflexivity].
    apply lookup_insert_ne. congruence. }
  set (h2 := <[ln := OTrun (AddSample t (sample s))]> h1).
  set (h3 := <[lx := OMdat (AddSampleData md (Data s))]> h2).
  exists h3. split; [|split; [|split; [|split]]].
  - unfold AddFullSample.
    rewrite (bind_ok _ _ _ _ _ (load_moof_ok _ _ _ Hm)).
    rewrite (bind_ok _ _ _ _ _ (load_traf_ok _ _ _ Htr)).
    rewrite (bind_ok _ _ _ _ _ (load_trun_ok _ _ _ Ht)).
    match goal with
    | |- mbind _ ?step h = _ =>
        assert (Hstep : step h = Ok (tt, h1));
        [|rewrite (bind_ok step _ h h1 tt Hstep)]
    end.
    { unfold h1. destruct (SampleCount t =? 0); [|reflexivity].
      rewrite (bind_ok _ _ _ _ _ (load_tfdt_ok _ _ _ Htd)). rewrite Ed. reflexivity. }
    rewrite En, Ex.
    rewrite (bind_ok _ _ _ _ _ (load_trun_ok (Some ln) h1 t
               ltac:(exists ln; split; [reflexivity|]; rewrite Hother by congruence;
                     exact Hn))).
    rewrite (bind_ok _ _ _ _ _ (store_ok _ _ _)). fold h2.
    rewrite (bind_ok _ _ _ _ _ (load_mdat_ok (Some lx) h2 md
               ltac:(exists lx; split; [reflexivity|]; unfold h2;
                     rewrite lookup_insert_ne by congruence;
                     rewrite Hother by congruence; exact Hx))).
    reflexivity.
  - rewrite Ed. exists ld. split; [reflexivity|]. unfold h3, h2.
    rewrite !lookup_insert_ne by congruence. exact Hd1.
  - rewrite En. exists ln. split; [reflexivity|]. unfold h3, h2.
    rewrite lookup_insert_ne by congruence. apply lookup_insert_eq.
  - rewrite Ex. apply points_to_insert.
  - intros l Hl1 Hl2 Hl3. rewrite Ed in Hl1. rewrite En in Hl2. rewrite Ex in Hl3.
    unfold h3, h2. rewrite !lookup_insert_ne by congruence. apply Hother. congruence.
Qed.

Lemma SampleCount_zero (t : TrunBox) :
  len (samples t) < 2 ^ 32 ->
  (SampleCount t =? 0) = match samples t with [] => true | _ => false end.
Proof.
  intros Hlt. unfold SampleCount, uint32. pose proof (len_nonneg (samples t)) as Hge.
  rewrite Z.mod_small by lia. destruct (samples t); [reflexivity|].
  unfold len in *. cbn [length] in *. apply Z.eqb_neq. lia.
Qed.

Lemma points_to_kept (h h' : heap) (p : ptr) (o : object) :
  points_to h p o -> (forall l, p = Some l -> h' !! l = h !! l) -> points_to h' p o.
Proof.
  intros (l & -> & H) Hkeep. exists l. split; [reflexivity|].
  rewrite (Hkeep l eq_refl). exact H.
Qed.

(** The calls one after the other. *)
Lemma AddFullSamples_spec (f : Fragment) (ss : list FullSample) :
  forall (h : heap) (m : MoofBox) (tr : TrafBox) (t : TrunBox) (td : TfdtBox)
         (md : MdatBox),
    points_to h (Moof f) (OMoof m) ->
    points_to h (Traf m) (OTraf tr) ->
    points_to h (Trun tr) (OTrun t) ->
    points_to h (Tfdt tr) (OTfdt td) ->
    points_to h (Mdat f) (OMdat md) ->
    len (samples t) + len ss < 2 ^ 32 ->
    exists h',
      AddFullSamples f ss h = Ok (tt, h') /\
      points_to h' (Trun tr) (OTrun (withSamples t (samples t ++ map sample ss))) /\
      points_to h' (Mdat f)
        (OMdat (MkMdat (PayloadAbsoluteOffset md) (MdatData md ++ concat (map Data ss)))) /\
      points_to h' (Tfdt tr)
        (OTfdt (match samples t, ss with
                | [], s :: _ => MkTfdt (DecodeTime s)
                | _, _ => td
                end)) /\
      (forall l, Some l <> Tfdt tr -> Some l <> Trun tr -> Some l <> Mdat f ->
                 h' !! l = h !! l).
Proof.
  induction ss as [|s rest IH]; intros h m tr t td md Hm Htr Ht Htd Hmd Hlen;
    cbn [AddFullSamples].
  - exists h. split; [reflexivity|]. cbn [map concat]. rewrite !app_nil_r.
    split; [destruct t; exact Ht|]. split; [destruct md; exact Hmd|].
    split; [destruct (samples t); exact Htd | reflexivity].
  - destruct (AddFullSample_step f s h m tr t td md Hm Htr Ht Htd Hmd)
      as (h1 & Hadd & Htd1 & Ht1 & Hmd1 & Hkeep1).
    rewrite (bind_ok _ _ _ _ _ Hadd).
    pose proof (len_nonneg (samples t)) as Hge. pose proof (len_nonneg rest) as Hge'.
    assert (Hlen' : len (s :: rest) = 1 + len rest) by (unfold len; cbn [length]; lia).
    rewrite SampleCount_zero in Htd1 by lia.
    assert (Hm1 : points_to h1 (Moof f) (OMoof m)).
    { apply (points_to_kept h h1 _ _ Hm). intros l El. apply Hkeep1.
      - intros E. rewrite <- E, <- El in Htd. pose proof (points_to_fun _ _ _ _ Hm Htd).
        discriminate.
      - intros E. rewrite <- E, <- El in Ht. pose proof (points_to_fun _ _ _ _ Hm Ht).
        discriminate.
      - intros E. rewrite <- E, <- El in Hmd. pose proof (points_to_fun _ _ _ _ Hm Hmd).
        discriminate. }
    assert (Htr1 : points_to h1 (Traf m) (OTraf tr)).
    { apply (points_to_kept h h1 _ _ Htr). intros l El. apply Hkeep1.
      - intros E. rewrite <- E, <- El in Htd. pose proof (points_to_fun _ _ _ _ Htr Htd).
        discriminate.
      - intros E. rewrite <- E, <- El in Ht. pose proof (points_to_fun _ _ _ _ Htr Ht).
        discriminate.
      - intros E. rewrite <- E, <- El in Hmd. pose proof (points_to_fun _ _ _ _ Htr Hmd).
        discriminate. }
    destruct (IH h1 m tr (AddSample t (sample s)) _ (AddSampleData md (Data s))
                 Hm1 Htr1 Ht1 Htd1 Hmd1) as (h' & Hrest & Ht' & Hmd' & Htd' & Hkeep').
    { cbn [AddSample samples]. rewrite len_app. unfold len at 2. cbn [length]. lia. }
    exists h'. split; [exact Hrest|].
    cbn [AddSample samples AddSampleData PayloadAbsoluteOffset MdatData withSamples
         HasDataOffset DataOffset HasFirstSampleFlags FirstSampleFlags HasSampleDuration
         HasSampleSize HasSampleFlags HasSampleCTO] in Ht', Hmd', Htd'.
    cbn [map concat]. rewrite <- !app_assoc in Ht', Hmd'. cbn [app] in Ht'.
    split; [exact Ht'|]. split; [exact Hmd'|]. split.
    + destruct (samples t) as [|x xs]; cbn [app] in Htd'; [|exact Htd'].
      destruct rest; exact Htd'.
    + intros l H1 H2 H3. rewrite (Hkeep' l H1 H2 H3). apply Hkeep1; assumption.
Qed.

(** X23.  A sequence of [AddFullSample] calls on a fragment that has its
    boxes, the run staying below 2^32 samples: all the calls return, the
    samples are appended to the run of the first [traf] in the order of
    the calls and their data to the [mdat], one after the other; the base
    media decode time is the decode time of the first sample added when
    the run was empty, and is not changed otherwise.  Every other box is
    left as it was. *)
Theorem AddFullSamples_appends (f : Fragment) (ss : list FullSample) :
  forall (h : heap) (m : MoofBox) (tr : TrafBox) (t : TrunBox) (td : TfdtBox)
         (md : MdatBox),
    points_to h (Moof f) (OMoof m) ->
    points_to h (Traf m) (OTraf tr) ->
    points_to h (Trun tr) (OTrun t) ->
    points_to h (Tfdt tr) (OTfdt td) ->
    points_to h (Mdat f) (OMdat md) ->
    len (samples t) + len ss < 2 ^ 32 ->
    exists h',
      AddFullSamples f ss h = Ok (tt, h') /\
      points_to h' (Trun tr) (OTrun (withSamples t (samples t ++ map sample ss))) /\
      points_to h' (Mdat f)
        (OMdat (MkMdat (PayloadAbsoluteOffset md) (MdatData md ++ concat (map Data ss)))) /\
      points_to h' (Tfdt tr)
        (OTfdt (match samples t, ss with
                | [], s :: _ => MkTfdt (DecodeTime s)
                | _, _ => td
                end)) /\
      (forall l, Some l <> Tfdt tr -> Some l <> Trun tr -> Some l <> Mdat f ->
                 h' !! l = h !! l).
Proof. exact (AddFullSamples_spec f ss). Qed.

Lemma AddFullSamples_appends_witness :
  exists h',
    AddFullSamples fragment1.1 [sample1; sample1] fragment1.2 = Ok (tt, h') /\
    points_to h' (Trun traf1)
      (OTrun (withSamples emptyTrun (samples emptyTrun ++ map sample [sample1; sample1]))) /\
    points_to h' (Mdat fragment1.1)
      (OMdat (MkMdat (PayloadAbsoluteOffset (MkMdat 0 []))
                     (MdatData (MkMdat 0 []) ++ concat (map Data [sample1; sample1])))) /\
    points_to h' (Tfdt traf1)
      (OTfdt (match samples emptyTrun, [sample1; sample1] with
              | [], s :: _ => MkTfdt (DecodeTime s)
              | _, _ => MkTfdt 0
              end)) /\
    (forall l, Some l <> Tfdt traf1 -> Some l <> Trun traf1 ->
               Some l <> Mdat fragment1.1 -> h' !! l = fragment1.2 !! l).
Proof.
  apply (AddFullSamples_appends fragment1.1 [sample1; sample1] fragment1.2 moof1 traf1
           emptyTrun (MkTfdt 0) (MkMdat 0 []));
    try (eexists; (split; [reflexivity | vm_compute; reflexivity])).
Defined.

(** *** Adding samples, then resolving them *)

Lemma resolveSamples_all (t : TrunBox) (tfhd : TfhdBox) (trex : option TrexBox)
    (ss : list Sample) :
  HasSampleDuration t = true -> HasSampleSize t = true ->
  HasSampleFlags t = true -> HasSampleCTO t = true ->
  resolveSamples t tfhd trex ss = ss.
Proof.
  intros Hd Hs Hf Hc.
  assert (Hone : forall first s, resolveSample t tfhd trex first s = s).
  { intros first [fl du sz ct]. unfold resolveSample. rewrite Hd, Hs, Hf, Hc. reflexivity. }
  destruct ss as [|s rest]; cbn [resolveSamples]; [reflexivity|].
  rewrite Hone. f_equal. induction rest as [|x rest IH]; cbn [map]; [reflexivity|].
  rewrite Hone, IH. reflexivity.
Qed.

(** Walking the data that the samples left in the [mdat] gives the samples
    back. *)
Lemma walkSamples_concat (ss : list FullSample) :
  forall (before after : list byte) (bt : Z),
    Forall (fun s => Size (sample s) = len (Data s)) ss ->
    chain bt ss ->
    len before + len (concat (map Data ss)) < 2 ^ 32 ->
    walkSamples (map sample ss) (len before) bt (before ++ concat (map Data ss) ++ after)
    = Ok ss.
Proof.
  induction ss as [|s rest IH]; intros before after bt Hsize Hchain Hfit;
    cbn [map walkSamples]; [reflexivity|].
  inversion Hsize as [|? ? Hs Hrest]; subst. destruct Hchain as [Hbt Hchain].
  cbn [map concat] in *. rewrite len_app in Hfit.
  pose proof (len_nonneg before) as Hb. pose proof (len_nonneg (Data s)) as Hd.
  pose proof (len_nonneg (concat (map Data rest))) as Hc.
  pose proof (len_nonneg after) as Ha.
  assert (Hle : (len before + Size (sample s)
                 <=? len (before ++ (Data s ++ concat (map Data rest)) ++ after)) = true).
  { apply Z.leb_le. rewrite !len_app, Hs. lia. }
  rewrite Hle.
  assert (Hnext : uint32 (len before + Size (sample s)) = len (before ++ Data s)).
  { rewrite len_app, Hs. unfold uint32. apply Z.mod_small. lia. }
  rewrite Hnext.
  replace (before ++ (Data s ++ concat (map Data rest)) ++ after)
    with ((before ++ Data s) ++ concat (map Data rest) ++ after)
    by (rewrite <- !app_assoc; reflexivity).
  rewrite (IH (before ++ Data s) after _ Hrest Hchain) by (rewrite len_app; lia).
  cbn [mbind result_bind]. f_equal. f_equal.
  rewrite <- !app_assoc. unfold len. rewrite Nat2Z.id, drop_app_length.
  rewrite Hs. unfold len. rewrite Nat2Z.id, take_app_length.
  rewrite <- Hbt. destruct s; reflexivity.
Qed.

(** The run, with other samples, is at the same place. *)
Lemma offsetInMdat_samples (th : TfhdBox) (moofStartPos : Z) (t : TrunBox)
    (ss : list Sample) (md : MdatBox) (data : list byte) :
  offsetInMdat th moofStartPos (withSamples t ss) (MkMdat (PayloadAbsoluteOffset md) data)
  = offsetInMdat th moofStartPos t md.
Proof. reflexivity. Qed.

(** X24.  Samples added to an empty fragment come back from the resolver
    as they were added.  On a fragment that has its boxes, whose first
    [traf] has one run, without sample, with the four per-sample fields
    and placed at the start of the payload of the [mdat], which has no
    data: [AddFullSample] called with one sample after the other, each
    with as many bytes of data as its size says and each decoded when the
    one before it ends, fewer than 2^32 samples and bytes in all, and then
    [GetFullSamples] without [trex], the methods of the run being those
    that the specification describes: every call returns, and
    [GetFullSamples] returns these samples, in the same order, with their
    data and their times, and no error. *)
Theorem AddFullSample_then_GetFullSamples (f : Fragment) (h : heap) (m : MoofBox)
    (tr : TrafBox) (th : TfhdBox) (t : TrunBox) (td : TfdtBox) (md : MdatBox)
    (ss : list FullSample) :
  points_to h (Moof f) (OMoof m) ->
  points_to h (Traf m) (OTraf tr) ->
  points_to h (Tfhd tr) (OTfhd th) ->
  points_to h (Tfdt tr) (OTfdt td) ->
  points_to h (Trun tr) (OTrun t) ->
  Truns tr = [Trun tr] ->
  points_to h (Mdat f) (OMdat md) ->
  samples t = [] ->
  MdatData md = [] ->
  HasSampleDuration t = true -> HasSampleSize t = true ->
  HasSampleFlags t = true -> HasSampleCTO t = true ->
  offsetInMdat th (StartPos m) t md = 0 ->
  len ss < 2 ^ 32 ->
  len (concat (map Data ss)) < 2 ^ 32 ->
  Forall (fun s => Size (sample s) = len (Data s)) ss ->
  consecutive ss ->
  exists h2 : heap,
    AddFullSamples f ss h = Ok (tt, h2) /\
    GetFullSamples TrunAddSampleDefaultValues TrunGetFullSamples f None h2
      = Ok ((ss, None), h2).
Proof.
  intros Pm Ptr Ph Pd Pt Hruns Px Hnone Hdata Hd Hs Hf Hc Hoff Hn Hbytes Hsize Hcons.
  destruct (AddFullSamples_spec f ss h m tr t td md Pm Ptr Pt Pd Px)
    as (h2 & Hadd & Pt2 & Px2 & Pd2 & Hkeep).
  { rewrite Hnone. unfold len at 1. cbn [length]. lia. }
  rewrite Hnone in Pt2, Pd2. rewrite Hdata in Px2. cbn [app] in Pt2, Px2.
  set (t2 := withSamples t (map sample ss)) in *.
  set (md2 := MkMdat (PayloadAbsoluteOffset md) (concat (map Data ss))) in *.
  assert (Hkept : forall (p : ptr) (o : object),
            points_to h p o ->
            (forall x, o <> OTrun x) -> (forall x, o <> OTfdt x) -> (forall x, o <> OMdat x) ->
            points_to h2 p o).
  { intros p o Hp N1 N2 N3. apply (points_to_kept h h2 p o Hp). intros l ->.
    apply Hkeep; intros E.
    - rewrite E in Hp. apply (N2 td). exact (points_to_fun _ _ _ _ Hp Pd).
    - rewrite E in Hp. apply (N1 t). exact (points_to_fun _ _ _ _ Hp Pt).
    - rewrite E in Hp. apply (N3 md). exact (points_to_fun _ _ _ _ Hp Px). }
  assert (Pm2 : points_to h2 (Moof f) (OMoof m)) by (apply Hkept; [exact Pm|..]; discriminate).
  assert (Ptr2 : points_to h2 (Traf m) (OTraf tr))
    by (apply Hkept; [exact Ptr|..]; discriminate).
  assert (Ph2 : points_to h2 (Tfhd tr) (OTfhd th))
    by (apply Hkept; [exact Ph|..]; discriminate).
  exists h2. split; [exact Hadd|].
  unfold GetFullSamples.
  rewrite (bind_ok _ _ _ _ _ (load_moof_ok _ _ _ Pm2)).
  rewrite (bind_ok (mret (Some (Traf m))) _ h2 h2 (Some (Traf m)) eq_refl).
  rewrite (bind_ok _ _ _ _ _ (load_traf_ok _ _ _ Ptr2)).
  rewrite (bind_ok _ _ _ _ _ (load_tfdt_ok _ _ _ Pd2)).
  rewrite Hruns.
  assert (Hres : TrunAddSampleDefaultValues t2 th None
                 = (t2, fold_left (fun total s => uint64 (total + Dur s))
                                  (map sample ss) 0)).
  { unfold TrunAddSampleDefaultValues.
    rewrite (resolveSamples_all t2 th None (samples t2)) by assumption. reflexivity. }
  destruct Pt2 as (lr & Elr & Hlr).
  assert (Pt2 : points_to h2 (Some lr) (OTrun t2)) by (exists lr; auto).
  rewrite Elr.
  rewrite (trunLoop_turn TrunAddSampleDefaultValues TrunGetFullSamples
             (Tfhd tr) (Mdat f) None (StartPos m) lr [] _ [] h2 t2 t2 th _ md2
             Pt2 Ph2 Hres Px2).
  assert (Hoff2 : offsetInMdat th (StartPos m) t2 md2 = 0)
    by (unfold t2, md2; rewrite offsetInMdat_samples; exact Hoff).
  rewrite !Hoff2.
  pose proof (len_nonneg (concat (map Data ss))) as Hge.
  assert (Hgt : (0 >? uint64 (len (MdatData md2))) = false).
  { rewrite Z.gtb_ltb. apply Z.ltb_ge. apply uint64_range. }
  rewrite Hgt.
  assert (Hwalk : TrunGetFullSamples t2 (uint32 0)
                    (BaseMediaDecodeTime
                       (match ss with [] => td | s :: _ => MkTfdt (DecodeTime s) end)) md2
                  = Ok ss).
  { unfold TrunGetFullSamples. cbn [samples t2 withSamples MdatData md2].
    pose proof (walkSamples_concat ss [] []) as Hw. cbn [app] in Hw.
    rewrite app_nil_r in Hw. apply Hw; [exact Hsize | | unfold len at 1; cbn [length]; lia].
    destruct ss as [|s rest]; [exact I | exact Hcons]. }
  rewrite (bind_ok _ _ _ _ _ (lift_ok _ _ _ Hwalk)).
  cbn [trunLoop app]. rewrite (insert_id h2 lr _ Hlr). reflexivity.
Qed.

Lemma AddFullSample_then_GetFullSamples_witness :
  exists h2 : heap,
    AddFullSamples fragment1.1
      [sample1; MkFullSample (MkSample 0 10 2 0) 1000 [x01; x02]] fragment1.2
      = Ok (tt, h2) /\
    GetFullSamples TrunAddSampleDefaultValues TrunGetFullSamples fragment1.1 None h2
      = Ok (([sample1; MkFullSample (MkSample 0 10 2 0) 1000 [x01; x02]], None), h2).
Proof.
  apply (AddFullSample_then_GetFullSamples fragment1.1 fragment1.2 moof1 traf1
           (MkTfhd 1 false 0 false false 0 false 0 false 0) emptyTrun (MkTfdt 0)
           (MkMdat 0 []) [sample1; MkFullSample (MkSample 0 10 2 0) 1000 [x01; x02]]);
    try (eexists; (split; [reflexivity | vm_compute; reflexivity]));
    try reflexivity.
  - repeat constructor.
  - repeat split.
Defined.

(** *** The times of the samples *)

Lemma chain_app (l1 l2 : list FullSample) :
  forall bt, chain bt (l1 ++ l2) <-> chain bt l1 /\ chain (endTime bt l1) l2.
Proof.
  induction l1 as [|s l1 IH]; intros bt; cbn [app chain endTime fold_left].
  - tauto.
  - fold (endTime (uint64 (bt + Dur (sample s))) l1). rewrite IH. tauto.
Qed.

Lemma endTime_app (l1 l2 : list FullSample) (bt : Z) :
  endTime bt (l1 ++ l2) = endTime (endTime bt l1) l2.
Proof. unfold endTime. apply fold_left_app. Qed.

(** The samples that the walk gives are those of the run, one after the
    other from the base time. *)
Lemma walkSamples_chain (ss : list Sample) :
  forall (offset bt : Z) (data : list byte) (more : list FullSample),
    walkSamples ss offset bt data = Ok more ->
    chain bt more /\ map sample more = ss.
Proof.
  induction ss as [|s rest IH]; intros offset bt data more H; cbn [walkSamples] in H.
  - injection H as <-. split; [exact I | reflexivity].
  - destruct (offset + Size s <=? len data); [|discriminate].
    inv_bind H. injection H as <-. destruct (IH _ _ _ _ E) as [Hc Hm].
    cbn [chain map sample DecodeTime]. rewrite Hm. auto.
Qed.

(** Adding the durations to the base time one by one, or their total at
    once. *)
Lemma total_duration (ss : list Sample) :
  forall a : Z,
    fold_left (fun t s => uint64 (t + Dur s)) ss (uint64 a)
    = uint64 (a + fold_left (fun total s => uint64 (total + Dur s)) ss 0).
Proof.
  induction ss as [|s rest IH]; intros a; cbn [fold_left].
  - f_equal. lia.
  - rewrite uint64_add_l, IH. replace (0 + Dur s) with (Dur s) by lia.
    rewrite (IH (Dur s)). unfold uint64. rewrite Zplus_mod_idemp_r. f_equal. lia.
Qed.

Lemma endTime_samples (more : list FullSample) (bt : Z) :
  endTime bt more = fold_left (fun t s => uint64 (t + Dur s)) (map sample more) bt.
Proof.
  unfold endTime. revert bt. induction more as [|s rest IH]; intros bt; cbn [fold_left map];
    [reflexivity | apply IH].
Qed.

Lemma visits_chain (tfhd mdat : ptr) (trex : option TrexBox) (moofStartPos : Z) (b0 : Z)
    (truns truns' : list ptr) (bt bt' : Z) (acc acc' : list FullSample) (h h' : heap) :
  visits TrunAddSampleDefaultValues TrunGetFullSamples tfhd mdat trex moofStartPos
         truns bt acc h truns' bt' acc' h' ->
  0 <= bt < 2 ^ 64 ->
  chain b0 acc /\ endTime b0 acc = bt ->
  chain b0 acc' /\ endTime b0 acc' = bt'.
Proof.
  induction 1 as [|l rest bt acc h t0 t th totalDur m more truns' bt' acc' h'
                   Ht Hth Hadd Hm Hle Hmore _ IH]; intros Hbt [Hc He]; [auto|].
  apply IH; [apply uint64_range|].
  unfold TrunGetFullSamples in Hmore. apply walkSamples_chain in Hmore as [Hcm Hsm].
  unfold TrunAddSampleDefaultValues in Hadd. injection Hadd as Ht' Hdur.
  assert (Hs : samples t = resolveSamples t0 th trex (samples t0))
    by (rewrite <- Ht'; reflexivity).
  split.
  - apply chain_app. rewrite He. auto.
  - rewrite endTime_app, He, endTime_samples, Hsm, <- Hdur, <- Hs.
    rewrite <- (uint64_small bt Hbt) at 1. apply total_duration.
Qed.

(** X25.  When every run of the [traf] lies within the data of the
    [mdat], [GetFullSamples] returns no error and the samples of the runs,
    one run after the other in the order of [Truns]; with the methods of
    the run that the specification describes, the samples follow one
    another in time across the runs: the first one is decoded at the base
    media decode time of the [tfdt], and each next one when the one before
    it ends, the times being [uint64]. *)
Theorem GetFullSamples_times (f : Fragment) (trex : option TrexBox) (h h' : heap)
    (m : MoofBox) (traf : ptr) (t : TrafBox) (tfdt : TfdtBox) (bt' : Z)
    (acc : list FullSample) :
  points_to h (Moof f) (OMoof m) ->
  selected h m trex traf ->
  points_to h traf (OTraf t) ->
  points_to h (Tfdt t) (OTfdt tfdt) ->
  0 <= BaseMediaDecodeTime tfdt < 2 ^ 64 ->
  visits TrunAddSampleDefaultValues TrunGetFullSamples (Tfhd t) (Mdat f) trex (StartPos m)
         (Truns t) (BaseMediaDecodeTime tfdt) [] h [] bt' acc h' ->
  GetFullSamples TrunAddSampleDefaultValues TrunGetFullSamples f trex h
    = Ok ((acc, None), h') /\
  chain (BaseMediaDecodeTime tfdt) acc /\
  endTime (BaseMediaDecodeTime tfdt) acc = bt'.
Proof.
  intros Hm Hsel Ht Htfdt Hbt Hvisits. split.
  - exact (GetFullSamples_visits _ _ f trex h h' m traf t tfdt bt' acc
             Hm Hsel Ht Htfdt Hvisits).
  - apply (visits_chain _ _ _ _ _ _ _ _ _ _ _ _ _ Hvisits Hbt). split; [exact I | reflexivity].
Qed.

Lemma GetFullSamples_times_witness :
  GetFullSamples TrunAddSampleDefaultValues TrunGetFullSamples fragment1.1 None heapS6
    = Ok ((resultS6.1, None), heapS6after) /\
  chain (BaseMediaDecodeTime (MkTfdt 500)) resultS6.1 /\
  endTime (BaseMediaDecodeTime (MkTfdt 500)) resultS6.1 = 560.
Proof.
  apply (GetFullSamples_times fragment1.1 None heapS6 heapS6after moof1 (Some 3%positive)
           (MkTraf (Some 4%positive) (Some 5%positive) (Some 6%positive)
                   [Some 6%positive; Some 8%positive]) (MkTfdt 500) 560 resultS6.1).
  - eexists. split; [reflexivity | vm_compute; reflexivity].
  - reflexivity.
  - eexists. split; [reflexivity | vm_compute; reflexivity].
  - eexists. split; [reflexivity | vm_compute; reflexivity].
  - simpl. lia.
  - cbn [Tfhd Truns Mdat BaseMediaDecodeTime StartPos moof1 fst fragment1].
    eapply (visits_next _ _ _ _ _ _ 6%positive [Some 8%positive] 500 [] heapS6
              _ _ _ _ _ _ [] 560 _ heapS6after).
    + eexists. split; [reflexivity | vm_compute; reflexivity].
    + eexists. split; [reflexivity | vm_compute; reflexivity].
    + reflexivity.
    + eexists. split; [reflexivity | vm_compute; reflexivity].
    + vm_compute. discriminate.
    + vm_compute. reflexivity.
    + eapply (visits_next _ _ _ _ _ _ 8%positive [] _ _ _ _ _ _ _ _ _ [] 560 _ heapS6after).
      * eexists. split; [reflexivity | vm_compute; reflexivity].
      * eexists. split; [reflexivity | vm_compute; reflexivity].
      * reflexivity.
      * eexists. split; [reflexivity | vm_compute; reflexivity].
      * vm_compute. discriminate.
      * vm_compute. reflexivity.
      * match goal with
        | |- visits _ _ _ _ _ _ [] ?b ?a ?g [] _ ?a' _ =>
            replace g with heapS6after by (vm_compute; reflexivity);
            change b with 560; change a with a'
        end.
        apply visits_here.
Defined.

End FragmentFacts.
